(** * Dependency scanning tool: include-tree builder, dependency aggregator
      and make-format printer

    A shallow embedding of
    [clang/lib/Tooling/DependencyScanning/DependencyScanningTool.cpp].

    The collaborators the translation unit only uses through their
    interfaces (the CAS object store, the file manager, the source manager,
    the dependency-file generator) are records of functions; the consumers'
    member variables are explicit state, threaded through a small monad that
    also tracks the two ways a call can leave the C++ abstract machine's
    normal path: a failed [assert] and undefined behaviour. *)

From Stdlib Require Import ZArith NArith Bool.
From stdpp Require Import base decidable option list strings pretty gmap sorting.

Open Scope string_scope.
Open Scope list_scope.

(* ===================================================================== *)
(** * Part I: definitions                                                 *)
(* ===================================================================== *)

(** ** Results of a call *)

(** [llvm::Error] payloads: either a [std::error_code] turned into an error
    by [llvm::errorCodeToError], or any other error a collaborator reports. *)
Inductive Error : Type :=
| ErrorCode (ec : nat)
| StringError (msg : string).

Definition errorCodeToError (ec : nat) : Error := ErrorCode ec.

(** [llvm::Expected<T>]. *)
Inductive Expected (T : Type) : Type :=
| Success (v : T)
| Failure (e : Error).
Arguments Success {T} v.
Arguments Failure {T} e.

(** [llvm::ErrorOr<T>]. *)
Inductive ErrorOr (T : Type) : Type :=
| Value (v : T)
| ErrorCodeOf (ec : nat).
Arguments Value {T} v.
Arguments ErrorCodeOf {T} ec.

(** How a call ends: it returns, an [assert] fires (the process aborts), or
    the call has undefined behaviour. *)
Inductive Outcome (A : Type) : Type :=
| Returns (a : A)
| AssertionFailed
| Undefined.
Arguments Returns {A} a.
Arguments AssertionFailed {A}.
Arguments Undefined {A}.

(** Member functions of a class with state [S]. *)
Definition M (S A : Type) : Type := S -> Outcome (A * S).

Definition ret {S A} (a : A) : M S A := fun s => Returns (a, s).

Definition bind {S A B} (m : M S A) (k : A -> M S B) : M S B :=
  fun s =>
    match m s with
    | Returns (a, s') => k a s'
    | AssertionFailed => AssertionFailed
    | Undefined => Undefined
    end.

Definition get {S} : M S S := fun s => Returns (s, s).
Definition modify {S} (f : S -> S) : M S unit := fun s => Returns (tt, f s).

Declare Scope cxx_scope.
Delimit Scope cxx_scope with cxx.
Notation "x <- m ;; k" := (bind m (fun x => k))
  (at level 100, m at next level, right associativity) : cxx_scope.
Notation "m ;;; k" := (bind m (fun _ => k))
  (at level 100, right associativity) : cxx_scope.
Open Scope cxx_scope.

(** Breaking the precondition of a library call ([SmallVector::back] on an
    empty vector, [Optional::operator*] on [None], a null dereference): the
    library's own [assert] fires in a build with assertions, the behaviour is
    undefined in a build with [NDEBUG]. *)
Definition invalid {S A} (NDEBUG : bool) : M S A :=
  fun _ => if NDEBUG then Undefined else AssertionFailed.

(** [assert(cond)]: with [NDEBUG] the condition is not evaluated at all. *)
Definition assert_ {S} (NDEBUG : bool) (cond : M S bool) : M S unit :=
  if NDEBUG then ret tt
  else (b <- cond ;; if b : bool then ret tt else (fun _ => AssertionFailed)).

(** ** Command-line rewriting *)

(** [StringRef::startswith]. *)
Definition startswith (s p : string) : bool := String.prefix p s.

(** [StringRef::consume_front]: [Some] of the rest when [s] starts with [p]. *)
Definition consume_front (s p : string) : option string :=
  if startswith s p
  then Some (String.substring (String.length p) (String.length s - String.length p) s)
  else None.

(** The predicate handed to [llvm::erase_if] in
    [makeTUCommandLineWithoutPaths]. *)
Definition unusedInExplicitCompile (Arg : string) : bool :=
  match consume_front Arg "-fmodules-" with
  | Some Arg' =>
      startswith Arg' "cache-path=" ||
      startswith Arg' "prune-interval=" ||
      startswith Arg' "prune-after=" ||
      String.eqb Arg' "validate-once-per-build-session"
  | None => startswith Arg "-fbuild-session-file="
  end.

(** [llvm::erase_if] on a vector. *)
Definition erase_if {A} (P : A -> bool) (v : list A) : list A :=
  List.filter (fun x => negb (P x)) v.

Definition makeTUCommandLineWithoutPaths (OriginalCommandLine : list string)
  : list string :=
  let Args := OriginalCommandLine in
  let Args := Args ++ ["-fno-implicit-modules"] in
  let Args := Args ++ ["-fno-implicit-module-maps"] in
  erase_if unusedInExplicitCompile Args.

(** [ArrayRef::slice(1)]: the array without its first element; on an empty
    array the call is outside the contract of [ArrayRef]. *)
Definition slice1 {A} (v : list A) : Outcome (list A) :=
  match v with
  | [] => Undefined
  | _ :: rest => Returns rest
  end.

(** The spec's wording of the arguments that are removed: the four
    implicit-module caching flags and the build-session file. *)
Definition removedBySpec (Arg : string) : bool :=
  String.prefix "-fmodules-cache-path=" Arg ||
  String.prefix "-fmodules-prune-interval=" Arg ||
  String.prefix "-fmodules-prune-after=" Arg ||
  String.eqb Arg "-fmodules-validate-once-per-build-session" ||
  String.prefix "-fbuild-session-file=" Arg.

(** The spec's wording of the rewrite of the arguments after the program
    name. *)
Definition rewrittenBySpec (rest : list string) : list string :=
  List.filter (fun a => negb (removedBySpec a)) rest
  ++ ["-fno-implicit-modules"; "-fno-implicit-module-maps"].

(** ** The dependency aggregator: [FullDependencyConsumer] *)

Record ModuleID : Type := {
  ModuleName : string;
  MID_ContextHash : string
}.

Inductive ModuleOutputKind : Type :=
| ModuleFile
| DependencyFile
| DependencyTargets
| DiagnosticSerializationFile.

Record PrebuiltModuleDep : Type := {
  PMD_ModuleName : string;
  PCMFile : string;
  PMD_ModuleMapFile : string
}.

Record ModuleDeps : Type := {
  ID : ModuleID;
  ImportedByMainFile : bool;
  ClangModuleMapFile : string;
  MD_FileDeps : list string
}.

(** [llvm::MapVector<std::string, ModuleDeps>]: the entries in the order
    their keys were first inserted. *)
Definition MapVector (V : Type) : Type := list (string * V).

(** [MapVector::operator[]] followed by an assignment: an existing key keeps
    its position and gets the new value, a new key goes to the end. *)
Fixpoint mapvector_assign {V} (k : string) (v : V) (m : MapVector V)
  : MapVector V :=
  match m with
  | [] => [(k, v)]
  | (k', v') :: m' =>
      if String.eqb k' k then (k', v) :: m'
      else (k', v') :: mapvector_assign k v m'
  end.

Record FullDependencyConsumer : Type := {
  Dependencies : list string;
  PrebuiltModuleDeps : list PrebuiltModuleDep;
  ClangModuleDeps : MapVector ModuleDeps;
  ContextHash : string;
  AlreadySeen : gset string;
  LookupModuleOutput : ModuleID -> ModuleOutputKind -> string
}.

Record FullDependencies : Type := {
  FD_ContextHash : string;
  FD_CommandLine : list string;
  FD_FileDeps : list string;
  FD_ClangModuleDeps : list ModuleID;
  FD_PrebuiltModuleDeps : list PrebuiltModuleDep;
  FD_CASFileSystemRootID : option string
}.

Record FullDependenciesResult : Type := {
  FullDeps : FullDependencies;
  DiscoveredModules : list ModuleDeps
}.

(** The construction [FullDependencyConsumer Consumer(AlreadySeen,
    LookupModuleOutput)] of [DependencyScanningTool::getFullDependencies]. *)
Definition newFullDependencyConsumer (Seen : gset string)
    (Lookup : ModuleID -> ModuleOutputKind -> string) : FullDependencyConsumer :=
  {| Dependencies := [];
     PrebuiltModuleDeps := [];
     ClangModuleDeps := [];
     ContextHash := EmptyString;
     AlreadySeen := Seen;
     LookupModuleOutput := Lookup |}.

(** The events a dependency consumer receives from the scanning worker. *)
Inductive DependencyEvent (Opts : Type) : Type :=
| DependencyOutputOptsEvent (DO : Opts)
| FileDependencyEvent (File : string)
| PrebuiltModuleDependencyEvent (PMD : PrebuiltModuleDep)
| ModuleDependencyEvent (MD : ModuleDeps)
| ContextHashEvent (Hash : string).
Arguments DependencyOutputOptsEvent {Opts} DO.
Arguments FileDependencyEvent {Opts} File.
Arguments PrebuiltModuleDependencyEvent {Opts} PMD.
Arguments ModuleDependencyEvent {Opts} MD.
Arguments ContextHashEvent {Opts} Hash.

Section FullDependencyConsumer.

(** The string a module identity is stored under. *)
Variable identityKey : ModuleID -> string.

(** Modelled from the spec: the handlers of [FullDependencyConsumer] are
    declared in [DependencyScanningTool.h], which is not part of the
    sources at hand. "addFileDependency(path): appends to the flat
    dependency list"; "addModuleDependency(record): stores keyed by module
    identity"; prebuilt modules and the context hash are recorded as they
    arrive; the output options are of no use to this consumer. *)
Definition FDC_handle {Opts} (C : FullDependencyConsumer)
    (ev : DependencyEvent Opts) : FullDependencyConsumer :=
  match ev with
  | DependencyOutputOptsEvent _ => C
  | FileDependencyEvent File =>
      {| Dependencies := Dependencies C ++ [File];
         PrebuiltModuleDeps := PrebuiltModuleDeps C;
         ClangModuleDeps := ClangModuleDeps C;
         ContextHash := ContextHash C;
         AlreadySeen := AlreadySeen C;
         LookupModuleOutput := LookupModuleOutput C |}
  | PrebuiltModuleDependencyEvent PMD =>
      {| Dependencies := Dependencies C;
         PrebuiltModuleDeps := PrebuiltModuleDeps C ++ [PMD];
         ClangModuleDeps := ClangModuleDeps C;
         ContextHash := ContextHash C;
         AlreadySeen := AlreadySeen C;
         LookupModuleOutput := LookupModuleOutput C |}
  | ModuleDependencyEvent MD =>
      {| Dependencies := Dependencies C;
         PrebuiltModuleDeps := PrebuiltModuleDeps C;
         ClangModuleDeps :=
           mapvector_assign (identityKey (ID MD)) MD (ClangModuleDeps C);
         ContextHash := ContextHash C;
         AlreadySeen := AlreadySeen C;
         LookupModuleOutput := LookupModuleOutput C |}
  | ContextHashEvent Hash =>
      {| Dependencies := Dependencies C;
         PrebuiltModuleDeps := PrebuiltModuleDeps C;
         ClangModuleDeps := ClangModuleDeps C;
         ContextHash := Hash;
         AlreadySeen := AlreadySeen C;
         LookupModuleOutput := LookupModuleOutput C |}
  end.

Definition FDC_run {Opts} (evs : list (DependencyEvent Opts))
    (C : FullDependencyConsumer) : FullDependencyConsumer :=
  fold_left FDC_handle evs C.

(** Every record is stored under the key of its own identity. *)
Definition keyedByIdentity (deps : MapVector ModuleDeps) : Prop :=
  Forall (fun p => p.1 = identityKey (ID p.2)) deps.

(** The module records a run of events leaves in [ClangModuleDeps],
    starting from the records [deps]. *)
Definition recordsOf {Opts} (evs : list (DependencyEvent Opts))
    (deps : MapVector ModuleDeps) : MapVector ModuleDeps :=
  fold_left (fun deps ev =>
               match ev with
               | ModuleDependencyEvent MD =>
                   mapvector_assign (identityKey (ID MD)) MD deps
               | _ => deps
               end) evs deps.

End FullDependencyConsumer.

(** The flag that names a compiled module file. *)
Definition moduleFileFlag (Path : string) : string := "-fmodule-file=" +:+ Path.

(** The first loop over [ClangModuleDeps] of
    [FullDependencyConsumer::getFullDependencies]: the identities of the
    modules the main file imports, and their [-fmodule-file=] flags. *)
Fixpoint directImports (Lookup : ModuleID -> ModuleOutputKind -> string)
    (deps : MapVector ModuleDeps) (Mods : list ModuleID) (Cmd : list string)
  : list ModuleID * list string :=
  match deps with
  | [] => (Mods, Cmd)
  | (_, MD) :: deps' =>
      if ImportedByMainFile MD
      then directImports Lookup deps' (Mods ++ [ID MD])
             (Cmd ++ ["-fmodule-file=" +:+ Lookup (ID MD) ModuleFile])
      else directImports Lookup deps' Mods Cmd
  end.

(** The second loop: the records whose key is not in [AlreadySeen]. *)
Fixpoint discoveredModules (Seen : gset string) (deps : MapVector ModuleDeps)
    (Out : list ModuleDeps) : list ModuleDeps :=
  match deps with
  | [] => Out
  | (Key, MD) :: deps' =>
      if bool_decide (Key ∈ Seen)
      then discoveredModules Seen deps' Out
      else discoveredModules Seen deps' (Out ++ [MD])
  end.

(** [FullDependencyConsumer::getFullDependencies]. *)
Definition getFullDependencies (C : FullDependencyConsumer)
    (OriginalCommandLine : list string) (CASFileSystemRootID : option string)
  : Outcome FullDependenciesResult :=
  match slice1 OriginalCommandLine with
  | Returns Sliced =>
      let Cmd := makeTUCommandLineWithoutPaths Sliced in
      let Cmd := fold_left
                   (fun Cmd PMD => Cmd ++ ["-fmodule-file=" +:+ PCMFile PMD])
                   (PrebuiltModuleDeps C) Cmd in
      let '(Mods, Cmd) :=
        directImports (LookupModuleOutput C) (ClangModuleDeps C) [] Cmd in
      let FD := {| FD_ContextHash := ContextHash C;
                   FD_CommandLine := Cmd;
                   FD_FileDeps := Dependencies C;
                   FD_ClangModuleDeps := Mods;
                   FD_PrebuiltModuleDeps := PrebuiltModuleDeps C;
                   FD_CASFileSystemRootID := CASFileSystemRootID |} in
      Returns {| FullDeps := FD;
                 DiscoveredModules :=
                   discoveredModules (AlreadySeen C) (ClangModuleDeps C) [] |}
  | AssertionFailed => AssertionFailed
  | Undefined => Undefined
  end.

(** ** The make-format printer: [MakeDependencyPrinterConsumer] *)

Section MakeDependencyPrinter.

(** [DependencyOutputOptions] and [DependencyFileGenerator] are declared in
    [clang/Frontend], outside this translation unit: the options are an
    opaque value, the generator an opaque state with its constructor,
    [addDependency] and the text [outputDependencyFile] writes. *)
Variable DependencyOutputOptions : Type.
Variable DependencyFileGenerator : Type.
Variable newDependencyFileGenerator :
  DependencyOutputOptions -> DependencyFileGenerator.
Variable addDependency : string -> DependencyFileGenerator -> DependencyFileGenerator.
Variable outputDependencyFile : DependencyFileGenerator -> string.

Record MakeDependencyPrinterConsumer : Type := {
  MDP_Opts : option DependencyOutputOptions;
  MDP_Dependencies : list string
}.

Definition newMakeDependencyPrinterConsumer : MakeDependencyPrinterConsumer :=
  {| MDP_Opts := None; MDP_Dependencies := [] |}.

Definition MDP_handle (C : MakeDependencyPrinterConsumer)
    (ev : DependencyEvent DependencyOutputOptions)
  : MakeDependencyPrinterConsumer :=
  match ev with
  | DependencyOutputOptsEvent DO =>
      {| MDP_Opts := Some DO; MDP_Dependencies := MDP_Dependencies C |}
  | FileDependencyEvent File =>
      {| MDP_Opts := MDP_Opts C;
         MDP_Dependencies := MDP_Dependencies C ++ [File] |}
  | PrebuiltModuleDependencyEvent _ => C
  | ModuleDependencyEvent _ => C
  | ContextHashEvent _ => C
  end.

Definition MDP_run (evs : list (DependencyEvent DependencyOutputOptions))
    (C : MakeDependencyPrinterConsumer) : MakeDependencyPrinterConsumer :=
  fold_left MDP_handle evs C.

(** The constructor of the local class [DependencyPrinter]. *)
Definition newDependencyPrinter (DO : DependencyOutputOptions)
    (Deps : list string) : DependencyFileGenerator :=
  fold_left (fun G Dep => addDependency Dep G) Deps
    (newDependencyFileGenerator DO).

(** [MakeDependencyPrinterConsumer::printDependencies]: the text is
    appended to [S]. *)
Definition printDependencies (NDEBUG : bool)
    (C : MakeDependencyPrinterConsumer) (S : string) : Outcome string :=
  match MDP_Opts C with
  | None => if NDEBUG then Undefined else AssertionFailed
  | Some DO =>
      let Generator := newDependencyPrinter DO (MDP_Dependencies C) in
      Returns (S +:+ outputDependencyFile Generator)
  end.

(** [DependencyScanningTool::getDependencyFile], given what
    [Worker.computeDependencies] does: the events it sends to the consumer
    and the error it returns, if any. *)
Definition getDependencyFile (NDEBUG : bool)
    (evs : list (DependencyEvent DependencyOutputOptions))
    (Result : option Error) : Outcome (Expected string) :=
  let Consumer := MDP_run evs newMakeDependencyPrinterConsumer in
  match Result with
  | Some E => Returns (Failure E)
  | None =>
      match printDependencies NDEBUG Consumer EmptyString with
      | Returns Output => Returns (Success Output)
      | AssertionFailed => AssertionFailed
      | Undefined => Undefined
      end
  end.

(** The events the make-format output is meant to depend on. *)
Definition outputOptsEvents
    (evs : list (DependencyEvent DependencyOutputOptions))
  : list DependencyOutputOptions :=
  flat_map (fun ev => match ev with
                      | DependencyOutputOptsEvent DO => [DO]
                      | _ => []
                      end) evs.

Definition fileDependencyEvents
    (evs : list (DependencyEvent DependencyOutputOptions)) : list string :=
  flat_map (fun ev => match ev with
                      | FileDependencyEvent File => [File]
                      | _ => []
                      end) evs.

End MakeDependencyPrinter.

Arguments MDP_Opts {DependencyOutputOptions} _.
Arguments MDP_Dependencies {DependencyOutputOptions} _.
Arguments MDP_handle {DependencyOutputOptions} C ev.
Arguments MDP_run {DependencyOutputOptions} evs C.
Arguments newMakeDependencyPrinterConsumer {DependencyOutputOptions}.
Arguments newDependencyPrinter {DependencyOutputOptions DependencyFileGenerator}.
Arguments printDependencies {DependencyOutputOptions DependencyFileGenerator}.
Arguments getDependencyFile {DependencyOutputOptions DependencyFileGenerator}.
Arguments outputOptsEvents {DependencyOutputOptions} evs.
Arguments fileDependencyEvents {DependencyOutputOptions} evs.

(** ** The front end, as the include-tree builder sees it *)

(** [SrcMgr::CharacteristicKind]. *)
Inductive CharacteristicKind : Type :=
| C_User
| C_System
| C_ExternCSystem
| C_User_ModuleMap
| C_System_ModuleMap.

(** [FileID] and [SourceLocation] are opaque integer handles. *)
Definition FileID : Type := Z.
Definition SourceLocation : Type := Z.

(** A [FileEntry] of the file manager; [const FileEntry *] is identified with
    the entry it points to (the file manager hands out one entry, with a UID
    of its own, per file). *)
Record FileEntry : Type := mkFileEntry {
  getUID : nat;
  getName : string;
  getSize : Z;
  tryGetRealPathName : string
}.

#[global] Instance FileEntry_eq_dec : EqDecision FileEntry.
Proof. solve_decision. Defined.

#[global] Instance FileEntry_countable : Countable FileEntry.
Proof.
  refine (inj_countable'
            (fun FE => (getUID FE, getName FE, getSize FE, tryGetRealPathName FE))
            (fun t => match t with (u, n, s, r) => mkFileEntry u n s r end) _).
  intros []; reflexivity.
Defined.

(** [SrcMgr::ContentCache]: the entry the content comes from (null for a
    buffer that is not a file) and the buffer, if it is loaded. *)
Record ContentCache : Type := {
  OrigEntry : option FileEntry;
  getBufferIfLoaded : option string
}.

(** [SrcMgr::FileInfo]. *)
Record FileInfo : Type := {
  getFileCharacteristic : CharacteristicKind;
  getContentCache : ContentCache;
  FI_getName : string
}.

(** ** Bit vectors and sorting *)

(** [BitVector::resize(N)] (new bits are clear). *)
Definition bitvector_resize (N : nat) (v : list bool) : list bool :=
  take N (v ++ replicate (N - length v) false).

(** [BitVector::set(I)]. *)
Definition bitvector_set (I : nat) (v : list bool) : list bool :=
  <[I := true]> v.

(** [BitVector::operator[]] on an index in range. *)
Definition bitvector_test (I : nat) (v : list bool) : bool :=
  default false (v !! I).

(** [llvm::sort] with a comparator. The order it leaves equivalent elements
    in is unspecified; this is an insertion sort, and the results below that
    depend on it assume the elements are pairwise inequivalent. *)
Fixpoint sort_insert {A} (lt : A -> A -> bool) (x : A) (v : list A) : list A :=
  match v with
  | [] => [x]
  | y :: v' => if lt y x then y :: sort_insert lt x v' else x :: v
  end.

Definition llvm_sort {A} (lt : A -> A -> bool) (v : list A) : list A :=
  foldr (sort_insert lt) [] v.

(** The comparator of [IncludeTreePPConsumer::finalize]. *)
Definition uid_less (LHS RHS : FileEntry) : bool :=
  Nat.ltb (getUID LHS) (getUID RHS).

(** The order of the file UIDs. *)
Definition uid_lt (LHS RHS : FileEntry) : Prop :=
  (getUID LHS < getUID RHS)%nat.

Section IncludeTree.

(** [cas::ObjectRef]: an opaque reference into the object store. *)
Context {ObjectRef : Type} `{EqDecision ObjectRef}.

(** The object store [DB] together with the node schemas of
    [clang/CAS/IncludeTree.h], which is not part of the sources at hand:
    every [create] stores a node made of its arguments and returns its
    reference, or fails. [FileSizeTy_cast] is the
    [static_cast<cas::IncludeFileList::FileSizeTy>]. *)
Record ObjectStore : Type := {
  storeFromString : list ObjectRef -> string -> Expected ObjectRef;
  IncludeFile_create : string -> ObjectRef -> Expected ObjectRef;
  IncludeTree_create :
    CharacteristicKind -> ObjectRef -> list (ObjectRef * N) -> list bool ->
    Expected ObjectRef;
  IncludeFileList_create : list (ObjectRef * Z) -> Expected ObjectRef;
  IncludeTreeRoot_create :
    ObjectRef -> ObjectRef -> option ObjectRef -> Expected ObjectRef;
  FileSizeTy_cast : Z -> Z
}.

(** [FileManager], on a file system that does not change during the scan. *)
Record FileManager : Type := {
  getFile : string -> ErrorOr FileEntry;
  getObjectRefForFileContent : string -> ErrorOr (option ObjectRef);
  makeAbsolutePath : string -> string
}.

Record SourceManager : Type := {
  getSLocEntry_getFile : FileID -> FileInfo;
  getFileManager : FileManager;
  getDecomposedExpansionLoc : SourceLocation -> FileID * N
}.

Record Preprocessor : Type := {
  getSourceManager : SourceManager;
  getPredefinesFileID : FileID;
  getIncludedFiles : list FileEntry
}.

Record CompilerInstance : Type := {
  CI_getFileManager : FileManager;
  NoSanitizeFiles : list string;
  Sysroot : string;
  ImplicitPCHInclude : string;
  CI_getPreprocessor : Preprocessor
}.

(** [IncludeTreePPConsumer::FilePPState]. *)
Record FilePPState : Type := mkFilePPState {
  FileCharacteristic : CharacteristicKind;
  File : ObjectRef;
  Includes : list (ObjectRef * N);
  HasIncludeChecks : list bool
}.

(** The member variables of [IncludeTreePPConsumer] ([DB] is a reference
    to the store, a variable of this section). [IncludeStack] is kept with
    its back first: [push_back] conses, [back()] is the head,
    [pop_back_val()] removes the head. The other vectors are in index
    order. *)
Record IncludeTreePPConsumer : Type := mkConsumer {
  PCHRef : option ObjectRef;
  SeenIncludeFiles : list bool;
  IncludedFiles : list (ObjectRef * Z);
  PredefinesBufferRef : option ObjectRef;
  IncludeStack : list FilePPState;
  ObjectForFile : gmap FileEntry (option ObjectRef);
  ErrorToReport : option Error
}.

Definition newIncludeTreePPConsumer : IncludeTreePPConsumer :=
  {| PCHRef := None;
     SeenIncludeFiles := [];
     IncludedFiles := [];
     PredefinesBufferRef := None;
     IncludeStack := [];
     ObjectForFile := ∅;
     ErrorToReport := None |}.

Definition set_PCHRef (v : option ObjectRef) (C : IncludeTreePPConsumer) :=
  mkConsumer v (SeenIncludeFiles C) (IncludedFiles C) (PredefinesBufferRef C)
    (IncludeStack C) (ObjectForFile C) (ErrorToReport C).
Definition set_SeenIncludeFiles (v : list bool) (C : IncludeTreePPConsumer) :=
  mkConsumer (PCHRef C) v (IncludedFiles C) (PredefinesBufferRef C)
    (IncludeStack C) (ObjectForFile C) (ErrorToReport C).
Definition set_IncludedFiles (v : list (ObjectRef * Z))
    (C : IncludeTreePPConsumer) :=
  mkConsumer (PCHRef C) (SeenIncludeFiles C) v (PredefinesBufferRef C)
    (IncludeStack C) (ObjectForFile C) (ErrorToReport C).
Definition set_PredefinesBufferRef (v : option ObjectRef)
    (C : IncludeTreePPConsumer) :=
  mkConsumer (PCHRef C) (SeenIncludeFiles C) (IncludedFiles C) v
    (IncludeStack C) (ObjectForFile C) (ErrorToReport C).
Definition set_IncludeStack (v : list FilePPState)
    (C : IncludeTreePPConsumer) :=
  mkConsumer (PCHRef C) (SeenIncludeFiles C) (IncludedFiles C)
    (PredefinesBufferRef C) v (ObjectForFile C) (ErrorToReport C).
Definition set_ObjectForFile (v : gmap FileEntry (option ObjectRef))
    (C : IncludeTreePPConsumer) :=
  mkConsumer (PCHRef C) (SeenIncludeFiles C) (IncludedFiles C)
    (PredefinesBufferRef C) (IncludeStack C) v (ErrorToReport C).
Definition set_ErrorToReport (v : option Error) (C : IncludeTreePPConsumer) :=
  mkConsumer (PCHRef C) (SeenIncludeFiles C) (IncludedFiles C)
    (PredefinesBufferRef C) (IncludeStack C) (ObjectForFile C) v.

Variable DB : ObjectStore.
(** [llvm::sys::path::remove_dots(Path, /*remove_dot_dot=*/true)] and
    [llvm::sys::path::append]. *)
Variable remove_dots : string -> string.
Variable path_append : string -> string -> string.
Variable NDEBUG : bool.

Definition hasErrorOccurred (C : IncludeTreePPConsumer) : bool :=
  bool_decide (is_Some (ErrorToReport C)).

(** [ErrorToReport = E] for a failure [E]. The member is an
    [Optional<llvm::Error>]: while it is empty, the error is constructed in
    place. Once it holds an error, the assignment is the move assignment of
    [llvm::Error], which must not overwrite an error that nobody has
    handled: a build with assertions, where the checks of [llvm::Error]
    ([LLVM_ENABLE_ABI_BREAKING_CHECKS]) are on by default, aborts; a build
    with [NDEBUG] drops the old error and holds the new one. *)
Definition ErrorToReport_assign (e : Error) : M IncludeTreePPConsumer unit :=
  C <- get ;;
  match ErrorToReport C with
  | None => modify (set_ErrorToReport (Some e))
  | Some _ =>
      if NDEBUG then modify (set_ErrorToReport (Some e))
      else (fun _ => AssertionFailed)
  end.

(** [IncludeTreePPConsumer::check]. *)
Definition check {T} (E : Expected T) : M IncludeTreePPConsumer (option T) :=
  match E with
  | Failure e => ErrorToReport_assign e ;;; ret None
  | Success v => ret (Some v)
  end.

(** [Optional::operator*], [ErrorOr]/pointer dereference. *)
Definition deref {T} (o : option T) : M IncludeTreePPConsumer T :=
  match o with
  | Some v => ret v
  | None => invalid NDEBUG
  end.

(** [IncludeStack.back()]. *)
Definition IncludeStack_back : M IncludeTreePPConsumer FilePPState :=
  C <- get ;; deref (head (IncludeStack C)).

(** [IncludeStack.pop_back_val()]. *)
Definition IncludeStack_pop_back_val : M IncludeTreePPConsumer FilePPState :=
  C <- get ;;
  match IncludeStack C with
  | Top :: Rest => modify (set_IncludeStack Rest) ;;; ret Top
  | [] => invalid NDEBUG
  end.

(** An update through the reference [IncludeStack.back()]. *)
Definition IncludeStack_update_back (f : FilePPState -> FilePPState)
  : M IncludeTreePPConsumer unit :=
  C <- get ;;
  match IncludeStack C with
  | Top :: Rest => modify (set_IncludeStack (f Top :: Rest))
  | [] => invalid NDEBUG
  end.

(** The lambda [addFile] of [addToFileList]. *)
Definition addToFileList_addFile (FE : FileEntry) (CASContents : ObjectRef)
    (Filename : string) : M IncludeTreePPConsumer (Expected ObjectRef) :=
  assert_ NDEBUG (ret (negb (String.eqb Filename EmptyString))) ;;;
  match IncludeFile_create DB Filename CASContents with
  | Failure e => ret (Failure e)
  | Success FileNode =>
      modify (fun C => set_IncludedFiles
                (IncludedFiles C ++ [(FileNode, FileSizeTy_cast DB (getSize FE))])
                C) ;;;
      ret (Success FileNode)
  end.

(** [IncludeTreePPConsumer::addToFileList]. *)
Definition addToFileList (FM : FileManager) (FE : FileEntry)
  : M IncludeTreePPConsumer (Expected ObjectRef) :=
  let Filename := getName FE in
  match getObjectRefForFileContent FM Filename with
  | ErrorCodeOf ec => ret (Failure (errorCodeToError ec))
  | Value CASContents =>
      Contents <- deref CASContents ;;
      let OtherPath := tryGetRealPathName FE in
      Other <-
        (if negb (String.eqb OtherPath EmptyString) then
           let AbsPath := remove_dots (makeAbsolutePath FM Filename) in
           if negb (String.eqb OtherPath AbsPath) then
             FileNode <- addToFileList_addFile FE Contents OtherPath ;;
             match FileNode with
             | Failure e => ret (Some e)
             | Success _ => ret None
             end
           else ret None
         else ret None) ;;
      match Other with
      | Some e => ret (Failure e)
      | None => addToFileList_addFile FE Contents Filename
      end
  end.

(** The paths [addToFileList] lists a file under when nothing fails: its
    real path first, when it has one that differs from its name made
    absolute and free of dots, then its name. *)
Definition manifestPaths (FM : FileManager) (FE : FileEntry) : list string :=
  let Filename := getName FE in
  let OtherPath := tryGetRealPathName FE in
  if negb (String.eqb OtherPath EmptyString) &&
     negb (String.eqb OtherPath (remove_dots (makeAbsolutePath FM Filename)))
  then [OtherPath; Filename]
  else [Filename].

(** [Entry] is a manifest entry of the file [FE]: the file node of one of
    its paths over the content the file manager has for it, with its
    size. *)
Definition manifestEntryOf (FM : FileManager) (FE : FileEntry)
    (Entry : ObjectRef * Z) : Prop :=
  exists Contents Path,
    getObjectRefForFileContent FM (getName FE) = Value (Some Contents) /\
    In Path (manifestPaths FM FE) /\
    IncludeFile_create DB Path Contents = Success Entry.1 /\
    Entry.2 = FileSizeTy_cast DB (getSize FE).

(** [Entry] is a manifest entry of some file of the file manager. *)
Definition fromDisk (FM : FileManager) (Entry : ObjectRef * Z) : Prop :=
  exists FE, manifestEntryOf FM FE Entry.

(** [IncludeTreePPConsumer::getObjectForBuffer]. *)
Definition getObjectForBuffer (FI : FileInfo)
  : M IncludeTreePPConsumer (Expected ObjectRef) :=
  Buffer <- deref (getBufferIfLoaded (getContentCache FI)) ;;
  match storeFromString DB [] Buffer with
  | Failure e => ret (Failure e)
  | Success Ref =>
      match IncludeFile_create DB (FI_getName FI) Ref with
      | Failure e => ret (Failure e)
      | Success FileNode => ret (Success FileNode)
      end
  end.

(** [IncludeTreePPConsumer::getObjectForFileNonCached]. *)
Definition getObjectForFileNonCached (FM : FileManager) (FI : FileInfo)
  : M IncludeTreePPConsumer (Expected ObjectRef) :=
  FE <- deref (OrigEntry (getContentCache FI)) ;;
  modify (fun C =>
    let Seen := SeenIncludeFiles C in
    let Seen := if bool_decide (length Seen <= getUID FE)%nat
                then bitvector_resize (getUID FE + 1) Seen else Seen in
    set_SeenIncludeFiles (bitvector_set (getUID FE) Seen) C) ;;;
  addToFileList FM FE.

(** [ObjectForFile[Key]]: a missing key is inserted with an empty
    [Optional]; the value under the key is returned. *)
Definition ObjectForFile_subscript (Key : FileEntry)
  : M IncludeTreePPConsumer (option ObjectRef) :=
  C <- get ;;
  match ObjectForFile C !! Key with
  | Some FileRef => ret FileRef
  | None => modify (set_ObjectForFile (<[Key := None]> (ObjectForFile C))) ;;;
            ret None
  end.

(** [IncludeTreePPConsumer::getObjectForFile]. *)
Definition getObjectForFile (PP : Preprocessor) (FID : FileID)
  : M IncludeTreePPConsumer (Expected ObjectRef) :=
  let SM := getSourceManager PP in
  let FI := getSLocEntry_getFile SM FID in
  if bool_decide (getPredefinesFileID PP = FID) then
    C <- get ;;
    match PredefinesBufferRef C with
    | None =>
        Ref <- getObjectForBuffer FI ;;
        match Ref with
        | Failure e => ret (Failure e)
        | Success R =>
            modify (set_PredefinesBufferRef (Some R)) ;;; ret (Success R)
        end
    | Some R => ret (Success R)
    end
  else
    Key <- deref (OrigEntry (getContentCache FI)) ;;
    FileRef <- ObjectForFile_subscript Key ;;
    match FileRef with
    | Some R => ret (Success R)
    | None =>
        Ref <- getObjectForFileNonCached (getFileManager SM) FI ;;
        match Ref with
        | Failure e => ret (Failure e)
        | Success R =>
            modify (fun C => set_ObjectForFile
                               (<[Key := Some R]> (ObjectForFile C)) C) ;;;
            ret (Success R)
        end
    end.

(** [IncludeTreePPConsumer::getCASTreeForFileIncludes]. *)
Definition getCASTreeForFileIncludes (PPState : FilePPState)
  : Expected ObjectRef :=
  IncludeTree_create DB (FileCharacteristic PPState) (File PPState)
    (Includes PPState) (HasIncludeChecks PPState).

(** [IncludeTreePPConsumer::enteredInclude]. *)
Definition enteredInclude (PP : Preprocessor) (FID : FileID)
  : M IncludeTreePPConsumer unit :=
  C <- get ;;
  if hasErrorOccurred C then ret tt
  else
    E <- getObjectForFile PP FID ;;
    FileRef <- check E ;;
    match FileRef with
    | None => ret tt
    | Some R =>
        let FI := getSLocEntry_getFile (getSourceManager PP) FID in
        modify (fun C => set_IncludeStack
                  (mkFilePPState (getFileCharacteristic FI) R [] []
                     :: IncludeStack C) C)
    end.

(** The condition of the two assertions of [exitedInclude]:
    [*check(getObjectForFile(PP, FID)) == IncludeStack.back().File]. *)
Definition isFileOfBack (PP : Preprocessor) (FID : FileID)
  : M IncludeTreePPConsumer bool :=
  E <- getObjectForFile PP FID ;;
  FileRef <- check E ;;
  R <- deref FileRef ;;
  Back <- IncludeStack_back ;;
  ret (bool_decide (R = File Back)).

(** [IncludeTreePPConsumer::exitedInclude]. *)
Definition exitedInclude (PP : Preprocessor) (IncludedBy Include : FileID)
    (ExitLoc : SourceLocation) : M IncludeTreePPConsumer unit :=
  C <- get ;;
  if hasErrorOccurred C then ret tt
  else
    assert_ NDEBUG (isFileOfBack PP Include) ;;;
    PPState <- IncludeStack_pop_back_val ;;
    IncludeTree <- check (getCASTreeForFileIncludes PPState) ;;
    match IncludeTree with
    | None => ret tt
    | Some Tree =>
        assert_ NDEBUG (isFileOfBack PP IncludedBy) ;;;
        let SM := getSourceManager PP in
        let LocInfo := getDecomposedExpansionLoc SM ExitLoc in
        IncludeStack_update_back (fun Back =>
          mkFilePPState (FileCharacteristic Back) (File Back)
            (Includes Back ++ [(Tree, LocInfo.2)]) (HasIncludeChecks Back))
    end.

(** [IncludeTreePPConsumer::handleHasIncludeCheck]. *)
Definition handleHasIncludeCheck (PP : Preprocessor) (Result : bool)
  : M IncludeTreePPConsumer unit :=
  C <- get ;;
  if hasErrorOccurred C then ret tt
  else
    IncludeStack_update_back (fun Back =>
      mkFilePPState (FileCharacteristic Back) (File Back) (Includes Back)
        (HasIncludeChecks Back ++ [Result])).

(** The lambda [addFile] of [finalize]; [true] when the caller goes on. *)
Definition finalize_addFile (FM : FileManager) (FilePath : string)
    (IgnoreFileError : bool) : M IncludeTreePPConsumer bool :=
  match getFile FM FilePath with
  | ErrorCodeOf ec =>
      if IgnoreFileError then ret true
      else ErrorToReport_assign (errorCodeToError ec) ;;; ret false
  | Value FE =>
      Ref <- addToFileList FM FE ;;
      match Ref with
      | Failure e => ErrorToReport_assign e ;;; ret false
      | Success _ => ret true
      end
  end.

(** The loop over [NoSanitizeFiles]; [false] when [finalize] has returned
    from inside the loop. *)
Fixpoint finalize_NoSanitizeFiles (FM : FileManager) (Files : list string)
  : M IncludeTreePPConsumer bool :=
  match Files with
  | [] => ret true
  | FilePath :: Files' =>
      Ok <- finalize_addFile FM FilePath false ;;
      if Ok : bool then finalize_NoSanitizeFiles FM Files' else ret false
  end.

(** The test that collects [NotSeenIncludes]. *)
Definition notSeenInclude (Seen : list bool) (FE : FileEntry) : bool :=
  bool_decide (length Seen <= getUID FE)%nat
  || negb (bitvector_test (getUID FE) Seen).

(** The loop over [NotSeenIncludes]; [false] when [finalize] has returned
    from inside the loop. *)
Fixpoint finalize_NotSeenIncludes (FM : FileManager) (Files : list FileEntry)
  : M IncludeTreePPConsumer bool :=
  match Files with
  | [] => ret true
  | FE :: Files' =>
      FileNode <- addToFileList FM FE ;;
      match FileNode with
      | Failure e => ErrorToReport_assign e ;;; ret false
      | Success _ => finalize_NotSeenIncludes FM Files'
      end
  end.

(** [IncludeTreePPConsumer::finalize]. *)
Definition finalize (CI : CompilerInstance) : M IncludeTreePPConsumer unit :=
  let FM := CI_getFileManager CI in
  Ok <- finalize_NoSanitizeFiles FM (NoSanitizeFiles CI) ;;
  if negb Ok then ret tt
  else
    (if negb (String.eqb (Sysroot CI) EmptyString) then
       let FilePath := path_append (Sysroot CI) "SDKSettings.json" in
       finalize_addFile FM FilePath true ;;; ret tt
     else ret tt) ;;;
    if String.eqb (ImplicitPCHInclude CI) EmptyString then ret tt
    else
      C <- get ;;
      let NotSeenIncludes :=
        List.filter (notSeenInclude (SeenIncludeFiles C))
          (getIncludedFiles (CI_getPreprocessor CI)) in
      let NotSeenIncludes := llvm_sort uid_less NotSeenIncludes in
      Ok <- finalize_NotSeenIncludes FM NotSeenIncludes ;;
      if negb Ok then ret tt
      else
        match getObjectRefForFileContent FM (ImplicitPCHInclude CI) with
        | ErrorCodeOf ec => ErrorToReport_assign (errorCodeToError ec)
        | Value CASContents =>
            Ref <- deref CASContents ;;
            modify (set_PCHRef (Some Ref))
        end.

(** [IncludeTreePPConsumer::getIncludeTree]. Moving the error out leaves
    [ErrorToReport] engaged; the consumer is not used again. *)
Definition getIncludeTree : M IncludeTreePPConsumer (Expected ObjectRef) :=
  C <- get ;;
  match ErrorToReport C with
  | Some e => ret (Failure e)
  | None =>
      assert_ NDEBUG (ret (bool_decide (length (IncludeStack C) = 1%nat))) ;;;
      PPState <- IncludeStack_pop_back_val ;;
      match getCASTreeForFileIncludes PPState with
      | Failure e => ret (Failure e)
      | Success MainIncludeTree =>
          C <- get ;;
          match IncludeFileList_create DB (IncludedFiles C) with
          | Failure e => ret (Failure e)
          | Success FileList =>
              ret (IncludeTreeRoot_create DB MainIncludeTree FileList
                     (PCHRef C))
          end
      end
  end.

(** *** Event sequences *)

(** The callbacks of [PPIncludeActionsConsumer] the preprocessor makes
    while it lexes. *)
Inductive PPEvent : Type :=
| EnteredInclude (FID : FileID)
| ExitedInclude (IncludedBy Include : FileID) (ExitLoc : SourceLocation)
| HasIncludeCheck (Result : bool).

Definition handleEvent (PP : Preprocessor) (ev : PPEvent)
  : M IncludeTreePPConsumer unit :=
  match ev with
  | EnteredInclude FID => enteredInclude PP FID
  | ExitedInclude IncludedBy Include ExitLoc =>
      exitedInclude PP IncludedBy Include ExitLoc
  | HasIncludeCheck Result => handleHasIncludeCheck PP Result
  end.

Fixpoint handleEvents (PP : Preprocessor) (evs : list PPEvent)
  : M IncludeTreePPConsumer unit :=
  match evs with
  | [] => ret tt
  | ev :: evs' => handleEvent PP ev ;;; handleEvents PP evs'
  end.

(** What a file does between being entered and being exited: it evaluates
    a [__has_include], or includes a file (whose own body runs before the
    preprocessor comes back at [ExitLoc]), and goes on. *)
Inductive Body : Type :=
| BodyEnd
| BodyHasInclude (Result : bool) (Rest : Body)
| BodyInclude (FID : FileID) (Inner : Body) (ExitLoc : SourceLocation)
    (Rest : Body).

(** The balanced event sequence of a body, lexed in file [Parent]. *)
Fixpoint eventsOf (Parent : FileID) (B : Body) : list PPEvent :=
  match B with
  | BodyEnd => []
  | BodyHasInclude Result Rest => HasIncludeCheck Result :: eventsOf Parent Rest
  | BodyInclude FID Inner ExitLoc Rest =>
      EnteredInclude FID :: eventsOf FID Inner
      ++ ExitedInclude Parent FID ExitLoc :: eventsOf Parent Rest
  end.

Fixpoint filesOf (B : Body) : list FileID :=
  match B with
  | BodyEnd => []
  | BodyHasInclude _ Rest => filesOf Rest
  | BodyInclude FID Inner _ Rest => FID :: filesOf Inner ++ filesOf Rest
  end.

(** The file node the consumer holds for [FID], if it has resolved it: the
    memoized predefines node, or the entry of [ObjectForFile]. *)
Definition resolvedFile (PP : Preprocessor) (C : IncludeTreePPConsumer)
    (FID : FileID) : option ObjectRef :=
  if bool_decide (getPredefinesFileID PP = FID) then PredefinesBufferRef C
  else
    match OrigEntry (getContentCache
                       (getSLocEntry_getFile (getSourceManager PP) FID)) with
    | Some FE => mjoin (ObjectForFile C !! FE)
    | None => None
    end.

(** The memoized references of [C] are still those of [C']. *)
Definition memoExtends (C C' : IncludeTreePPConsumer) : Prop :=
  (forall R, PredefinesBufferRef C = Some R -> PredefinesBufferRef C' = Some R)
  /\ (forall FE R, ObjectForFile C !! FE = Some (Some R) ->
                   ObjectForFile C' !! FE = Some (Some R)).

(** From [C] to [C'] the memo has only gained references, the manifest
    has only gained entries, all of them of files on disk, and the PCH
    reference is the same: what the preprocessor events can do to the
    parts of the consumer outside the include stack and the recorded
    error. *)
Definition growsTo (FM : FileManager) (C C' : IncludeTreePPConsumer) : Prop :=
  memoExtends C C' /\
  (exists Extra, IncludedFiles C' = IncludedFiles C ++ Extra /\
                 Forall (fromDisk FM) Extra) /\
  PCHRef C' = PCHRef C.

(** The children and the probe bits a body adds to the frame of the file
    it is lexed in, given the file node of every file: each included file
    becomes the include-tree node of its own body, paired with the offset
    of the inclusion. [None] when a file has no node or the store refuses
    a node. *)
Fixpoint contributionOf (PP : Preprocessor)
    (files : FileID -> option ObjectRef) (B : Body)
  : option (list (ObjectRef * N) * list bool) :=
  match B with
  | BodyEnd => Some ([], [])
  | BodyHasInclude Result Rest =>
      match contributionOf PP files Rest with
      | Some (Incs, Bits) => Some (Incs, Result :: Bits)
      | None => None
      end
  | BodyInclude FID Inner ExitLoc Rest =>
      match files FID, contributionOf PP files Inner,
            contributionOf PP files Rest with
      | Some FileRef, Some (InnerIncs, InnerBits), Some (Incs, Bits) =>
          let SM := getSourceManager PP in
          match IncludeTree_create DB
                  (getFileCharacteristic (getSLocEntry_getFile SM FID))
                  FileRef InnerIncs InnerBits with
          | Success Node =>
              Some ((Node, (getDecomposedExpansionLoc SM ExitLoc).2) :: Incs,
                    Bits)
          | Failure _ => None
          end
      | _, _, _ => None
      end
  end.

(** [Chunk] is what a successful [addToFileList] of [FE] appends to the
    manifest: the file nodes of its [manifestPaths], in order, over the
    content reference of the file, each with the size of the file. *)
Definition manifestChunkOf (FM : FileManager) (FE : FileEntry)
    (Chunk : list (ObjectRef * Z)) : Prop :=
  exists Contents Nodes,
    getObjectRefForFileContent FM (getName FE) = Value (Some Contents) /\
    Forall2 (fun Path Node =>
               IncludeFile_create DB Path Contents = Success Node)
      (manifestPaths FM FE) Nodes /\
    Chunk = map (fun Node => (Node, FileSizeTy_cast DB (getSize FE))) Nodes.

(** The compilation [CI], had the preprocessor enumerated its included
    files as [Files]. *)
Definition withIncludedFiles (Files : list FileEntry) (CI : CompilerInstance)
  : CompilerInstance :=
  {| CI_getFileManager := CI_getFileManager CI;
     NoSanitizeFiles := NoSanitizeFiles CI;
     Sysroot := Sysroot CI;
     ImplicitPCHInclude := ImplicitPCHInclude CI;
     CI_getPreprocessor :=
       {| getSourceManager := getSourceManager (CI_getPreprocessor CI);
          getPredefinesFileID := getPredefinesFileID (CI_getPreprocessor CI);
          getIncludedFiles := Files |} |}.

(** One scan, as [getIncludeTreeFromCompilerInvocation] runs it: a new
    consumer handles the events of the preprocessor, then [finalize], and
    is asked for the include tree. *)
Definition scanIncludeTree (CI : CompilerInstance) (evs : list PPEvent)
  : Outcome (Expected ObjectRef * IncludeTreePPConsumer) :=
  (handleEvents (CI_getPreprocessor CI) evs ;;;
   finalize CI ;;;
   getIncludeTree) newIncludeTreePPConsumer.

(** What the front end must provide for [FID] for [getObjectForFile] to
    stay within the contracts of the calls it makes: the predefines buffer
    is loaded; any other file has a file entry with a name, and the file
    manager that yields its content yields a reference. *)
Definition fileWellFormed (PP : Preprocessor) (FID : FileID) : bool :=
  let SM := getSourceManager PP in
  let FI := getSLocEntry_getFile SM FID in
  if bool_decide (getPredefinesFileID PP = FID)
  then bool_decide (is_Some (getBufferIfLoaded (getContentCache FI)))
  else
    match OrigEntry (getContentCache FI) with
    | None => false
    | Some FE =>
        negb (String.eqb (getName FE) EmptyString) &&
        match getObjectRefForFileContent (getFileManager SM) (getName FE) with
        | Value None => false
        | _ => true
        end
    end.

End IncludeTree.

Arguments ObjectStore ObjectRef : clear implicits.
Arguments FileManager ObjectRef : clear implicits.
Arguments SourceManager ObjectRef : clear implicits.
Arguments Preprocessor ObjectRef : clear implicits.
Arguments CompilerInstance ObjectRef : clear implicits.
Arguments FilePPState ObjectRef : clear implicits.
Arguments IncludeTreePPConsumer ObjectRef : clear implicits.

(** ** More of the scanning tool *)

(** The file entry under which the seen bits know the file [FID]; the
    predefines buffer is not a file and has none. *)
Definition fileEntryOf {ObjectRef} (PP : Preprocessor ObjectRef)
    (FID : FileID) : option FileEntry :=
  if bool_decide (getPredefinesFileID PP = FID) then None
  else OrigEntry (getContentCache
                    (getSLocEntry_getFile (getSourceManager PP) FID)).

(** The files of the enter events of [evs], in order. *)
Definition enteredFiles (evs : list PPEvent) : list FileID :=
  omap (fun ev => match ev with
                  | EnteredInclude FID => Some FID
                  | _ => None
                  end) evs.

(** In the words of the specification, the files a scan has "directly
    entered": the file entries of the files [FIDs] of its enter events. *)
Definition enteredEntries {ObjectRef} (PP : Preprocessor ObjectRef)
    (FIDs : list FileID) : list FileEntry :=
  omap (fileEntryOf PP) FIDs.

(** In the words of the specification, a file that was "never directly
    entered": it is none of the files [Entered], a file being identified
    by its UID. This does not look at the seen bits. *)
Definition neverEntered (Entered : list FileEntry) (FE : FileEntry) : bool :=
  bool_decide (getUID FE ∉ map getUID Entered).

(** The files the handler of an event may resolve. *)
Definition resolvedBy (ev : PPEvent) : list FileID :=
  match ev with
  | EnteredInclude FID => [FID]
  | ExitedInclude IncludedBy Include _ => [Include; IncludedBy]
  | HasIncludeCheck _ => []
  end.

(** The change of the depth of the include stack an event stands for. *)
Definition depthChange (ev : PPEvent) : Z :=
  match ev with
  | EnteredInclude _ => 1%Z
  | ExitedInclude _ _ _ => (-1)%Z
  | HasIncludeCheck _ => 0%Z
  end.

Definition depthChanges (evs : list PPEvent) : Z :=
  foldr (fun ev z => (depthChange ev + z)%Z) 0%Z evs.

(** What [finalize] leaves alone: the include stack, the two memos and the
    seen bits. *)
Definition finalizeFrame {ObjectRef} (C C' : IncludeTreePPConsumer ObjectRef)
  : Prop :=
  IncludeStack C' = IncludeStack C /\
  ObjectForFile C' = ObjectForFile C /\
  PredefinesBufferRef C' = PredefinesBufferRef C /\
  SeenIncludeFiles C' = SeenIncludeFiles C.

(** Every file entry the per-file memo has a key for has its seen bit set. *)
Definition seenCoversMemo {ObjectRef} (C : IncludeTreePPConsumer ObjectRef)
  : Prop :=
  forall FE, is_Some (ObjectForFile C !! FE) ->
             notSeenInclude (SeenIncludeFiles C) FE = false.

(** The consumer [C] with another module-output callback. *)
Definition withLookupModuleOutput
    (Lookup : ModuleID -> ModuleOutputKind -> string)
    (C : FullDependencyConsumer) : FullDependencyConsumer :=
  {| Dependencies := Dependencies C;
     PrebuiltModuleDeps := PrebuiltModuleDeps C;
     ClangModuleDeps := ClangModuleDeps C;
     ContextHash := ContextHash C;
     AlreadySeen := AlreadySeen C;
     LookupModuleOutput := Lookup |}.

(** [DependencyScanningTool::getFullDependencies], given what the worker
    does: [Consumer] is the consumer as [Worker.computeDependencies] leaves
    it and [Result] the error it returns, if any; [useCAS] is
    [Worker.useCAS()] and [Tree] what [FS->createTreeFromNewAccesses()]
    returns (the ID of the tree), which is asked for only with the CAS file
    system. *)
Definition DependencyScanningTool_getFullDependencies
    (useCAS : bool) (Consumer : FullDependencyConsumer) (Result : option Error)
    (Tree : Expected string) (CommandLine : list string)
  : Outcome (Expected FullDependenciesResult) :=
  match Result with
  | Some E => Returns (Failure E)
  | None =>
      let CASFileSystemRootID :=
        if useCAS then
          match Tree with
          | Success TreeID => Success (Some TreeID)
          | Failure e => Failure e
          end
        else Success None in
      match CASFileSystemRootID with
      | Failure e => Returns (Failure e)
      | Success RootID =>
          match getFullDependencies Consumer CommandLine RootID with
          | Returns FDR => Returns (Success FDR)
          | AssertionFailed => AssertionFailed
          | Undefined => Undefined
          end
      end
  end.

(** ** A small translation unit to run the definitions on *)

Module Sample.

(** References are the printed form of the node they address, so equal
    nodes have equal references. *)
Definition showKind (K : CharacteristicKind) : string :=
  match K with
  | C_User => "user"
  | C_System => "system"
  | C_ExternCSystem => "extern-c-system"
  | C_User_ModuleMap => "user-modulemap"
  | C_System_ModuleMap => "system-modulemap"
  end.

Definition showBit (b : bool) : string := if b then "1" else "0".

Definition showSeq {A} (show : A -> string) (l : list A) : string :=
  "[" +:+ foldr (fun x acc => show x +:+ ";" +:+ acc) "]" l.

Definition showOpt (o : option string) : string :=
  match o with
  | Some r => r
  | None => "-"
  end.

Definition Store : ObjectStore string :=
  {| storeFromString := fun Refs Data =>
       Success ("blob" +:+ showSeq id Refs +:+ "<" +:+ Data +:+ ">");
     IncludeFile_create := fun Filename Contents =>
       if String.eqb Filename "unstorable.h"
       then Failure (StringError "cannot store node")
       else Success ("file(" +:+ Filename +:+ "," +:+ Contents +:+ ")");
     IncludeTree_create := fun Kind FileRef Incs Bits =>
       Success ("tree(" +:+ showKind Kind +:+ "," +:+ FileRef +:+ ","
                +:+ showSeq (fun p : string * N =>
                               p.1 +:+ "@" +:+ pretty p.2) Incs
                +:+ "," +:+ showSeq showBit Bits +:+ ")");
     IncludeFileList_create := fun Files =>
       Success ("files" +:+ showSeq (fun p : string * Z =>
                                       p.1 +:+ ":" +:+ pretty p.2) Files);
     IncludeTreeRoot_create := fun Main FileList PCH =>
       Success ("root(" +:+ Main +:+ "," +:+ FileList +:+ ","
                +:+ showOpt PCH +:+ ")");
     FileSizeTy_cast := fun Size => (Size mod 2 ^ 32)%Z |}.

(** The files on disk: name, UID, size, real path and content ([None] for
    a file that cannot be read). *)
Definition disk : list (string * (nat * Z * string * option string)) :=
  [ ("main.c",  (1%nat, 200%Z, "/src/main.c", Some "int main;"));
    ("a.h",     (2%nat, 100%Z, "/src/a.h",    Some "#include b"));
    ("b.h",     (3%nat, 50%Z,  "/src/b.h",    Some "int b;"));
    ("gone.h",  (4%nat, 10%Z,  "/src/gone.h", None));
    ("link.h",  (5%nat, 30%Z,  "/src/real.h", Some "int real;"));
    ("pch1.h",  (7%nat, 70%Z,  "/src/pch1.h", Some "int p1;"));
    ("pch2.h",  (6%nat, 60%Z,  "/src/pch2.h", Some "int p2;"));
    ("t.pch",   (8%nat, 80%Z,  "/src/t.pch",  Some "PCH")) ].

Fixpoint lookup_disk (Name : string)
    (d : list (string * (nat * Z * string * option string)))
  : option (nat * Z * string * option string) :=
  match d with
  | [] => None
  | (n, x) :: d' => if String.eqb n Name then Some x else lookup_disk Name d'
  end.

Definition entry (Name : string) : FileEntry :=
  match lookup_disk Name disk with
  | Some (uid, size, real, _) => mkFileEntry uid Name size real
  | None => mkFileEntry 0 Name 0 EmptyString
  end.

Definition FM : FileManager string :=
  {| getFile := fun Name =>
       match lookup_disk Name disk with
       | Some _ => Value (entry Name)
       | None => ErrorCodeOf 2
       end;
     getObjectRefForFileContent := fun Name =>
       match lookup_disk Name disk with
       | Some (_, _, _, Some Content) => Value (Some ("blob[]<" +:+ Content +:+ ">"))
       | _ => ErrorCodeOf 2
       end;
     makeAbsolutePath := fun Name =>
       if String.prefix "/" Name then Name else "/src/" +:+ Name |}.

Definition onDisk (Kind : CharacteristicKind) (Name : string) : FileInfo :=
  {| getFileCharacteristic := Kind;
     getContentCache := {| OrigEntry := Some (entry Name);
                           getBufferIfLoaded := None |};
     FI_getName := Name |}.

(** File IDs: 1 is the predefines buffer, 2 the main file, 3 [a.h], 4
    [b.h], 5 [gone.h], 6 [link.h], 7 a second inclusion of [a.h]. A source
    location is [1000 * FID + offset]. *)
Definition SM : SourceManager string :=
  {| getSLocEntry_getFile := fun FID =>
       if bool_decide (FID = 2%Z) then onDisk C_User "main.c"
       else if bool_decide (FID = 3%Z) then onDisk C_User "a.h"
       else if bool_decide (FID = 4%Z) then onDisk C_System "b.h"
       else if bool_decide (FID = 5%Z) then onDisk C_User "gone.h"
       else if bool_decide (FID = 6%Z) then onDisk C_User "link.h"
       else if bool_decide (FID = 7%Z) then onDisk C_User "a.h"
       else {| getFileCharacteristic := C_User;
               getContentCache := {| OrigEntry := None;
                                     getBufferIfLoaded := Some "#define X 1" |};
               FI_getName := "<built-in>" |};
     getFileManager := FM;
     getDecomposedExpansionLoc := fun Loc =>
       ((Loc / 1000)%Z, Z.to_N (Loc mod 1000)) |}.

Definition PP : Preprocessor string :=
  {| getSourceManager := SM;
     getPredefinesFileID := 1%Z;
     getIncludedFiles := [entry "pch1.h"; entry "main.c"; entry "pch2.h"] |}.

Definition CI : CompilerInstance string :=
  {| CI_getFileManager := FM;
     NoSanitizeFiles := [];
     Sysroot := EmptyString;
     ImplicitPCHInclude := "t.pch";
     CI_getPreprocessor := PP |}.

(** The same compilation, with a sanitizer ignore-list that does not
    exist. *)
Definition CI_missing_ignorelist : CompilerInstance string :=
  {| CI_getFileManager := FM;
     NoSanitizeFiles := ["nowhere.txt"];
     Sysroot := EmptyString;
     ImplicitPCHInclude := "t.pch";
     CI_getPreprocessor := PP |}.

Definition remove_dots (Path : string) : string := Path.
Definition path_append (Path Component : string) : string :=
  Path +:+ "/" +:+ Component.

(** The main file includes [a.h] at offset 120, which includes [b.h] at
    offset 40 after one [__has_include] that fails; the main file then
    evaluates one that succeeds. *)
Definition body : Body :=
  BodyInclude 3%Z
    (BodyHasInclude false (BodyInclude 4%Z BodyEnd 3040%Z BodyEnd))
    2120%Z (BodyHasInclude true BodyEnd).

Definition scan : list PPEvent := EnteredInclude 2%Z :: eventsOf 2%Z body.

Definition consumerAfter (NDEBUG : bool) (evs : list PPEvent)
  : Outcome (unit * IncludeTreePPConsumer string) :=
  handleEvents Store remove_dots NDEBUG PP evs newIncludeTreePPConsumer.

Definition consumerOf (o : Outcome (unit * IncludeTreePPConsumer string))
  : IncludeTreePPConsumer string :=
  match o with
  | Returns (_, C) => C
  | _ => newIncludeTreePPConsumer
  end.

(** The consumer once the main file is entered, and its frame. *)
Definition afterMain : IncludeTreePPConsumer string :=
  Eval vm_compute in consumerOf (consumerAfter false [EnteredInclude 2%Z]).

Definition mainFrame : FilePPState string :=
  mkFilePPState C_User "file(main.c,blob[]<int main;>)" [] [].

(** The consumer once the whole scan is handled. *)
Definition afterScan : IncludeTreePPConsumer string :=
  Eval vm_compute in consumerOf (consumerAfter false scan).

(** The consumer with the main file and [a.h] entered, and what the
    failing resolution of [gone.h] leaves of it. *)
Definition afterA : IncludeTreePPConsumer string :=
  Eval vm_compute in
    consumerOf (consumerAfter false [EnteredInclude 2%Z; EnteredInclude 3%Z]).

Definition afterGone : IncludeTreePPConsumer string :=
  Eval vm_compute in
  match getObjectForFile Store remove_dots false PP 5%Z afterA with
  | Returns (_, C) => C
  | _ => newIncludeTreePPConsumer
  end.


(** The consumer with the main file, [a.h] and then [b.h] entered and a
    probe evaluated. *)
Definition afterReinclusion : IncludeTreePPConsumer string :=
  Eval vm_compute in
    consumerOf (consumerAfter false
                  [EnteredInclude 2%Z; EnteredInclude 3%Z;
                   EnteredInclude 4%Z; HasIncludeCheck true]).

(** The consumer once [finalize] has run after the whole scan. *)
Definition afterFinalize : IncludeTreePPConsumer string :=
  Eval vm_compute in
    consumerOf (finalize Store remove_dots path_append false CI afterScan).

(** A consumer that has recorded an error with two frames still open. *)
Definition failedMidScan : list PPEvent :=
  [EnteredInclude 2%Z; EnteredInclude 3%Z; EnteredInclude 5%Z].

Definition failed : IncludeTreePPConsumer string :=
  Eval vm_compute in consumerOf (consumerAfter false failedMidScan).

(** A consumer whose very first file could not be read: an error is
    recorded and no frame is open. *)
Definition failedAtMain : IncludeTreePPConsumer string :=
  Eval vm_compute in consumerOf (consumerAfter false [EnteredInclude 5%Z]).

(** Module records for the aggregator. *)
Definition moduleM : ModuleDeps :=
  {| ID := {| ModuleName := "M"; MID_ContextHash := "H1" |};
     ImportedByMainFile := true;
     ClangModuleMapFile := "M.modulemap";
     MD_FileDeps := ["m.h"] |}.

Definition moduleT : ModuleDeps :=
  {| ID := {| ModuleName := "T"; MID_ContextHash := "H1" |};
     ImportedByMainFile := false;
     ClangModuleMapFile := "T.modulemap";
     MD_FileDeps := ["t.h"] |}.

Definition identityKey (I : ModuleID) : string :=
  ModuleName I +:+ MID_ContextHash I.

Definition lookupOutput (I : ModuleID) (K : ModuleOutputKind) : string :=
  "/out/" +:+ ModuleName I +:+ ".pcm".

(** A dependency-file generator: the options are the target name, the
    state is the target with the prerequisites so far, the output is
    [target: dep dep ...]. *)
Definition newGenerator (Target : string) : string * list string :=
  (Target, []).
Definition addDep (Dep : string) (G : string * list string)
  : string * list string :=
  (G.1, G.2 ++ [Dep]).
Definition outputMake (G : string * list string) : string :=
  G.1 +:+ ":" +:+ foldr (fun Dep acc => " " +:+ Dep +:+ acc) EmptyString G.2.

Definition flatRun1 : list (DependencyEvent string) :=
  [DependencyOutputOptsEvent "t"; FileDependencyEvent "a.h";
   ModuleDependencyEvent moduleM; FileDependencyEvent "b.h";
   ContextHashEvent "H1"].

Definition flatRun2 : list (DependencyEvent string) :=
  [ContextHashEvent "H2"; DependencyOutputOptsEvent "t";
   PrebuiltModuleDependencyEvent
     {| PMD_ModuleName := "P"; PCMFile := "/p.pcm";
        PMD_ModuleMapFile := "p.modulemap" |};
   FileDependencyEvent "a.h"; FileDependencyEvent "b.h";
   ModuleDependencyEvent moduleT].

(** A store that cannot store include-tree nodes, and is otherwise
    [Store]. *)
Definition StoreNoTrees : ObjectStore string :=
  {| storeFromString := storeFromString Store;
     IncludeFile_create := IncludeFile_create Store;
     IncludeTree_create := fun _ _ _ _ => Failure (StringError "store is full");
     IncludeFileList_create := IncludeFileList_create Store;
     IncludeTreeRoot_create := IncludeTreeRoot_create Store;
     FileSizeTy_cast := FileSizeTy_cast Store |}.

(** What the whole sample scan returns. *)
Definition scanRoot : string :=
  Eval vm_compute in
    match scanIncludeTree Store remove_dots path_append false CI scan with
    | Returns (Success Root, _) => Root
    | _ => EmptyString
    end.

Definition afterScanRoot : IncludeTreePPConsumer string :=
  Eval vm_compute in
    match scanIncludeTree Store remove_dots path_append false CI scan with
    | Returns (_, C) => C
    | _ => newIncludeTreePPConsumer
    end.

(** What [getObjectForFileNonCached] leaves of [afterMain] for [a.h]. *)
Definition afterNonCachedA : IncludeTreePPConsumer string :=
  Eval vm_compute in
    match getObjectForFileNonCached Store remove_dots false FM
            (onDisk C_User "a.h") afterMain with
    | Returns (_, C) => C
    | _ => newIncludeTreePPConsumer
    end.


(** A store that cannot store the node of [link.h], and is otherwise
    [Store]. *)
Definition StoreNoLink : ObjectStore string :=
  {| storeFromString := storeFromString Store;
     IncludeFile_create := fun Filename Contents =>
       if String.eqb Filename "link.h"
       then Failure (StringError "store is full")
       else IncludeFile_create Store Filename Contents;
     IncludeTree_create := IncludeTree_create Store;
     IncludeFileList_create := IncludeFileList_create Store;
     IncludeTreeRoot_create := IncludeTreeRoot_create Store;
     FileSizeTy_cast := FileSizeTy_cast Store |}.

(** A compilation against an SDK with no [SDKSettings.json], and with no
    precompiled header. *)
Definition CI_sdk : CompilerInstance string :=
  {| CI_getFileManager := FM;
     NoSanitizeFiles := [];
     Sysroot := "/sdk";
     ImplicitPCHInclude := EmptyString;
     CI_getPreprocessor := PP |}.

(** A compilation whose sanitizer ignore-list is a header of the scan. *)
Definition CI_ignorelist_a : CompilerInstance string :=
  {| CI_getFileManager := FM;
     NoSanitizeFiles := ["a.h"];
     Sysroot := EmptyString;
     ImplicitPCHInclude := EmptyString;
     CI_getPreprocessor := PP |}.

(** Two module-output callbacks that agree on module files only. *)
Definition lookupOutput2 (I : ModuleID) (K : ModuleOutputKind) : string :=
  match K with
  | ModuleFile => "/out/" +:+ ModuleName I +:+ ".pcm"
  | _ => "/elsewhere/" +:+ ModuleName I
  end.

(** A consumer of the aggregator after a scan. *)
Definition aggregated : FullDependencyConsumer :=
  FDC_run identityKey
    [FileDependencyEvent "a.h"; ModuleDependencyEvent moduleT;
     ContextHashEvent "H1"; ModuleDependencyEvent moduleM;
     DependencyOutputOptsEvent tt]
    (newFullDependencyConsumer ∅ lookupOutput).

End Sample.

(* ===================================================================== *)
(** * Part II: properties                                                 *)
(* ===================================================================== *)

(** ** The monad *)

Lemma bind_ext {S A B} (m : M S A) (k1 k2 : A -> M S B) s :
  (forall a s', k1 a s' = k2 a s') -> bind m k1 s = bind m k2 s.
Proof.
  intros Hk. unfold bind. destruct (m s) as [[a s']| |]; [apply Hk|reflexivity..].
Qed.

(** ** Command-line rewriting *)

Lemma consume_front_cons a s b p :
  consume_front (String a s) (String b p) =
  if Ascii.ascii_dec b a then consume_front s p else None.
Proof.
  unfold consume_front, startswith. simpl.
  destruct (Ascii.ascii_dec b a); reflexivity.
Qed.

Lemma substring_all s : String.substring 0 (String.length s) s = s.
Proof. induction s as [|a s IH]; simpl; [reflexivity | now rewrite IH]. Qed.

Lemma consume_front_empty s : consume_front s EmptyString = Some s.
Proof.
  unfold consume_front, startswith.
  destruct s as [|a s]; simpl; [reflexivity|].
  now rewrite substring_all.
Qed.

(** A prefix test against [p ++ q] is a [consume_front p] followed by a
    prefix test against [q]. *)
Lemma prefix_append p q s :
  String.prefix (p +:+ q) s =
  match consume_front s p with
  | Some r => String.prefix q r
  | None => false
  end.
Proof.
  revert s. induction p as [|b p IH]; intros s.
  - now rewrite consume_front_empty.
  - destruct s as [|a s].
    + reflexivity.
    + rewrite consume_front_cons. simpl.
      destruct (Ascii.ascii_dec b a); [apply IH | reflexivity].
Qed.

Lemma eqb_append p q s :
  String.eqb s (p +:+ q) =
  match consume_front s p with
  | Some r => String.eqb r q
  | None => false
  end.
Proof.
  revert s. induction p as [|b p IH]; intros s.
  - now rewrite consume_front_empty.
  - destruct s as [|a s].
    + reflexivity.
    + rewrite consume_front_cons. simpl.
      destruct (Ascii.ascii_dec b a) as [->|Hne].
      * rewrite Ascii.eqb_refl. apply IH.
      * destruct (Ascii.eqb_spec a b); [congruence | reflexivity].
Qed.

Lemma fmodules_not_fbuild s r :
  consume_front s "-fmodules-" = Some r ->
  String.prefix "-fbuild-session-file=" s = false.
Proof.
  destruct s as [|c1 s]; [discriminate|].
  rewrite consume_front_cons.
  destruct (Ascii.ascii_dec _ c1) as [<-|]; [|discriminate].
  destruct s as [|c2 s]; [discriminate|].
  rewrite consume_front_cons.
  destruct (Ascii.ascii_dec _ c2) as [<-|]; [|discriminate].
  destruct s as [|c3 s]; [discriminate|].
  rewrite consume_front_cons.
  destruct (Ascii.ascii_dec _ c3) as [<-|]; [|discriminate].
  reflexivity.
Qed.

(** The predicate of the code removes exactly the arguments the spec names. *)
Lemma unusedInExplicitCompile_removedBySpec Arg :
  unusedInExplicitCompile Arg = removedBySpec Arg.
Proof.
  unfold unusedInExplicitCompile, removedBySpec, startswith.
  change "-fmodules-cache-path=" with ("-fmodules-" +:+ "cache-path=").
  change "-fmodules-prune-interval=" with ("-fmodules-" +:+ "prune-interval=").
  change "-fmodules-prune-after=" with ("-fmodules-" +:+ "prune-after=").
  change "-fmodules-validate-once-per-build-session"
    with ("-fmodules-" +:+ "validate-once-per-build-session").
  rewrite !prefix_append, eqb_append.
  destruct (consume_front Arg "-fmodules-") as [r|] eqn:Hc.
  - rewrite (fmodules_not_fbuild _ _ Hc). now rewrite orb_false_r.
  - reflexivity.
Qed.

Lemma makeTUCommandLineWithoutPaths_spec Args :
  makeTUCommandLineWithoutPaths Args = rewrittenBySpec Args.
Proof.
  unfold makeTUCommandLineWithoutPaths, rewrittenBySpec, erase_if.
  rewrite <- app_assoc, List.filter_app. f_equal.
  apply List.filter_ext. intros a.
  now rewrite unusedInExplicitCompile_removedBySpec.
Qed.

(** ** The dependency aggregator *)

Lemma prebuilt_flags PMDs Cmd :
  fold_left (fun Cmd PMD => Cmd ++ ["-fmodule-file=" +:+ PCMFile PMD]) PMDs Cmd
  = Cmd ++ map (fun PMD => moduleFileFlag (PCMFile PMD)) PMDs.
Proof.
  revert Cmd. induction PMDs as [|PMD PMDs IH]; intros Cmd; simpl.
  - now rewrite app_nil_r.
  - rewrite IH, <- app_assoc. reflexivity.
Qed.

Lemma directImports_spec Lookup deps Mods Cmd :
  directImports Lookup deps Mods Cmd =
  (Mods ++ map ID (List.filter ImportedByMainFile (map snd deps)),
   Cmd ++ map (fun MD => moduleFileFlag (Lookup (ID MD) ModuleFile))
            (List.filter ImportedByMainFile (map snd deps))).
Proof.
  revert Mods Cmd. induction deps as [|[Key MD] deps IH]; intros Mods Cmd; simpl.
  - now rewrite !app_nil_r.
  - destruct (ImportedByMainFile MD); simpl.
    + rewrite IH, <- !app_assoc. reflexivity.
    + apply IH.
Qed.

Lemma discoveredModules_spec Seen deps Out :
  discoveredModules Seen deps Out =
  Out ++ map snd (List.filter (fun p => negb (bool_decide (p.1 ∈ Seen))) deps).
Proof.
  revert Out. induction deps as [|[Key MD] deps IH]; intros Out; simpl.
  - now rewrite app_nil_r.
  - destruct (bool_decide (Key ∈ Seen)); simpl.
    + apply IH.
    + rewrite IH, <- app_assoc. reflexivity.
Qed.

Section AggregatorProperties.

Variable identityKey : ModuleID -> string.

Lemma mapvector_assign_keyed MD deps :
  keyedByIdentity identityKey deps ->
  keyedByIdentity identityKey (mapvector_assign (identityKey (ID MD)) MD deps).
Proof.
  unfold keyedByIdentity.
  induction 1 as [|[k v] deps Hk Hdeps IH]; simpl.
  - repeat constructor.
  - destruct (String.eqb_spec k (identityKey (ID MD))) as [->|Hne].
    + constructor; [reflexivity | assumption].
    + constructor; assumption.
Qed.

Lemma recordsOf_keyed {Opts} (evs : list (DependencyEvent Opts)) deps :
  keyedByIdentity identityKey deps -> keyedByIdentity identityKey (recordsOf identityKey evs deps).
Proof.
  revert deps. induction evs as [|ev evs IH]; intros deps Hk; simpl.
  - assumption.
  - apply IH. destruct ev; try assumption.
    now apply mapvector_assign_keyed.
Qed.

Lemma FDC_run_ClangModuleDeps {Opts} (evs : list (DependencyEvent Opts)) C :
  ClangModuleDeps (FDC_run identityKey evs C)
  = recordsOf identityKey evs (ClangModuleDeps C).
Proof.
  revert C. induction evs as [|ev evs IH]; intros C; [reflexivity|].
  unfold FDC_run, recordsOf in *. cbn [fold_left].
  rewrite IH. destruct ev; reflexivity.
Qed.

Lemma FDC_run_AlreadySeen {Opts} (evs : list (DependencyEvent Opts)) C :
  AlreadySeen (FDC_run identityKey evs C) = AlreadySeen C.
Proof.
  revert C. induction evs as [|ev evs IH]; intros C; [reflexivity|].
  unfold FDC_run, recordsOf in *. cbn [fold_left].
  rewrite IH. destruct ev; reflexivity.
Qed.

Lemma filter_keyed (Seen : gset string) deps :
  keyedByIdentity identityKey deps ->
  map snd (List.filter (fun p => negb (bool_decide (p.1 ∈ Seen))) deps)
  = List.filter (fun MD => negb (bool_decide (identityKey (ID MD) ∈ Seen)))
      (map snd deps).
Proof.
  induction 1 as [|[k v] deps Hk Hdeps IH]; simpl.
  - reflexivity.
  - simpl in Hk. subst k.
    destruct (bool_decide (identityKey (ID v) ∈ Seen)); simpl;
      now rewrite IH.
Qed.

End AggregatorProperties.

(** C2: the command line of the full-dependency result is the original one
    without its program name (position 0) and without every argument that
    matches [-fmodules-cache-path=...], [-fmodules-prune-interval=...],
    [-fmodules-prune-after=...], [-fmodules-validate-once-per-build-session]
    or [-fbuild-session-file=...], followed by [-fno-implicit-modules] and
    [-fno-implicit-module-maps], followed by the module-file flags (of the
    prebuilt modules, then of the modules the main file imports). In
    particular [clang -fmodules-cache-path=/x -fbuild-session-file=/y -c a.c]
    becomes [-c a.c -fno-implicit-modules -fno-implicit-module-maps] followed
    by module-file flags. *)
Theorem C2_rewritten_command_line (C : FullDependencyConsumer)
    (Program : string) (Args : list string) (RootID : option string) :
  let moduleFileFlags :=
    map (fun PMD => moduleFileFlag (PCMFile PMD)) (PrebuiltModuleDeps C)
    ++ map (fun MD => moduleFileFlag (LookupModuleOutput C (ID MD) ModuleFile))
         (List.filter ImportedByMainFile (map snd (ClangModuleDeps C))) in
  (exists R,
      getFullDependencies C (Program :: Args) RootID = Returns R /\
      FD_CommandLine (FullDeps R) =
        List.filter (fun Arg => negb (removedBySpec Arg)) Args
        ++ ["-fno-implicit-modules"; "-fno-implicit-module-maps"]
        ++ moduleFileFlags) /\
  (exists R,
      getFullDependencies C
        ["clang"; "-fmodules-cache-path=/x"; "-fbuild-session-file=/y";
         "-c"; "a.c"] RootID = Returns R /\
      FD_CommandLine (FullDeps R) =
        ["-c"; "a.c"; "-fno-implicit-modules"; "-fno-implicit-module-maps"]
        ++ moduleFileFlags).
Proof.
  intros moduleFileFlags.
  assert (Hgen : forall P A, exists R,
             getFullDependencies C (P :: A) RootID = Returns R /\
             FD_CommandLine (FullDeps R) =
               rewrittenBySpec A ++ moduleFileFlags).
  { intros P A. unfold getFullDependencies. cbn [slice1].
    rewrite prebuilt_flags, directImports_spec, makeTUCommandLineWithoutPaths_spec.
    eexists. split; [reflexivity|]. cbn [FullDeps FD_CommandLine].
    subst moduleFileFlags. now rewrite <- !app_assoc. }
  split.
  - destruct (Hgen Program Args) as (R & HR & Hcmd).
    exists R. split; [exact HR|]. rewrite Hcmd. unfold rewrittenBySpec.
    now rewrite <- app_assoc.
  - destruct (Hgen "clang" ["-fmodules-cache-path=/x"; "-fbuild-session-file=/y";
                            "-c"; "a.c"]) as (R & HR & Hcmd).
    exists R. split; [exact HR|]. rewrite Hcmd. reflexivity.
Qed.

(** C4: after any run of events, the full-dependency result lists as
    discovered modules exactly the stored records whose identity is not in
    the already-seen set, in their stored order, and lists as directly
    imported exactly the records marked as imported by the main file,
    whatever the already-seen set is; so a record that is already seen and
    imported by the main file is among the direct imports and not among the
    discovered modules. *)
Theorem C4_discovered_and_direct_imports (identityKey : ModuleID -> string)
    (Opts : Type) (evs : list (DependencyEvent Opts)) (Seen : gset string)
    (Lookup : ModuleID -> ModuleOutputKind -> string)
    (Program : string) (Args : list string) (RootID : option string) :
  let C := FDC_run identityKey evs (newFullDependencyConsumer Seen Lookup) in
  let records := map snd (recordsOf identityKey evs []) in
  exists R,
    getFullDependencies C (Program :: Args) RootID = Returns R /\
    DiscoveredModules R =
      List.filter (fun MD => negb (bool_decide (identityKey (ID MD) ∈ Seen)))
        records /\
    FD_ClangModuleDeps (FullDeps R) =
      map ID (List.filter ImportedByMainFile records) /\
    (forall MD, In MD records -> ImportedByMainFile MD = true ->
                identityKey (ID MD) ∈ Seen ->
                In (ID MD) (FD_ClangModuleDeps (FullDeps R)) /\
                ~ In MD (DiscoveredModules R)).
Proof.
  intros C records.
  assert (Hdeps : ClangModuleDeps C = recordsOf identityKey evs []).
  { subst C. now rewrite FDC_run_ClangModuleDeps. }
  assert (Hseen : AlreadySeen C = Seen).
  { subst C. now rewrite FDC_run_AlreadySeen. }
  unfold getFullDependencies. cbn [slice1].
  rewrite prebuilt_flags, directImports_spec, discoveredModules_spec.
  rewrite Hdeps, Hseen.
  rewrite (filter_keyed identityKey)
    by (apply recordsOf_keyed; constructor).
  eexists. split; [reflexivity|].
  cbn [DiscoveredModules FullDeps FD_ClangModuleDeps]. fold records.
  split; [reflexivity|]. split; [reflexivity|].
  intros MD Hin Himp HS. split.
  - cbn [app]. apply in_map. apply List.filter_In. now split.
  - cbn [app]. rewrite List.filter_In. intros [_ Hn].
    rewrite bool_decide_eq_true_2 in Hn by exact HS. discriminate.
Qed.

(** ** The make-format printer *)

Section PrinterProperties.

Context {DependencyOutputOptions DependencyFileGenerator : Type}.
Variable newDependencyFileGenerator :
  DependencyOutputOptions -> DependencyFileGenerator.
Variable addDependency :
  string -> DependencyFileGenerator -> DependencyFileGenerator.
Variable outputDependencyFile : DependencyFileGenerator -> string.

(** The consumer keeps the last output options and the file dependencies
    in order, and nothing else. *)
Lemma MDP_run_state (evs : list (DependencyEvent DependencyOutputOptions)) C :
  MDP_run evs C =
  {| MDP_Opts := match last (outputOptsEvents evs) with
                 | Some DO => Some DO
                 | None => MDP_Opts C
                 end;
     MDP_Dependencies := MDP_Dependencies C ++ fileDependencyEvents evs |}.
Proof.
  revert C. induction evs as [|ev evs IH]; intros C.
  - destruct C; simpl. now rewrite app_nil_r.
  - unfold MDP_run in *. cbn [fold_left]. rewrite IH.
    destruct ev; cbn [MDP_handle outputOptsEvents fileDependencyEvents
                        flat_map app MDP_Opts MDP_Dependencies];
      try reflexivity.
    + fold (outputOptsEvents evs).
      destruct (outputOptsEvents evs) as [|DO' l] eqn:E; [reflexivity|].
      change (last (DO :: DO' :: l)) with (last (DO' :: l)).
      destruct (last (DO' :: l)) eqn:El; [reflexivity|].
      apply last_None in El. discriminate.
    + fold (fileDependencyEvents evs). now rewrite <- app_assoc.
Qed.

End PrinterProperties.

(** C9: two runs with the same output-options events and the same
    file-dependency events render the same make-format text, however their
    module, prebuilt-module and context-hash events differ. *)
Theorem C9_flat_output_ignores_modules
    (DependencyOutputOptions DependencyFileGenerator : Type)
    (newDependencyFileGenerator :
       DependencyOutputOptions -> DependencyFileGenerator)
    (addDependency : string -> DependencyFileGenerator -> DependencyFileGenerator)
    (outputDependencyFile : DependencyFileGenerator -> string)
    (NDEBUG : bool) (Result : option Error)
    (evs1 evs2 : list (DependencyEvent DependencyOutputOptions)) :
  outputOptsEvents evs1 = outputOptsEvents evs2 ->
  fileDependencyEvents evs1 = fileDependencyEvents evs2 ->
  getDependencyFile newDependencyFileGenerator addDependency
    outputDependencyFile NDEBUG evs1 Result
  = getDependencyFile newDependencyFileGenerator addDependency
      outputDependencyFile NDEBUG evs2 Result.
Proof.
  intros Hopts Hfiles. unfold getDependencyFile.
  rewrite !MDP_run_state, Hopts, Hfiles. reflexivity.
Qed.

Lemma C9_flat_output_ignores_modules_witness :
  outputOptsEvents Sample.flatRun1 = outputOptsEvents Sample.flatRun2 /\
  fileDependencyEvents Sample.flatRun1 = fileDependencyEvents Sample.flatRun2 /\
  getDependencyFile Sample.newGenerator Sample.addDep Sample.outputMake
    false Sample.flatRun1 None
  = getDependencyFile Sample.newGenerator Sample.addDep Sample.outputMake
      false Sample.flatRun2 None.
Proof.
  split; [reflexivity|]. split; [reflexivity|].
  apply (C9_flat_output_ignores_modules string (string * list string)
           Sample.newGenerator Sample.addDep Sample.outputMake false None
           Sample.flatRun1 Sample.flatRun2); reflexivity.
Defined.

Example flat_output_sample :
  getDependencyFile Sample.newGenerator Sample.addDep Sample.outputMake
    false Sample.flatRun1 None
  = Returns (Success "t: a.h b.h").
Proof. reflexivity. Qed.

(** ** The include-tree builder *)

Ltac run_monad :=
  repeat (cbn [bind ret get modify invalid] in *; unfold bind, ret, get, modify, invalid in * ).

(** *** Recording an error *)

(** The first error is recorded; a second one over it only with
    [NDEBUG]. *)
Lemma ErrorToReport_assign_new {ObjectRef} {NDEBUG : bool} e
    (C : IncludeTreePPConsumer ObjectRef) :
  ErrorToReport C = None ->
  ErrorToReport_assign NDEBUG e C
  = Returns (tt, set_ErrorToReport (Some e) C).
Proof. intros Hn. unfold ErrorToReport_assign. run_monad. now rewrite Hn. Qed.

Lemma ErrorToReport_assign_over {ObjectRef} {NDEBUG : bool} e
    (C : IncludeTreePPConsumer ObjectRef) :
  is_Some (ErrorToReport C) ->
  ErrorToReport_assign NDEBUG e C
  = if NDEBUG then Returns (tt, set_ErrorToReport (Some e) C)
    else AssertionFailed.
Proof.
  intros [e0 Hn]. unfold ErrorToReport_assign. run_monad. rewrite Hn.
  now destruct NDEBUG.
Qed.

Lemma ErrorToReport_assign_effect {ObjectRef} {NDEBUG : bool} e
    (C : IncludeTreePPConsumer ObjectRef) u C' :
  ErrorToReport_assign NDEBUG e C = Returns (u, C') ->
  C' = set_ErrorToReport (Some e) C /\
  (ErrorToReport C = None \/ NDEBUG = true).
Proof.
  unfold ErrorToReport_assign. run_monad.
  destruct (ErrorToReport C); [destruct NDEBUG; [|discriminate]|];
    intros [= _ <-]; auto.
Qed.

Lemma ErrorToReport_assign_ret {ObjectRef} {NDEBUG : bool} {A} e (a : A)
    (C : IncludeTreePPConsumer ObjectRef) b C' :
  (ErrorToReport_assign NDEBUG e ;;; ret a) C = Returns (b, C') ->
  b = a /\ C' = set_ErrorToReport (Some e) C.
Proof.
  unfold bind.
  destruct (ErrorToReport_assign NDEBUG e C) as [[[] C1]| |] eqn:Ha;
    try discriminate.
  apply ErrorToReport_assign_effect in Ha as [-> _].
  unfold ret. now intros [= <- <-].
Qed.

Lemma check_Failure {ObjectRef} {NDEBUG : bool} {T} e
    (C : IncludeTreePPConsumer ObjectRef) :
  ErrorToReport C = None ->
  check NDEBUG (Failure e : Expected T) C
  = Returns (None, set_ErrorToReport (Some e) C).
Proof.
  intros Hn. cbn [check]. unfold bind.
  now rewrite (ErrorToReport_assign_new e C Hn).
Qed.

(** A step that records an error and returns has recorded it. *)
Ltac assign_step :=
  match goal with
  | |- context [ErrorToReport_assign ?N ?e0 ?C0] =>
      let Ha := fresh "Ha" in
      destruct (ErrorToReport_assign N e0 C0) as [[[] ?]| |] eqn:Ha;
      try discriminate;
      apply ErrorToReport_assign_effect in Ha as [-> _]
  end.

Section IncludeTreeProperties.

Context {ObjectRef : Type} `{EqDecision ObjectRef}.
Variable DB : ObjectStore ObjectRef.
Variable remove_dots : string -> string.
Variable NDEBUG : bool.
Variable PP : Preprocessor ObjectRef.

Local Abbreviation addToFileList' := (addToFileList DB remove_dots NDEBUG).
Local Abbreviation getObjectForFile' := (getObjectForFile DB remove_dots NDEBUG PP).
Local Abbreviation enteredInclude' := (enteredInclude DB remove_dots NDEBUG PP).
Local Abbreviation exitedInclude' := (exitedInclude DB remove_dots NDEBUG PP).
Local Abbreviation handleEvent' := (handleEvent DB remove_dots NDEBUG PP).
Local Abbreviation handleEvents' := (handleEvents DB remove_dots NDEBUG PP).
Local Abbreviation resolved := (resolvedFile PP).
Local Abbreviation growsTo' :=
  (growsTo DB remove_dots (getFileManager (getSourceManager PP))).

(** *** What the resolution of a file changes *)

(** [addToFileList_addFile] appends at most one entry to the manifest. *)
Lemma addToFileList_addFile_effect FE Contents Filename C E C' :
  addToFileList_addFile DB NDEBUG FE Contents Filename C = Returns (E, C') ->
  (exists R, E = Success R /\
             IncludeFile_create DB Filename Contents = Success R /\
             C' = set_IncludedFiles
                    (IncludedFiles C ++ [(R, FileSizeTy_cast DB (getSize FE))]) C)
  \/ (exists e, E = Failure e /\
                IncludeFile_create DB Filename Contents = Failure e /\ C' = C).
Proof.
  unfold addToFileList_addFile, assert_. intros Hrun.
  destruct NDEBUG; run_monad.
  - destruct (IncludeFile_create DB Filename Contents) as [R|e];
      inversion Hrun; subst; eauto 6.
  - destruct (negb (Filename =? EmptyString)%string); [|discriminate].
    destruct (IncludeFile_create DB Filename Contents) as [R|e];
      inversion Hrun; subst; eauto 6.
Qed.

Lemma set_IncludedFiles_nil (C : IncludeTreePPConsumer ObjectRef) :
  C = set_IncludedFiles (IncludedFiles C ++ []) C.
Proof. destruct C; unfold set_IncludedFiles; cbn. now rewrite app_nil_r. Qed.

Lemma set_IncludedFiles_app (C : IncludeTreePPConsumer ObjectRef) X Y :
  set_IncludedFiles
    (IncludedFiles (set_IncludedFiles (IncludedFiles C ++ X) C) ++ Y)
    (set_IncludedFiles (IncludedFiles C ++ X) C)
  = set_IncludedFiles (IncludedFiles C ++ (X ++ Y)) C.
Proof. unfold set_IncludedFiles; cbn. now rewrite app_assoc. Qed.

(** [addToFileList] changes nothing but the manifest, to which it appends
    entries of the file; when it succeeds these are the file nodes of the
    file's [manifestPaths], in order, over one content reference, and it
    returns the last of them. *)
Lemma addToFileList_effect FM FE C E C' :
  addToFileList' FM FE C = Returns (E, C') ->
  exists Extra,
    C' = set_IncludedFiles (IncludedFiles C ++ Extra) C /\
    Forall (manifestEntryOf DB remove_dots FM FE) Extra /\
    (forall R, E = Success R ->
       exists Contents Nodes,
         getObjectRefForFileContent FM (getName FE) = Value (Some Contents) /\
         Forall2 (fun Path Node =>
                    IncludeFile_create DB Path Contents = Success Node)
           (manifestPaths remove_dots FM FE) Nodes /\
         last Nodes = Some R /\
         Extra = map (fun Node => (Node, FileSizeTy_cast DB (getSize FE))) Nodes).
Proof.
  unfold addToFileList. intros Hrun.
  destruct (getObjectRefForFileContent FM (getName FE))
    as [[Contents|]|ec] eqn:Hcontent.
  - unfold deref in Hrun. run_monad.
    assert (Hentry : forall Path Node,
               In Path (manifestPaths remove_dots FM FE) ->
               IncludeFile_create DB Path Contents = Success Node ->
               manifestEntryOf DB remove_dots FM FE
                 (Node, FileSizeTy_cast DB (getSize FE))).
    { intros Path Node Hin Hnode. exists Contents, Path. now repeat split. }
    unfold manifestPaths in *.
    destruct (negb (tryGetRealPathName FE =? EmptyString)%string);
      [destruct (negb (tryGetRealPathName FE =?
                         remove_dots (makeAbsolutePath FM (getName FE)))%string)|];
      cbn [andb] in *.
    + destruct (addToFileList_addFile DB NDEBUG FE Contents
                  (tryGetRealPathName FE) C) as [[E1 C1]| |] eqn:H1;
        try discriminate.
      apply addToFileList_addFile_effect in H1.
      destruct H1 as [(R1 & HE1 & Hn1 & HC1)|(e1 & HE1 & _ & HC1)];
        rewrite HE1, HC1 in Hrun.
      * apply addToFileList_addFile_effect in Hrun.
        destruct Hrun as [(R & HE & Hn & HC')|(e & HE & _ & HC')];
          rewrite HC', HE.
        -- eexists. split; [apply set_IncludedFiles_app|].
           split.
           ++ repeat constructor; eapply Hentry; eauto; cbn; auto.
           ++ intros R' [= <-]. exists Contents, [R1; R].
              repeat split; auto.
        -- eexists. split; [reflexivity|]. split.
           ++ repeat constructor; eapply Hentry; eauto; cbn; auto.
           ++ discriminate.
      * injection Hrun as <- <-. exists [].
        split; [apply set_IncludedFiles_nil|]. split; [constructor|discriminate].
    + apply addToFileList_addFile_effect in Hrun.
      destruct Hrun as [(R & HE & Hn & HC')|(e & HE & _ & HC')];
        rewrite HC', HE.
      * eexists. split; [reflexivity|]. split.
        -- repeat constructor; eapply Hentry; eauto; cbn; auto.
        -- intros R' [= <-]. exists Contents, [R]. repeat split; auto.
      * exists []. split; [apply set_IncludedFiles_nil|].
        split; [constructor|discriminate].
    + apply addToFileList_addFile_effect in Hrun.
      destruct Hrun as [(R & HE & Hn & HC')|(e & HE & _ & HC')];
        rewrite HC', HE.
      * eexists. split; [reflexivity|]. split.
        -- repeat constructor; eapply Hentry; eauto; cbn; auto.
        -- intros R' [= <-]. exists Contents, [R]. repeat split; auto.
      * exists []. split; [apply set_IncludedFiles_nil|].
        split; [constructor|discriminate].
  - unfold deref in Hrun. run_monad. destruct NDEBUG; discriminate.
  - run_monad. injection Hrun as <- <-. exists [].
    split; [apply set_IncludedFiles_nil|]. split; [constructor|discriminate].
Qed.

Lemma memoExtends_refl (C : IncludeTreePPConsumer ObjectRef) : memoExtends C C.
Proof. split; auto. Qed.

Lemma memoExtends_trans (C1 C2 C3 : IncludeTreePPConsumer ObjectRef) :
  memoExtends C1 C2 -> memoExtends C2 C3 -> memoExtends C1 C3.
Proof. intros [H1 H2] [H3 H4]. split; auto. Qed.

Lemma memoExtends_resolved C C' FID R :
  memoExtends C C' -> resolved C FID = Some R -> resolved C' FID = Some R.
Proof.
  intros [Hp Hf]. unfold resolvedFile.
  destruct (bool_decide (getPredefinesFileID PP = FID)); [apply Hp|].
  destruct (OrigEntry _) as [FE|]; [|discriminate].
  destruct (ObjectForFile C !! FE) as [[R'|]|] eqn:Hl; try discriminate.
  cbn. intros [= ->]. now rewrite (Hf _ _ Hl).
Qed.

(** A file that is already resolved is answered from the memo, and the
    consumer does not change. *)
Lemma getObjectForFile_resolved FID C R :
  resolved C FID = Some R ->
  getObjectForFile' FID C = Returns (Success R, C).
Proof.
  unfold resolvedFile, getObjectForFile.
  destruct (bool_decide (getPredefinesFileID PP = FID)).
  - intros Hp. run_monad. now rewrite Hp.
  - destruct (OrigEntry _) as [FE|]; [|discriminate].
    destruct (ObjectForFile C !! FE) as [[R'|]|] eqn:Hl; try discriminate.
    cbn. intros [= ->]. unfold deref, ObjectForFile_subscript. run_monad.
    now rewrite Hl.
Qed.

(** [getObjectForBuffer] does not change the consumer. *)
Lemma getObjectForBuffer_effect FI C E C' :
  getObjectForBuffer DB NDEBUG FI C = Returns (E, C') -> C' = C.
Proof.
  unfold getObjectForBuffer, deref. run_monad.
  destruct (getBufferIfLoaded _) as [Buffer|].
  - destruct (storeFromString DB [] Buffer) as [Ref|e].
    + destruct (IncludeFile_create DB (FI_getName FI) Ref);
        now intros [= _ <-].
    + now intros [= _ <-].
  - destruct NDEBUG; discriminate.
Qed.

(** What [getObjectForFile] may change: the seen bits, the manifest (which
    only grows) and the memo (which only gains references); a reference it
    returns is memoized. *)
Lemma getObjectForFile_effect FID C E C' :
  getObjectForFile' FID C = Returns (E, C') ->
  IncludeStack C' = IncludeStack C /\
  ErrorToReport C' = ErrorToReport C /\
  PCHRef C' = PCHRef C /\
  memoExtends C C' /\
  (exists Extra, IncludedFiles C' = IncludedFiles C ++ Extra /\
                 Forall (fromDisk DB remove_dots
                           (getFileManager (getSourceManager PP))) Extra) /\
  (forall R, E = Success R -> resolved C' FID = Some R).
Proof.
  unfold getObjectForFile, resolvedFile.
  destruct (bool_decide (getPredefinesFileID PP = FID)).
  - run_monad. destruct (PredefinesBufferRef C) as [R|] eqn:Hp.
    + intros [= <- <-]. rewrite Hp.
      repeat split; auto. { exists []; rewrite app_nil_r; now split. }
      now intros R' [= <-].
    + destruct (getObjectForBuffer DB NDEBUG _ C) as [[E1 C1]| |] eqn:Hb;
        try discriminate.
      apply getObjectForBuffer_effect in Hb. subst C1.
      destruct E1 as [R|e]; intros [= <- <-]; cbn.
      * repeat split; auto; try congruence.
        { exists []; rewrite app_nil_r; now split. }
      * repeat split; auto; try congruence.
        { exists []; rewrite app_nil_r; now split. }
  - unfold deref. run_monad.
    destruct (OrigEntry _) as [Key|] eqn:Ho; [|destruct NDEBUG; discriminate].
    unfold ObjectForFile_subscript. run_monad.
    unfold getObjectForFileNonCached, deref. run_monad. rewrite Ho.
    destruct (ObjectForFile C !! Key) as [[R|]|] eqn:Hl.
    + intros [= <- <-]. rewrite Hl.
      repeat split; auto. { exists []; rewrite app_nil_r; now split. }
      now intros R' [= <-].
    + match goal with
      | |- context [addToFileList _ _ _ ?FM ?FE ?C0] =>
          destruct (addToFileList' FM FE C0) as [[E1 C1]| |] eqn:Ha;
          try discriminate
      end.
      apply addToFileList_effect in Ha.
      destruct Ha as (Extra & -> & Hent & _).
      assert (Hfrom : Forall (fromDisk DB remove_dots
                                (getFileManager (getSourceManager PP))) Extra).
      { eapply Forall_impl; [exact Hent|]. intros x Hx. eexists; exact Hx. }
      destruct E1 as [R|e]; intros [= <- <-]; cbn.
      * repeat split; eauto; try congruence.
        -- intros FE R'. cbn. destruct (decide (Key = FE)) as [<-|Hne].
           ++ rewrite Hl. discriminate.
           ++ now rewrite lookup_insert_ne.
        -- cbn. intros R' [= <-]. now rewrite lookup_insert_eq.
      * repeat split; eauto; try congruence.
    + match goal with
      | |- context [addToFileList _ _ _ ?FM ?FE ?C0] =>
          destruct (addToFileList' FM FE C0) as [[E1 C1]| |] eqn:Ha;
          try discriminate
      end.
      apply addToFileList_effect in Ha.
      destruct Ha as (Extra & -> & Hent & _).
      assert (Hfrom : Forall (fromDisk DB remove_dots
                                (getFileManager (getSourceManager PP))) Extra).
      { eapply Forall_impl; [exact Hent|]. intros x Hx. eexists; exact Hx. }
      destruct E1 as [R|e]; intros [= <- <-]; cbn.
      * repeat split; eauto; try congruence.
        -- intros FE R'. cbn. destruct (decide (Key = FE)) as [<-|Hne].
           ++ rewrite Hl. discriminate.
           ++ now rewrite !lookup_insert_ne.
        -- cbn. intros R' [= <-]. now rewrite lookup_insert_eq.
      * repeat split; eauto; try congruence.
        intros FE R'. cbn. destruct (decide (Key = FE)) as [<-|Hne].
        -- rewrite Hl. discriminate.
        -- now rewrite lookup_insert_ne.
Qed.

(** *** Resolution stays within the contracts of its callees *)

Lemma addToFileList_addFile_returns FE Contents Filename C :
  negb (String.eqb Filename EmptyString) = true ->
  exists E C',
    addToFileList_addFile DB NDEBUG FE Contents Filename C = Returns (E, C').
Proof.
  intros Hne. unfold addToFileList_addFile, assert_.
  destruct NDEBUG; run_monad; rewrite ?Hne;
    destruct (IncludeFile_create DB Filename Contents); eauto.
Qed.

Lemma addToFileList_returns FM FE C :
  negb (String.eqb (getName FE) EmptyString) = true ->
  getObjectRefForFileContent FM (getName FE) <> Value None ->
  exists E C', addToFileList' FM FE C = Returns (E, C').
Proof.
  intros Hname Hcontent. unfold addToFileList.
  destruct (getObjectRefForFileContent FM (getName FE)) as [[Contents|]|ec];
    [|congruence|run_monad; eauto].
  unfold deref. run_monad.
  destruct (negb (tryGetRealPathName FE =? EmptyString)%string) eqn:Hother;
    [destruct (negb (tryGetRealPathName FE =?
                       remove_dots (makeAbsolutePath FM (getName FE)))%string)|].
  - destruct (addToFileList_addFile_returns FE Contents
                (tryGetRealPathName FE) C Hother) as (E1 & C1 & ->).
    destruct E1; [|eauto].
    apply addToFileList_addFile_returns, Hname.
  - apply addToFileList_addFile_returns, Hname.
  - apply addToFileList_addFile_returns, Hname.
Qed.

Lemma getObjectForFile_returns FID C :
  fileWellFormed PP FID = true ->
  exists E C', getObjectForFile' FID C = Returns (E, C').
Proof.
  unfold fileWellFormed, getObjectForFile.
  destruct (bool_decide (getPredefinesFileID PP = FID)).
  - intros Hbuf%bool_decide_eq_true. destruct Hbuf as [Buffer Hbuf].
    run_monad. destruct (PredefinesBufferRef C); [eauto|].
    unfold getObjectForBuffer, deref. rewrite Hbuf. run_monad.
    destruct (storeFromString DB [] Buffer) as [Ref|]; [|eauto].
    destruct (IncludeFile_create DB _ Ref); eauto.
  - destruct (OrigEntry _) as [Key|] eqn:Ho; [|discriminate].
    intros [Hname Hcontent]%andb_true_iff.
    unfold deref, ObjectForFile_subscript, getObjectForFileNonCached, deref.
    run_monad. rewrite Ho.
    assert (Hc : getObjectRefForFileContent (getFileManager (getSourceManager PP))
                   (getName Key) <> Value None).
    { intros Hv. now rewrite Hv in Hcontent. }
    destruct (ObjectForFile C !! Key) as [[R|]|]; [eauto| |].
    + match goal with
      | |- context [addToFileList _ _ _ ?FM ?FE ?C0] =>
          destruct (addToFileList_returns FM FE C0 Hname Hc) as (E1 & C1 & ->)
      end.
      destruct E1; eauto.
    + match goal with
      | |- context [addToFileList _ _ _ ?FM ?FE ?C0] =>
          destruct (addToFileList_returns FM FE C0 Hname Hc) as (E1 & C1 & ->)
      end.
      destruct E1; eauto.
Qed.

(** *** Single events *)

(** Once an error is recorded, an event changes nothing. *)
Lemma handleEvent_after_error ev C :
  is_Some (ErrorToReport C) -> handleEvent' ev C = Returns (tt, C).
Proof.
  intros Herr.
  destruct ev; cbn [handleEvent];
    unfold enteredInclude, exitedInclude,
      handleHasIncludeCheck, hasErrorOccurred; run_monad;
    now rewrite bool_decide_eq_true_2.
Qed.

Lemma handleEvents_after_error evs C :
  is_Some (ErrorToReport C) -> handleEvents' evs C = Returns (tt, C).
Proof.
  intros Herr. induction evs as [|ev evs IH]; [reflexivity|].
  cbn [handleEvents]. unfold bind.
  now rewrite handleEvent_after_error.
Qed.

Lemma handleEvents_app evs1 evs2 C :
  handleEvents' (evs1 ++ evs2) C =
  match handleEvents' evs1 C with
  | Returns (_, C1) => handleEvents' evs2 C1
  | AssertionFailed => AssertionFailed
  | Undefined => Undefined
  end.
Proof.
  revert C. induction evs1 as [|ev evs1 IH]; intros C; [reflexivity|].
  cbn [app handleEvents]. unfold bind.
  destruct (handleEvent' ev C) as [[[] C1]| |]; [apply IH|reflexivity..].
Qed.

Lemma no_error_occurred (C : IncludeTreePPConsumer ObjectRef) :
  ErrorToReport C = None -> hasErrorOccurred C = false.
Proof.
  intros Hn. unfold hasErrorOccurred. apply bool_decide_eq_false_2.
  rewrite Hn. now intros [? ?].
Qed.

(** Entering a file that resolves pushes a frame for it; entering one that
    does not records the failure. *)
Lemma enteredInclude_step FID C E C1 :
  ErrorToReport C = None ->
  getObjectForFile' FID C = Returns (E, C1) ->
  enteredInclude' FID C =
  Returns (tt,
    match E with
    | Success R =>
        set_IncludeStack
          (mkFilePPState
             (getFileCharacteristic
                (getSLocEntry_getFile (getSourceManager PP) FID)) R [] []
           :: IncludeStack C1) C1
    | Failure e => set_ErrorToReport (Some e) C1
    end).
Proof.
  intros Hn Hrun. unfold enteredInclude. run_monad.
  rewrite (no_error_occurred C Hn), Hrun.
  destruct E as [R|e]; [reflexivity|].
  apply getObjectForFile_effect in Hrun as (_ & He & _).
  rewrite check_Failure by congruence. reflexivity.
Qed.

(** A [__has_include] result goes to the end of the top frame's bits. *)
Lemma handleHasIncludeCheck_step Result C Top Rest :
  ErrorToReport C = None ->
  IncludeStack C = Top :: Rest ->
  handleHasIncludeCheck NDEBUG PP Result C =
  Returns (tt,
    set_IncludeStack
      (mkFilePPState (FileCharacteristic Top) (File Top) (Includes Top)
         (HasIncludeChecks Top ++ [Result]) :: Rest) C).
Proof.
  intros Hn Hs. unfold handleHasIncludeCheck, IncludeStack_update_back.
  run_monad. now rewrite (no_error_occurred C Hn), Hs.
Qed.

Lemma isFileOfBack_resolved FID C Top Rest :
  IncludeStack C = Top :: Rest ->
  resolved C FID = Some (File Top) ->
  isFileOfBack DB remove_dots NDEBUG PP FID C = Returns (true, C).
Proof.
  intros Hs Hr. unfold isFileOfBack, bind at 1.
  rewrite (getObjectForFile_resolved FID C (File Top) Hr).
  unfold check, deref, IncludeStack_back. run_monad. rewrite Hs. cbn.
  now rewrite bool_decide_eq_true_2.
Qed.

(** Leaving a file pops its frame, turns it into a node, and appends the
    node with the offset of the inclusion to the frame below; when the
    store refuses the node, the failure is recorded instead. *)
Lemma exitedInclude_step IncludedBy Include ExitLoc C Top Parent Rest :
  ErrorToReport C = None ->
  IncludeStack C = Top :: Parent :: Rest ->
  resolved C Include = Some (File Top) ->
  resolved C IncludedBy = Some (File Parent) ->
  exitedInclude' IncludedBy Include ExitLoc C =
  Returns (tt,
    match getCASTreeForFileIncludes DB Top with
    | Success Tree =>
        set_IncludeStack
          (mkFilePPState (FileCharacteristic Parent) (File Parent)
             (Includes Parent ++
                [(Tree, (getDecomposedExpansionLoc (getSourceManager PP)
                           ExitLoc).2)])
             (HasIncludeChecks Parent) :: Rest) C
    | Failure e => set_ErrorToReport (Some e) (set_IncludeStack (Parent :: Rest) C)
    end).
Proof.
  intros Hn Hs Hchild Hparent. unfold exitedInclude.
  unfold bind at 1, get. rewrite (no_error_occurred C Hn).
  assert (Hfirst : assert_ NDEBUG (isFileOfBack DB remove_dots NDEBUG PP Include) C
                   = Returns (tt, C)).
  { unfold assert_. destruct NDEBUG eqn:HN; [reflexivity|].
    unfold bind. rewrite <- HN at 1.
    now rewrite (isFileOfBack_resolved Include C Top (Parent :: Rest)). }
  unfold bind at 1. rewrite Hfirst.
  unfold IncludeStack_pop_back_val. run_monad. rewrite Hs.
  destruct (getCASTreeForFileIncludes DB Top) as [Tree|e]; cbn [check];
    run_monad; [|now rewrite ErrorToReport_assign_new].
  set (C2 := set_IncludeStack (Parent :: Rest) C).
  assert (Hsecond : assert_ NDEBUG
                      (isFileOfBack DB remove_dots NDEBUG PP IncludedBy) C2
                    = Returns (tt, C2)).
  { unfold assert_. destruct NDEBUG eqn:HN; [reflexivity|].
    unfold bind. rewrite <- HN at 1.
    now rewrite (isFileOfBack_resolved IncludedBy C2 Parent Rest). }
  unfold bind. rewrite Hsecond. unfold IncludeStack_update_back. run_monad.
  reflexivity.
Qed.

(** *** What any event may change *)

Lemma growsTo_refl (C : IncludeTreePPConsumer ObjectRef) : growsTo' C C.
Proof.
  split; [apply memoExtends_refl|]. split; [|reflexivity].
  exists []. now rewrite app_nil_r.
Qed.

Lemma growsTo_trans (C1 C2 C3 : IncludeTreePPConsumer ObjectRef) :
  growsTo' C1 C2 -> growsTo' C2 C3 -> growsTo' C1 C3.
Proof.
  intros (Hm1 & (X1 & Hf1 & Hd1) & Hp1) (Hm2 & (X2 & Hf2 & Hd2) & Hp2).
  split; [eapply memoExtends_trans; eassumption|].
  split; [|congruence].
  exists (X1 ++ X2). split; [now rewrite Hf2, Hf1, app_assoc|].
  apply Forall_app; now split.
Qed.

Lemma growsTo_set_IncludeStack (C : IncludeTreePPConsumer ObjectRef) St :
  growsTo' C (set_IncludeStack St C).
Proof.
  unfold growsTo, memoExtends; cbn. repeat split; auto.
  exists []. now rewrite app_nil_r.
Qed.

Lemma growsTo_set_ErrorToReport (C : IncludeTreePPConsumer ObjectRef) e :
  growsTo' C (set_ErrorToReport e C).
Proof.
  unfold growsTo, memoExtends; cbn. repeat split; auto.
  exists []. now rewrite app_nil_r.
Qed.

Lemma getObjectForFile_growsTo FID C E C' :
  getObjectForFile' FID C = Returns (E, C') -> growsTo' C C'.
Proof.
  intros Hrun. apply getObjectForFile_effect in Hrun.
  destruct Hrun as (_ & _ & Hp & Hm & Hf & _).
  split; [exact Hm|]. split; [exact Hf|exact Hp].
Qed.

(** The condition of the assertions returns only when the file resolves;
    it leaves the stack and the recorded error alone. *)
Lemma isFileOfBack_effect FID C b C' :
  isFileOfBack DB remove_dots NDEBUG PP FID C = Returns (b, C') ->
  IncludeStack C' = IncludeStack C /\
  ErrorToReport C' = ErrorToReport C /\
  growsTo' C C' /\
  exists R Back Rest,
    getObjectForFile' FID C = Returns (Success R, C') /\
    IncludeStack C = Back :: Rest /\
    b = bool_decide (R = File Back).
Proof.
  unfold isFileOfBack, bind at 1.
  destruct (getObjectForFile' FID C) as [[E C1]| |] eqn:Hg; try discriminate.
  pose proof (getObjectForFile_growsTo _ _ _ _ Hg) as Hgrow.
  apply getObjectForFile_effect in Hg as Heff.
  destruct Heff as (Hs & He & _).
  destruct E as [R|e]; unfold check, deref, IncludeStack_back; run_monad.
  - rewrite Hs. destruct (IncludeStack C) as [|Back Rest] eqn:HC; cbn.
    + destruct NDEBUG; discriminate.
    + intros [= <- <-].
      refine (conj Hs (conj He (conj Hgrow _))). eauto 6.
  - unfold ErrorToReport_assign. run_monad.
    destruct (ErrorToReport C1); destruct NDEBUG; discriminate.
Qed.

Lemma assert_isFileOfBack_effect FID C C' :
  assert_ NDEBUG (isFileOfBack DB remove_dots NDEBUG PP FID) C
    = Returns (tt, C') ->
  IncludeStack C' = IncludeStack C /\
  ErrorToReport C' = ErrorToReport C /\
  growsTo' C C'.
Proof.
  unfold assert_. destruct NDEBUG eqn:HN.
  - intros [= <-]. refine (conj eq_refl (conj eq_refl (growsTo_refl _))).
  - unfold bind. rewrite <- HN at 1.
    destruct (isFileOfBack _ _ _ _ _ C) as [[b C1]| |] eqn:Hi;
      try discriminate.
    apply isFileOfBack_effect in Hi. destruct Hi as (Hs & He & Hg & _).
    destruct b; [|discriminate]. now intros [= <-].
Qed.

Lemma handleEvent_growsTo ev C C' :
  handleEvent' ev C = Returns (tt, C') -> growsTo' C C'.
Proof.
  destruct (ErrorToReport C) as [e|] eqn:He.
  { rewrite handleEvent_after_error by (rewrite He; eauto).
    intros [= <-]. apply growsTo_refl. }
  destruct ev as [FID|IncludedBy Include ExitLoc|Result];
    cbn [handleEvent].
  - unfold enteredInclude. run_monad.
    rewrite (no_error_occurred C He).
    destruct (getObjectForFile' FID C) as [[E C1]| |] eqn:Hg; try discriminate.
    apply getObjectForFile_growsTo in Hg.
    destruct E as [R|e]; cbn [check]; run_monad.
    + intros [= <-]. eapply growsTo_trans;
        [exact Hg|apply growsTo_set_IncludeStack].
    + destruct (ErrorToReport_assign NDEBUG e C1) as [[[] C2]| |] eqn:Ha;
        try discriminate.
      apply ErrorToReport_assign_effect in Ha as [-> _].
      intros [= <-]. eapply growsTo_trans;
        [exact Hg|apply growsTo_set_ErrorToReport].
  - unfold exitedInclude, bind at 1, get.
    rewrite (no_error_occurred C He). unfold bind at 1.
    destruct (assert_ _ _ C) as [[[] C1]| |] eqn:H1; try discriminate.
    apply assert_isFileOfBack_effect in H1. destruct H1 as (Hs1 & He1 & Hg1).
    unfold IncludeStack_pop_back_val. run_monad.
    destruct (IncludeStack C1) as [|Top Rest]; [destruct NDEBUG; discriminate|].
    destruct (getCASTreeForFileIncludes DB Top) as [Tree|e]; cbn [check];
      run_monad.
    + match goal with
      | |- context [assert_ ?N ?c ?C0] =>
          destruct (assert_ N c C0) as [[[] C2]| |] eqn:H2; try discriminate
      end.
      apply assert_isFileOfBack_effect in H2. destruct H2 as (Hs2 & He2 & Hg2).
      unfold IncludeStack_update_back. run_monad.
      destruct (IncludeStack C2); [destruct NDEBUG; discriminate|].
      intros [= <-].
      eapply growsTo_trans; [exact Hg1|].
      eapply growsTo_trans; [apply growsTo_set_IncludeStack|].
      eapply growsTo_trans; [exact Hg2|apply growsTo_set_IncludeStack].
    + match goal with
      | |- context [ErrorToReport_assign ?N ?e0 ?C0] =>
          destruct (ErrorToReport_assign N e0 C0) as [[[] C2]| |] eqn:Ha;
          try discriminate
      end.
      apply ErrorToReport_assign_effect in Ha as [-> _].
      intros [= <-]. eapply growsTo_trans; [exact Hg1|].
      eapply growsTo_trans;
        [apply growsTo_set_IncludeStack|apply growsTo_set_ErrorToReport].
  - unfold handleHasIncludeCheck, IncludeStack_update_back. run_monad.
    rewrite (no_error_occurred C He).
    destruct (IncludeStack C); [destruct NDEBUG; discriminate|].
    intros [= <-]. apply growsTo_set_IncludeStack.
Qed.

Lemma handleEvents_growsTo evs C C' :
  handleEvents' evs C = Returns (tt, C') -> growsTo' C C'.
Proof.
  revert C. induction evs as [|ev evs IH]; intros C.
  - intros [= <-]. apply growsTo_refl.
  - cbn [handleEvents]. unfold bind.
    destruct (handleEvent' ev C) as [[[] C1]| |] eqn:H1; try discriminate.
    intros H2. eapply growsTo_trans; [eapply handleEvent_growsTo|]; eauto.
Qed.

(** *** Balanced event sequences *)

Lemma contributionOf_mono (files1 files2 : FileID -> option ObjectRef) B x :
  (forall FID R, files1 FID = Some R -> files2 FID = Some R) ->
  contributionOf DB PP files1 B = Some x ->
  contributionOf DB PP files2 B = Some x.
Proof.
  intros Hle. revert x.
  induction B as [|Result Rest IH|FID Inner IHi ExitLoc Rest IHr];
    intros x; cbn [contributionOf].
  - auto.
  - destruct (contributionOf DB PP files1 Rest) as [[Incs Bits]|];
      [|discriminate].
    now rewrite (IH _ eq_refl).
  - destruct (files1 FID) as [FileRef|] eqn:Hf; [|discriminate].
    destruct (contributionOf DB PP files1 Inner) as [[InnerIncs InnerBits]|];
      [|discriminate].
    destruct (contributionOf DB PP files1 Rest) as [[Incs Bits]|];
      [|discriminate].
    now rewrite (Hle _ _ Hf), (IHi _ eq_refl), (IHr _ eq_refl).
Qed.

Lemma growsTo_resolved C C' FID R :
  growsTo' C C' -> resolved C FID = Some R -> resolved C' FID = Some R.
Proof. intros [Hm _]. now apply memoExtends_resolved. Qed.

Lemma handleEvents_cons ev evs C :
  handleEvents' (ev :: evs) C =
  match handleEvent' ev C with
  | Returns (_, C1) => handleEvents' evs C1
  | AssertionFailed => AssertionFailed
  | Undefined => Undefined
  end.
Proof.
  cbn [handleEvents]. unfold bind.
  destruct (handleEvent' ev C) as [[[] C1]| |]; reflexivity.
Qed.

(** The events of a body, handled with the frame [Top] of the file they
    are lexed in on top of the stack, return; and unless an error is
    recorded on the way, they leave the stack as it was, with the body's
    children and probe bits appended to [Top]. *)
Lemma handleEvents_body B :
  forall Parent C Top Rest,
    Forall (fun FID => fileWellFormed PP FID = true) (filesOf B) ->
    ErrorToReport C = None ->
    IncludeStack C = Top :: Rest ->
    resolved C Parent = Some (File Top) ->
    exists C',
      handleEvents' (eventsOf Parent B) C = Returns (tt, C') /\
      (ErrorToReport C' = None ->
       exists Incs Bits,
         contributionOf DB PP (resolved C') B = Some (Incs, Bits) /\
         IncludeStack C' =
           mkFilePPState (FileCharacteristic Top) (File Top)
             (Includes Top ++ Incs) (HasIncludeChecks Top ++ Bits) :: Rest).
Proof.
  induction B as [|Result RestB IH|FID Inner IHi ExitLoc RestB IHr];
    intros Parent C Top Rest Hwf Hn Hs Hp; cbn [eventsOf filesOf] in *.
  - exists C. split; [reflexivity|]. intros _. exists [], [].
    split; [reflexivity|]. rewrite Hs, !app_nil_r. now destruct Top.
  - rewrite handleEvents_cons. cbn [handleEvent].
    rewrite (handleHasIncludeCheck_step Result C Top Rest Hn Hs).
    cbv beta iota.
    match goal with
    | |- context [handleEvents' _ (set_IncludeStack (?T :: Rest) C)] =>
        set (Top1 := T); set (C1 := set_IncludeStack (Top1 :: Rest) C)
    end.
    destruct (IH Parent C1 Top1 Rest Hwf Hn eq_refl Hp) as (C' & Hrun & Hres).
    exists C'. split; [exact Hrun|]. intros Hn'.
    destruct (Hres Hn') as (Incs & Bits & Hc & Hst).
    cbn [Top1 File Includes HasIncludeChecks FileCharacteristic] in Hst.
    exists Incs, (Result :: Bits). cbn [contributionOf]. rewrite Hc.
    split; [reflexivity|].
    now rewrite Hst, <- app_assoc.
  - apply Forall_cons in Hwf. destruct Hwf as [HwfFID Hwf].
    apply Forall_app in Hwf. destruct Hwf as [HwfI HwfR].
    rewrite handleEvents_cons. cbn [handleEvent].
    destruct (getObjectForFile_returns FID C HwfFID) as (E & C1 & Hg).
    rewrite (enteredInclude_step FID C E C1 Hn Hg). cbv beta iota.
    apply getObjectForFile_effect in Hg as Heff.
    destruct Heff as (Hs1 & He1 & _ & Hm1 & _ & Hr1).
    destruct E as [R|e].
    2:{ eexists. split.
        - apply handleEvents_after_error. cbn. eauto.
        - cbn. discriminate. }
    match goal with
    | |- context [handleEvents' _ (set_IncludeStack (?T :: _) C1)] =>
        set (Frame := T);
        set (C2 := set_IncludeStack (Frame :: IncludeStack C1) C1)
    end.
    assert (HrC2 : resolved C2 FID = Some R) by (apply Hr1; reflexivity).
    assert (HpC2 : resolved C2 Parent = Some (File Top))
      by (eapply memoExtends_resolved; eassumption).
    destruct (IHi FID C2 Frame (IncludeStack C1) HwfI)
      as (C3 & Hrun3 & Hres3);
      [cbn; congruence|reflexivity|exact HrC2|].
    rewrite handleEvents_app, Hrun3.
    pose proof (handleEvents_growsTo _ _ _ Hrun3) as Hg3.
    destruct (ErrorToReport C3) as [e3|] eqn:He3.
    { exists C3. split; [|intros ?; congruence].
      apply handleEvents_after_error. rewrite He3. eauto. }
    destruct (Hres3 eq_refl) as (InnerIncs & InnerBits & Hc3 & Hst3).
    rewrite Hs1, Hs in Hst3.
    cbn [Includes HasIncludeChecks File Frame FileCharacteristic app] in Hst3.
    rewrite handleEvents_cons. cbn [handleEvent].
    erewrite exitedInclude_step;
      [|exact He3|exact Hst3
       |cbn [File]; eapply growsTo_resolved; eassumption
       |eapply growsTo_resolved; eassumption].
    unfold getCASTreeForFileIncludes.
    cbn [File Includes HasIncludeChecks FileCharacteristic].
    destruct (IncludeTree_create DB _ R InnerIncs InnerBits) as [Node|e4]
      eqn:Hnode.
    2:{ eexists. split.
        - apply handleEvents_after_error. cbn. eauto.
        - cbn. discriminate. }
    match goal with
    | |- context [handleEvents' _ (set_IncludeStack (?T :: Rest) C3)] =>
        set (Top4 := T); set (C4 := set_IncludeStack (Top4 :: Rest) C3)
    end.
    destruct (IHr Parent C4 Top4 Rest HwfR) as (C5 & Hrun5 & Hres5);
      [exact He3|reflexivity
       |cbn [File Top4]; eapply growsTo_resolved; eassumption|].
    exists C5. split; [exact Hrun5|]. intros Hn5.
    destruct (Hres5 Hn5) as (Incs & Bits & Hc5 & Hst5).
    pose proof (handleEvents_growsTo _ _ _ Hrun5) as Hg5.
    assert (Hle : forall F R', resolved C3 F = Some R' ->
                               resolved C5 F = Some R').
    { intros F R' HF. eapply growsTo_resolved; [exact Hg5|exact HF]. }
    cbn [contributionOf].
    rewrite (Hle FID R) by (eapply growsTo_resolved; eassumption).
    rewrite (contributionOf_mono _ _ _ _ Hle Hc3), Hc5, Hnode.
    eexists _, _. split; [reflexivity|].
    rewrite Hst5. cbn [Top4 File Includes HasIncludeChecks FileCharacteristic].
    now rewrite <- app_assoc.
Qed.

(** *** Finalization of the tree *)

(** The root [getIncludeTree] makes of the one remaining frame. *)
Lemma getIncludeTree_single C Top :
  ErrorToReport C = None ->
  IncludeStack C = [Top] ->
  getIncludeTree DB NDEBUG C =
  Returns
    (match getCASTreeForFileIncludes DB Top with
     | Success MainIncludeTree =>
         match IncludeFileList_create DB (IncludedFiles C) with
         | Success FileList =>
             IncludeTreeRoot_create DB MainIncludeTree FileList (PCHRef C)
         | Failure e => Failure e
         end
     | Failure e => Failure e
     end,
     set_IncludeStack [] C).
Proof.
  intros Hn Hs. unfold getIncludeTree, assert_, IncludeStack_pop_back_val.
  destruct NDEBUG; run_monad; rewrite Hn, ?Hs; cbn [length];
    rewrite ?bool_decide_eq_true_2 by reflexivity; run_monad; rewrite ?Hs;
    (destruct (getCASTreeForFileIncludes DB Top); [|reflexivity];
     cbn [IncludedFiles set_IncludeStack PCHRef];
     destruct (IncludeFileList_create DB (IncludedFiles C)); reflexivity).
Qed.

(** Once an error is recorded, [getIncludeTree] returns it. *)
Lemma getIncludeTree_after_error C e :
  ErrorToReport C = Some e ->
  getIncludeTree DB NDEBUG C = Returns (Failure e, C).
Proof. intros He. unfold getIncludeTree. run_monad. now rewrite He. Qed.


(** C3: when the resolution of a file fails at an enter event, the failure
    is recorded; whatever enter/exit/probe events follow are accepted and
    leave the consumer exactly as it was when the failure was recorded;
    and [getIncludeTree] then returns that failure, not a root. *)
Theorem C3_first_failure_is_sticky Pre C0 C FID e C1 Post :
  handleEvents' Pre C0 = Returns (tt, C) ->
  ErrorToReport C = None ->
  getObjectForFile' FID C = Returns (Failure e, C1) ->
  let Failed := set_ErrorToReport (Some e) C1 in
  handleEvents' (Pre ++ [EnteredInclude FID]) C0 = Returns (tt, Failed) /\
  ErrorToReport Failed = Some e /\
  handleEvents' (Pre ++ EnteredInclude FID :: Post) C0 = Returns (tt, Failed) /\
  (forall ev, handleEvent' ev Failed = Returns (tt, Failed)) /\
  getIncludeTree DB NDEBUG Failed = Returns (Failure e, Failed).
Proof.
  intros Hpre Hn Hg Failed.
  assert (Henter : enteredInclude' FID C = Returns (tt, Failed))
    by (now rewrite (enteredInclude_step FID C _ C1 Hn Hg)).
  assert (Herr : is_Some (ErrorToReport Failed)) by (cbn; eauto).
  split; [|split; [reflexivity|split; [|split]]].
  - rewrite handleEvents_app, Hpre, handleEvents_cons.
    cbn [handleEvent]. now rewrite Henter.
  - rewrite handleEvents_app, Hpre, handleEvents_cons.
    cbn [handleEvent]. rewrite Henter.
    now apply handleEvents_after_error.
  - intros ev. now apply handleEvent_after_error.
  - now apply getIncludeTree_after_error.
Qed.

(** C6: adding a file whose content and file nodes can be stored. When the
    file has a real path that differs from its name made absolute and free
    of dots, the manifest gains two entries, the node of the real path and
    then the node of the name, both over the one content reference; when
    the real path is that canonical path (or the file has no real path),
    the manifest gains the node of the name only. *)
Theorem C6_symlink_alias_entries FM FE C Contents Node :
  negb (String.eqb (getName FE) EmptyString) = true ->
  getObjectRefForFileContent FM (getName FE) = Value (Some Contents) ->
  IncludeFile_create DB (getName FE) Contents = Success Node ->
  let Real := tryGetRealPathName FE in
  let Canonical := remove_dots (makeAbsolutePath FM (getName FE)) in
  let Size := FileSizeTy_cast DB (getSize FE) in
  (Real <> EmptyString -> Real <> Canonical ->
   forall RealNode,
     IncludeFile_create DB Real Contents = Success RealNode ->
     addToFileList' FM FE C =
     Returns (Success Node,
              set_IncludedFiles
                (IncludedFiles C ++ [(RealNode, Size); (Node, Size)]) C)) /\
  (Real = Canonical \/ Real = EmptyString ->
   addToFileList' FM FE C =
   Returns (Success Node,
            set_IncludedFiles (IncludedFiles C ++ [(Node, Size)]) C)).
Proof.
  intros Hname Hcontent Hnode Real Canonical Size.
  assert (Hadd : forall Path N C0,
             negb (String.eqb Path EmptyString) = true ->
             IncludeFile_create DB Path Contents = Success N ->
             addToFileList_addFile DB NDEBUG FE Contents Path C0 =
             Returns (Success N,
                      set_IncludedFiles (IncludedFiles C0 ++ [(N, Size)]) C0)).
  { intros Path N C0 Hp Hc. unfold addToFileList_addFile, assert_.
    destruct NDEBUG; run_monad; rewrite ?Hp, Hc; reflexivity. }
  split.
  - intros Hreal Hdiff RealNode Hrealnode.
    unfold addToFileList. rewrite Hcontent.
    unfold deref. run_monad. fold Real Canonical.
    assert (Hr : negb (String.eqb Real EmptyString) = true).
    { destruct (String.eqb_spec Real EmptyString); [contradiction|reflexivity]. }
    assert (Hd : negb (String.eqb Real Canonical) = true).
    { destruct (String.eqb_spec Real Canonical); [contradiction|reflexivity]. }
    rewrite Hr, Hd, (Hadd Real RealNode C Hr Hrealnode).
    rewrite (Hadd (getName FE) Node _ Hname Hnode).
    unfold set_IncludedFiles; cbn. now rewrite <- app_assoc.
  - intros Hsame. unfold addToFileList. rewrite Hcontent.
    unfold deref. run_monad. fold Real Canonical.
    destruct Hsame as [Heq|Hempty].
    + rewrite Heq, String.eqb_refl. cbn [negb].
      destruct (negb (Canonical =? EmptyString)%string);
        now rewrite (Hadd (getName FE) Node C Hname Hnode).
    + rewrite Hempty. cbn [String.eqb negb].
      now rewrite (Hadd (getName FE) Node C Hname Hnode).
Qed.


(** C10: a request for the predefines buffer never touches the manifest
    nor the per-file memo; when it succeeds the reference is memoized;
    once memoized, every request, after any further events, returns the
    memoized reference and changes nothing. And whatever events a new
    consumer handles, every entry of its manifest is the file node of a
    file on disk. *)
Theorem C10_predefines_memoized_outside_manifest :
  (forall C E C',
      getObjectForFile' (getPredefinesFileID PP) C = Returns (E, C') ->
      IncludedFiles C' = IncludedFiles C /\
      ObjectForFile C' = ObjectForFile C /\
      (forall R, E = Success R -> PredefinesBufferRef C' = Some R) /\
      (forall R, PredefinesBufferRef C = Some R -> E = Success R /\ C' = C)) /\
  (forall C R evs C2,
      PredefinesBufferRef C = Some R ->
      handleEvents' evs C = Returns (tt, C2) ->
      getObjectForFile' (getPredefinesFileID PP) C2 = Returns (Success R, C2)) /\
  (forall evs C',
      handleEvents' evs newIncludeTreePPConsumer = Returns (tt, C') ->
      Forall (fromDisk DB remove_dots (getFileManager (getSourceManager PP)))
        (IncludedFiles C')).
Proof.
  split; [|split].
  - intros C E C'. unfold getObjectForFile.
    rewrite bool_decide_eq_true_2 by reflexivity. run_monad.
    destruct (PredefinesBufferRef C) as [R|] eqn:Hp.
    + intros [= <- <-]. rewrite Hp. repeat split; try congruence.
    + destruct (getObjectForBuffer DB NDEBUG _ C) as [[E1 C1]| |] eqn:Hb;
        try discriminate.
      apply getObjectForBuffer_effect in Hb. subst C1.
      destruct E1 as [R|e]; intros [= <- <-]; cbn;
        repeat split; congruence.
  - intros C R evs C2 Hp Hevs.
    apply getObjectForFile_resolved.
    eapply growsTo_resolved; [eapply handleEvents_growsTo; exact Hevs|].
    unfold resolvedFile. now rewrite bool_decide_eq_true_2.
  - intros evs C' Hevs.
    apply handleEvents_growsTo in Hevs as (_ & (Extra & -> & Hfrom) & _).
    exact Hfrom.
Qed.

End IncludeTreeProperties.

(** ** Sorting by UID *)

Lemma sort_insert_Permutation {A} (lt : A -> A -> bool) x v :
  sort_insert lt x v ≡ₚ x :: v.
Proof.
  induction v as [|y v IH]; simpl; [reflexivity|].
  destruct (lt y x); [|reflexivity].
  rewrite IH. apply Permutation_swap.
Qed.

Lemma llvm_sort_Permutation {A} (lt : A -> A -> bool) v : llvm_sort lt v ≡ₚ v.
Proof.
  induction v as [|x v IH]; simpl; [reflexivity|].
  now rewrite sort_insert_Permutation, IH.
Qed.

Lemma uid_lt_trans : Transitive uid_lt.
Proof. unfold uid_lt. intros a b c. lia. Qed.

Lemma uid_lt_antisymm : AntiSymm (=) uid_lt.
Proof. unfold uid_lt. intros a b. lia. Qed.

Lemma sort_insert_Sorted x v :
  Sorted uid_lt v ->
  Forall (fun y => getUID y <> getUID x) v ->
  Sorted uid_lt (sort_insert uid_less x v).
Proof.
  induction v as [|y v IH]; intros Hs Hne; simpl.
  - repeat constructor.
  - apply Sorted_inv in Hs as [Hs Hhd].
    apply Forall_cons in Hne as [Hy Hne].
    unfold uid_less. destruct (Nat.ltb_spec (getUID y) (getUID x)) as [Hlt|Hge].
    + constructor; [now apply IH|].
      destruct v as [|z v]; simpl.
      * now constructor.
      * destruct (Nat.ltb (getUID z) (getUID x)); constructor;
          [now inversion Hhd|exact Hlt].
    + constructor; [now constructor|]. constructor. unfold uid_lt. lia.
Qed.

Lemma llvm_sort_Sorted v :
  NoDup (map getUID v) -> Sorted uid_lt (llvm_sort uid_less v).
Proof.
  induction v as [|x v IH]; simpl; intros Hnd; [constructor|].
  apply NoDup_cons in Hnd as [Hx Hnd].
  apply sort_insert_Sorted; [now apply IH|].
  rewrite llvm_sort_Permutation. apply Forall_forall. intros y Hy Heq.
  apply Hx. rewrite <- Heq. now apply list_elem_of_fmap_2.
Qed.

(** Sorting by UID forgets the order files with distinct UIDs arrive in. *)
Lemma llvm_sort_unique v1 v2 :
  v1 ≡ₚ v2 -> NoDup (map getUID v1) ->
  llvm_sort uid_less v1 = llvm_sort uid_less v2.
Proof.
  intros Hp Hnd.
  apply (@Sorted_unique _ uid_lt uid_lt_trans uid_lt_antisymm).
  - now apply llvm_sort_Sorted.
  - apply llvm_sort_Sorted. now rewrite <- Hp.
  - now rewrite !llvm_sort_Permutation.
Qed.

Lemma filter_Permutation {A} (f : A -> bool) (v1 v2 : list A) :
  v1 ≡ₚ v2 -> List.filter f v1 ≡ₚ List.filter f v2.
Proof.
  induction 1 as [|x v1 v2 _ IH|x y v|v1 v2 v3 _ IH1 _ IH2]; simpl.
  - reflexivity.
  - destruct (f x); now rewrite IH.
  - destruct (f x), (f y); try reflexivity. apply Permutation_swap.
  - now rewrite IH1.
Qed.

Lemma filter_NoDup_uid (f : FileEntry -> bool) (v : list FileEntry) :
  NoDup (map getUID v) -> NoDup (map getUID (List.filter f v)).
Proof.
  induction v as [|x v IH]; simpl; intros Hnd; [constructor|].
  apply NoDup_cons in Hnd as [Hx Hnd].
  destruct (f x); simpl; [|now apply IH].
  apply NoDup_cons. split; [|now apply IH].
  intros Hin. apply Hx.
  apply list_elem_of_fmap in Hin as (y & -> & Hy).
  apply list_elem_of_fmap_2. apply list_elem_of_In.
  apply list_elem_of_In in Hy. apply List.filter_In in Hy. tauto.
Qed.

(** ** Finalization of the manifest *)

Section FinalizeProperties.

Context {ObjectRef : Type} `{EqDecision ObjectRef}.
Variable DB : ObjectStore ObjectRef.
Variable remove_dots : string -> string.
Variable path_append : string -> string -> string.
Variable NDEBUG : bool.

Local Abbreviation addToFileList' := (addToFileList DB remove_dots NDEBUG).
Local Abbreviation finalize_addFile' :=
  (finalize_addFile DB remove_dots NDEBUG).
Local Abbreviation finalize_NoSanitizeFiles' :=
  (finalize_NoSanitizeFiles DB remove_dots NDEBUG).
Local Abbreviation finalize_NotSeenIncludes' :=
  (finalize_NotSeenIncludes DB remove_dots NDEBUG).
Local Abbreviation finalize' := (finalize DB remove_dots path_append NDEBUG).
Local Abbreviation manifestChunkOf' := (manifestChunkOf DB remove_dots).

(** What the file-adding steps of [finalize] have in common: the manifest
    grows, the seen bits stay, a recorded error is never cleared, and a
    step that stops [finalize] has recorded an error. *)
Lemma finalize_addFile_effect FM FilePath IgnoreFileError C b C' :
  finalize_addFile' FM FilePath IgnoreFileError C = Returns (b, C') ->
  (exists Extra, IncludedFiles C' = IncludedFiles C ++ Extra) /\
  SeenIncludeFiles C' = SeenIncludeFiles C /\
  (b = false -> is_Some (ErrorToReport C')) /\
  (is_Some (ErrorToReport C) -> is_Some (ErrorToReport C')).
Proof.
  unfold finalize_addFile.
  destruct (getFile FM FilePath) as [FE|ec].
  - unfold bind.
    destruct (addToFileList' FM FE C) as [[E C1]| |] eqn:Ha; try discriminate.
    apply addToFileList_effect in Ha as (Extra & -> & _).
    destruct E as [R|e];
      [run_monad; intros [= <- <-]
      |intros Hr; apply ErrorToReport_assign_ret in Hr as [-> ->]];
      cbn; (split; [eauto|]); (split; [reflexivity|]); split; eauto;
      discriminate.
  - destruct IgnoreFileError;
      [run_monad; intros [= <- <-]
      |intros Hr; apply ErrorToReport_assign_ret in Hr as [-> ->]];
      cbn; (split; [exists []; now rewrite app_nil_r|]);
      (split; [reflexivity|]); split; eauto; discriminate.
Qed.

Lemma finalize_NoSanitizeFiles_effect FM Files C b C' :
  finalize_NoSanitizeFiles' FM Files C = Returns (b, C') ->
  (exists Extra, IncludedFiles C' = IncludedFiles C ++ Extra) /\
  SeenIncludeFiles C' = SeenIncludeFiles C /\
  (b = false -> is_Some (ErrorToReport C')) /\
  (is_Some (ErrorToReport C) -> is_Some (ErrorToReport C')).
Proof.
  revert C. induction Files as [|FilePath Files IH]; intros C;
    cbn [finalize_NoSanitizeFiles].
  - intros [= <- <-]. split; [exists []; now rewrite app_nil_r|].
    split; [reflexivity|]. split; [discriminate|auto].
  - unfold bind.
    destruct (finalize_addFile' FM FilePath false C) as [[Ok C1]| |] eqn:H1;
      try discriminate.
    apply finalize_addFile_effect in H1 as ([X1 Hf1] & Hs1 & Hb1 & He1).
    destruct Ok.
    + intros H2. apply IH in H2 as ([X2 Hf2] & Hs2 & Hb2 & He2).
      split; [exists (X1 ++ X2); now rewrite Hf2, Hf1, app_assoc|].
      split; [congruence|]. split; auto.
    + intros [= <- <-]. split; [eauto|]. split; [exact Hs1|]. split; auto.
Qed.

Lemma finalize_NotSeenIncludes_effect FM Files C b C' :
  finalize_NotSeenIncludes' FM Files C = Returns (b, C') ->
  (is_Some (ErrorToReport C) -> is_Some (ErrorToReport C')) /\
  (b = false -> is_Some (ErrorToReport C')) /\
  (b = true ->
   exists Chunks,
     Forall2 (manifestChunkOf' FM) Files Chunks /\
     C' = set_IncludedFiles (IncludedFiles C ++ concat Chunks) C).
Proof.
  revert C. induction Files as [|FE Files IH]; intros C;
    cbn [finalize_NotSeenIncludes].
  - intros [= <- <-]. split; [auto|]. split; [discriminate|].
    intros _. exists []. split; [constructor|]. apply set_IncludedFiles_nil.
  - unfold bind.
    destruct (addToFileList' FM FE C) as [[E C1]| |] eqn:Ha; try discriminate.
    apply addToFileList_effect in Ha as (Extra & -> & _ & Hok).
    destruct E as [R|e].
    + destruct (Hok R eq_refl) as (Contents & Nodes & Hc & Hn & _ & ->).
      intros H2. apply IH in H2 as (He2 & Hb2 & Ht2).
      split; [exact He2|]. split; [exact Hb2|].
      intros Hb. destruct (Ht2 Hb) as (Chunks & HF & ->).
      eexists (_ :: Chunks). split.
      * constructor; [|exact HF]. exists Contents, Nodes. now repeat split.
      * cbn [concat]. apply set_IncludedFiles_app.
    + intros Hr. apply ErrorToReport_assign_ret in Hr as [-> ->]. cbn.
      split; [eauto|]. split; [eauto|discriminate].
Qed.

(** A recorded error survives [finalize]. *)
Lemma finalize_keeps_error CI C C' :
  is_Some (ErrorToReport C) ->
  finalize' CI C = Returns (tt, C') ->
  is_Some (ErrorToReport C').
Proof.
  intros He. unfold finalize, bind at 1.
  destruct (finalize_NoSanitizeFiles' _ _ C) as [[Ok C1]| |] eqn:H1;
    try discriminate.
  apply finalize_NoSanitizeFiles_effect in H1 as (_ & _ & Hb1 & He1).
  specialize (He1 He).
  destruct Ok; cbn [negb]; [|now intros [= <-]].
  unfold bind at 1.
  match goal with
  | |- match ?m C1 with _ => _ end = _ -> _ =>
      assert (Hsys : forall u C2, m C1 = Returns (u, C2) ->
                                  is_Some (ErrorToReport C2));
      [|destruct (m C1) as [[[] C2]| |] eqn:H2; try discriminate;
        specialize (Hsys _ _ eq_refl)]
  end.
  { intros u C2. destruct (negb _); run_monad.
    - destruct (finalize_addFile' _ _ true C1) as [[b Cx]| |] eqn:Hx;
        try discriminate.
      apply finalize_addFile_effect in Hx as (_ & _ & _ & Hex).
      intros [= _ <-]. auto.
    - intros [= _ <-]. exact He1. }
  destruct (String.eqb (ImplicitPCHInclude CI) EmptyString); [now intros [= <-]|].
  run_monad.
  match goal with
  | |- context [finalize_NotSeenIncludes' ?FM ?Fs C2] =>
      destruct (finalize_NotSeenIncludes' FM Fs C2) as [[Ok3 C3]| |] eqn:H3;
      try discriminate
  end.
  apply finalize_NotSeenIncludes_effect in H3 as (He3 & _ & _).
  specialize (He3 Hsys).
  destruct Ok3; cbn [negb]; [|now intros [= <-]].
  destruct (getObjectRefForFileContent _ _) as [[Ref|]|ec]; unfold deref;
    run_monad.
  - intros [= <-]. exact He3.
  - destruct NDEBUG; discriminate.
  - intros Hr. apply ErrorToReport_assign_effect in Hr as [-> _]. cbn. eauto.
Qed.

(** Events are handled the same whatever the enumeration of the included
    files is. *)
Lemma handleEvents_withIncludedFiles Files CI evs C :
  handleEvents DB remove_dots NDEBUG
    (CI_getPreprocessor (withIncludedFiles Files CI)) evs C
  = handleEvents DB remove_dots NDEBUG (CI_getPreprocessor CI) evs C.
Proof.
  revert C. induction evs as [|ev evs IH]; intros C; [reflexivity|].
  cbn [handleEvents]. unfold bind.
  replace (handleEvent DB remove_dots NDEBUG
             (CI_getPreprocessor (withIncludedFiles Files CI)) ev C)
    with (handleEvent DB remove_dots NDEBUG (CI_getPreprocessor CI) ev C)
    by (destruct ev; reflexivity).
  destruct (handleEvent _ _ _ _ ev C) as [[[] C1]| |]; [apply IH|reflexivity..].
Qed.

(** [finalize] does not depend on the order the included files are
    enumerated in, as long as their UIDs are distinct. *)
Lemma finalize_withIncludedFiles Files CI C :
  Files ≡ₚ getIncludedFiles (CI_getPreprocessor CI) ->
  NoDup (map getUID Files) ->
  finalize' (withIncludedFiles Files CI) C = finalize' CI C.
Proof.
  intros Hperm Hnd. unfold finalize.
  cbn [withIncludedFiles CI_getFileManager NoSanitizeFiles Sysroot
         ImplicitPCHInclude CI_getPreprocessor getIncludedFiles].
  apply bind_ext. intros Ok C1.
  destruct (negb Ok); [reflexivity|].
  apply bind_ext. intros [] C2.
  destruct (String.eqb (ImplicitPCHInclude CI) EmptyString); [reflexivity|].
  run_monad.
  rewrite (llvm_sort_unique
             (List.filter (notSeenInclude (SeenIncludeFiles C2)) Files)
             (List.filter (notSeenInclude (SeenIncludeFiles C2))
                (getIncludedFiles (CI_getPreprocessor CI)))).
  - reflexivity.
  - now apply filter_Permutation.
  - now apply filter_NoDup_uid.
Qed.

End FinalizeProperties.

(** ** Call sequences the consumer does not expect *)

Section AssertionProperties.

Context {ObjectRef : Type} `{EqDecision ObjectRef}.
Variable DB : ObjectStore ObjectRef.
Variable remove_dots : string -> string.
Variable PP : Preprocessor ObjectRef.

(** In a build with assertions the resolution of a file returns or fails
    an assertion. *)
Lemma addToFileList_addFile_defined FE Contents Filename C :
  addToFileList_addFile DB false FE Contents Filename C <> Undefined.
Proof.
  unfold addToFileList_addFile, assert_. run_monad.
  destruct (negb _); [|discriminate].
  destruct (IncludeFile_create DB Filename Contents); discriminate.
Qed.

Lemma addToFileList_defined FM FE C :
  addToFileList DB remove_dots false FM FE C <> Undefined.
Proof.
  unfold addToFileList.
  destruct (getObjectRefForFileContent FM (getName FE)) as [[Contents|]|ec];
    [|discriminate..].
  unfold deref. run_monad.
  destruct (negb (tryGetRealPathName FE =? EmptyString)%string);
    [destruct (negb (tryGetRealPathName FE =?
                       remove_dots (makeAbsolutePath FM (getName FE)))%string)|];
    try apply addToFileList_addFile_defined.
  destruct (addToFileList_addFile DB false FE Contents
              (tryGetRealPathName FE) C) as [[[R|e] C1]| |] eqn:H1;
    try discriminate.
  - apply addToFileList_addFile_defined.
  - now apply addToFileList_addFile_defined in H1.
Qed.

Lemma getObjectForFile_defined FID C :
  getObjectForFile DB remove_dots false PP FID C <> Undefined.
Proof.
  unfold getObjectForFile.
  destruct (bool_decide (getPredefinesFileID PP = FID)).
  - run_monad. destruct (PredefinesBufferRef C); [discriminate|].
    unfold getObjectForBuffer, deref. run_monad.
    destruct (getBufferIfLoaded _) as [Buffer|]; [|discriminate].
    destruct (storeFromString DB [] Buffer) as [Ref|]; [|discriminate].
    destruct (IncludeFile_create DB _ Ref); discriminate.
  - unfold deref, ObjectForFile_subscript, getObjectForFileNonCached, deref.
    run_monad.
    destruct (OrigEntry _) as [Key|]; [|discriminate].
    destruct (ObjectForFile C !! Key) as [[R|]|]; [discriminate| |];
      match goal with
      | |- context [addToFileList _ _ _ ?FM ?FE ?C0] =>
          pose proof (addToFileList_defined FM FE C0) as Hd;
          destruct (addToFileList DB remove_dots false FM FE C0)
            as [[[R|e] C1]| |]; try discriminate; try contradiction
      end.
Qed.

(** The condition of the assertions fails an assertion itself when there
    is no frame. *)
Lemma isFileOfBack_no_frame FID C :
  IncludeStack C = [] ->
  isFileOfBack DB remove_dots false PP FID C = AssertionFailed.
Proof.
  intros Hs. unfold isFileOfBack, bind at 1.
  pose proof (getObjectForFile_defined FID C) as Hd.
  destruct (getObjectForFile DB remove_dots false PP FID C)
    as [[E C1]| |] eqn:Hg; [|reflexivity|contradiction].
  apply getObjectForFile_effect in Hg as (Hs1 & _).
  destruct E as [R|e]; unfold check, deref, IncludeStack_back; run_monad.
  - now rewrite Hs1, Hs.
  - unfold ErrorToReport_assign. run_monad.
    now destruct (ErrorToReport C1).
Qed.

(** The condition of the assertions is false when the file resolves to
    another file node than that of the top frame. *)
Lemma isFileOfBack_mismatch FID C R C1 Top Rest :
  IncludeStack C = Top :: Rest ->
  getObjectForFile DB remove_dots false PP FID C = Returns (Success R, C1) ->
  R <> File Top ->
  isFileOfBack DB remove_dots false PP FID C = Returns (false, C1).
Proof.
  intros Hs Hg Hne. unfold isFileOfBack, bind at 1. rewrite Hg.
  apply getObjectForFile_effect in Hg as (Hs1 & _).
  unfold check, deref, IncludeStack_back. run_monad. rewrite Hs1, Hs. cbn.
  now rewrite bool_decide_eq_false_2.
Qed.

(** C8 (as the code has it): in a build with assertions, and as long as no
    failure is recorded, an assertion fails for a probe or an exit event
    with no open frame; for [getIncludeTree] with any number of open
    frames other than one; for an exit event whose file resolves to
    another file node than that of the top frame; and, once the top frame
    is stored as a node, for an exit event whose includer resolves to
    another file node than that of the frame below. Once a failure is
    recorded, in any build, every event returns and leaves the consumer as
    it is, and [getIncludeTree] returns the recorded failure, whatever
    frames are open. *)
Theorem C8_assertions_when_no_failure_recorded C :
  (ErrorToReport C = None ->
  (IncludeStack C = [] ->
   forall Result, handleHasIncludeCheck false PP Result C = AssertionFailed) /\
  (IncludeStack C = [] ->
   forall IncludedBy Include ExitLoc,
     exitedInclude DB remove_dots false PP IncludedBy Include ExitLoc C
     = AssertionFailed) /\
  (length (IncludeStack C) <> 1%nat ->
   getIncludeTree DB false C = AssertionFailed) /\
  (forall IncludedBy Include ExitLoc Top Rest R C1,
      IncludeStack C = Top :: Rest ->
      getObjectForFile DB remove_dots false PP Include C
      = Returns (Success R, C1) ->
      R <> File Top ->
      exitedInclude DB remove_dots false PP IncludedBy Include ExitLoc C
      = AssertionFailed) /\
  (forall IncludedBy Include ExitLoc Top Parent Rest C1 Tree R C2,
      IncludeStack C = Top :: Parent :: Rest ->
      getObjectForFile DB remove_dots false PP Include C
      = Returns (Success (File Top), C1) ->
      getCASTreeForFileIncludes DB Top = Success Tree ->
      getObjectForFile DB remove_dots false PP IncludedBy
        (set_IncludeStack (Parent :: Rest) C1)
      = Returns (Success R, C2) ->
      R <> File Parent ->
      exitedInclude DB remove_dots false PP IncludedBy Include ExitLoc C
      = AssertionFailed)) /\
  (forall e NDEBUG,
      ErrorToReport C = Some e ->
      (forall ev,
          handleEvent DB remove_dots NDEBUG PP ev C = Returns (tt, C)) /\
      getIncludeTree DB NDEBUG C = Returns (Failure e, C)).
Proof.
  split.
  2:{ intros e NDEBUG He. split.
      - intros ev. apply handleEvent_after_error. rewrite He. eauto.
      - now apply getIncludeTree_after_error. }
  intros Hn. pose proof (no_error_occurred C Hn) as Hno.
  split; [|split; [|split; [|split]]].
  - intros Hs Result. unfold handleHasIncludeCheck, IncludeStack_update_back.
    run_monad. now rewrite Hno, Hs.
  - intros Hs IncludedBy Include ExitLoc.
    unfold exitedInclude, bind at 1, get. rewrite Hno.
    unfold bind at 1, assert_, bind at 1.
    now rewrite (isFileOfBack_no_frame Include C Hs).
  - intros Hlen. unfold getIncludeTree, assert_. run_monad. rewrite Hn.
    now rewrite bool_decide_eq_false_2.
  - intros IncludedBy Include ExitLoc Top Rest R C1 Hs Hg Hne.
    unfold exitedInclude, bind at 1, get. rewrite Hno.
    unfold bind at 1, assert_, bind at 1.
    now rewrite (isFileOfBack_mismatch Include C R C1 Top Rest Hs Hg Hne).
  - intros IncludedBy Include ExitLoc Top Parent Rest C1 Tree R C2
      Hs Hg Htree Hg2 Hne.
    assert (H1 : isFileOfBack DB remove_dots false PP Include C
                 = Returns (true, C1)).
    { unfold isFileOfBack, bind at 1. rewrite Hg.
      apply getObjectForFile_effect in Hg as (Hs1 & _).
      unfold check, deref, IncludeStack_back. run_monad. rewrite Hs1, Hs. cbn.
      now rewrite bool_decide_eq_true_2. }
    assert (H2 : isFileOfBack DB remove_dots false PP IncludedBy
                   (set_IncludeStack (Parent :: Rest) C1)
                 = Returns (false, C2))
      by (now apply isFileOfBack_mismatch
            with (R := R) (Top := Parent) (Rest := Rest)).
    apply getObjectForFile_effect in Hg as (Hs1 & _).
    rewrite Hs in Hs1.
    unfold exitedInclude, assert_, IncludeStack_pop_back_val. run_monad.
    rewrite Hno, H1. cbv beta iota. rewrite Hs1, Htree. cbn [check].
    run_monad. now rewrite H2.
Qed.

End AssertionProperties.

(** ** The sample translation unit *)


(** The main file includes [a.h] at offset 120, which includes [b.h] at
    offset 40: the root has the one child ([a.h]'s node, 120), [a.h]'s node
    has the one child ([b.h]'s node, 40), and each node has the probe
    results of its own file. *)
Example sample_tree :
  let B_node := "tree(system,file(b.h,blob[]<int b;>),[],[])" in
  let A_node := "tree(user,file(a.h,blob[]<#include b>),["
                +:+ B_node +:+ "@40;],[0;])" in
  IncludeTree_create Sample.Store C_System "file(b.h,blob[]<int b;>)" [] []
    = Success B_node /\
  IncludeTree_create Sample.Store C_User "file(a.h,blob[]<#include b>)"
    [(B_node, 40%N)] [false] = Success A_node /\
  contributionOf Sample.Store Sample.PP
    (resolvedFile Sample.PP Sample.afterScan) Sample.body
    = Some ([(A_node, 120%N)], [true]) /\
  Sample.consumerAfter false Sample.scan = Returns (tt, Sample.afterScan) /\
  IncludeStack Sample.afterScan =
    [mkFilePPState C_User "file(main.c,blob[]<int main;>)"
       [(A_node, 120%N)] [true]] /\
  Sample.consumerAfter true Sample.scan = Sample.consumerAfter false Sample.scan.
Proof.
  cbv zeta. split; [|split; [|split; [|split; [|split]]]];
    vm_compute; reflexivity.
Qed.

Lemma C3_first_failure_is_sticky_witness :
  let Failed := set_ErrorToReport (Some (ErrorCode 2)) Sample.afterGone in
  let Pre := [EnteredInclude 2%Z; EnteredInclude 3%Z] in
  let Post := [HasIncludeCheck true; ExitedInclude 3%Z 5%Z 3010%Z;
               EnteredInclude 4%Z] in
  handleEvents Sample.Store Sample.remove_dots false Sample.PP
    (Pre ++ [EnteredInclude 5%Z]) newIncludeTreePPConsumer
  = Returns (tt, Failed) /\
  ErrorToReport Failed = Some (ErrorCode 2) /\
  handleEvents Sample.Store Sample.remove_dots false Sample.PP
    (Pre ++ EnteredInclude 5%Z :: Post) newIncludeTreePPConsumer
  = Returns (tt, Failed) /\
  (forall ev, handleEvent Sample.Store Sample.remove_dots false Sample.PP ev
                Failed = Returns (tt, Failed)) /\
  getIncludeTree Sample.Store false Failed
  = Returns (Failure (ErrorCode 2), Failed).
Proof.
  apply (C3_first_failure_is_sticky Sample.Store Sample.remove_dots false
           Sample.PP [EnteredInclude 2%Z; EnteredInclude 3%Z]
           newIncludeTreePPConsumer Sample.afterA 5%Z (ErrorCode 2)
           Sample.afterGone).
  - vm_compute. reflexivity.
  - vm_compute. reflexivity.
  - vm_compute. reflexivity.
Defined.

(** After the sample scan, [finalize] adds the two files that came with the
    precompiled header and were never entered, [pch2.h] (UID 6) before
    [pch1.h] (UID 7), though the preprocessor enumerates [pch1.h] first; the
    main file, which was entered, is not added again. *)
Example sample_finalize :
  exists C',
    finalize Sample.Store Sample.remove_dots Sample.path_append false Sample.CI
      Sample.afterScan = Returns (tt, C') /\
    ErrorToReport C' = None /\
    PCHRef C' = Some "blob[]<PCH>" /\
    IncludedFiles C' =
      IncludedFiles Sample.afterScan
      ++ [("file(pch2.h,blob[]<int p2;>)", 60%Z);
          ("file(pch1.h,blob[]<int p1;>)", 70%Z)].
Proof. eexists. split; [vm_compute; reflexivity|]. now vm_compute. Qed.

Lemma C6_symlink_alias_entries_witness :
  let FE := Sample.entry "link.h" in
  let C := @newIncludeTreePPConsumer string in
  (tryGetRealPathName FE <> EmptyString ->
   tryGetRealPathName FE <> Sample.remove_dots (makeAbsolutePath Sample.FM "link.h") ->
   forall RealNode,
     IncludeFile_create Sample.Store "/src/real.h" "blob[]<int real;>"
       = Success RealNode ->
     addToFileList Sample.Store Sample.remove_dots false Sample.FM FE C =
     Returns (Success "file(link.h,blob[]<int real;>)",
              set_IncludedFiles
                (IncludedFiles C ++ [(RealNode, 30%Z);
                                     ("file(link.h,blob[]<int real;>)", 30%Z)])
                C)) /\
  (tryGetRealPathName FE = Sample.remove_dots (makeAbsolutePath Sample.FM "link.h")
   \/ tryGetRealPathName FE = EmptyString ->
   addToFileList Sample.Store Sample.remove_dots false Sample.FM FE C =
   Returns (Success "file(link.h,blob[]<int real;>)",
            set_IncludedFiles
              (IncludedFiles C ++ [("file(link.h,blob[]<int real;>)", 30%Z)])
              C)).
Proof.
  apply (C6_symlink_alias_entries Sample.Store Sample.remove_dots false
           Sample.FM (Sample.entry "link.h") newIncludeTreePPConsumer
           "blob[]<int real;>" "file(link.h,blob[]<int real;>)");
    vm_compute; reflexivity.
Defined.

(** [link.h] is a symbolic link to [/src/real.h]: two entries over one
    content reference; [a.h] is its own real path: one entry. *)
Example sample_symlink :
  addToFileList Sample.Store Sample.remove_dots false Sample.FM
    (Sample.entry "link.h") newIncludeTreePPConsumer
  = Returns (Success "file(link.h,blob[]<int real;>)",
             set_IncludedFiles
               [("file(/src/real.h,blob[]<int real;>)", 30%Z);
                ("file(link.h,blob[]<int real;>)", 30%Z)]
               newIncludeTreePPConsumer) /\
  addToFileList Sample.Store Sample.remove_dots false Sample.FM
    (Sample.entry "a.h") newIncludeTreePPConsumer
  = Returns (Success "file(a.h,blob[]<#include b>)",
             set_IncludedFiles [("file(a.h,blob[]<#include b>)", 100%Z)]
               newIncludeTreePPConsumer).
Proof. split; vm_compute; reflexivity. Qed.


(** [a.h] is included a second time (file ID 7) after [b.h] was entered: the
    manifest still lists [a.h] once. *)
Example sample_reinclusion :
  exists C',
    enteredInclude Sample.Store Sample.remove_dots false Sample.PP 7%Z
      Sample.afterReinclusion = Returns (tt, C') /\
    IncludedFiles C' = IncludedFiles Sample.afterReinclusion /\
    IncludedFiles C' =
      [("file(main.c,blob[]<int main;>)", 200%Z);
       ("file(a.h,blob[]<#include b>)", 100%Z);
       ("file(b.h,blob[]<int b;>)", 50%Z)].
Proof. eexists. split; [vm_compute; reflexivity|]. split; reflexivity. Qed.

(** In a build with assertions: after a failure is recorded,
    [getIncludeTree] with two frames still open returns the failure, and a
    probe with no open frame is accepted; neither fails an assertion. *)
Lemma C8_counterexample :
  ~ (forall C : IncludeTreePPConsumer string,
        (1 < length (IncludeStack C))%nat ->
        getIncludeTree Sample.Store false C = AssertionFailed) /\
  ~ (forall (C : IncludeTreePPConsumer string) (Result : bool),
        IncludeStack C = [] ->
        handleHasIncludeCheck false Sample.PP Result C = AssertionFailed).
Proof.
  split; intros Hclaim.
  - specialize (Hclaim Sample.failed). vm_compute in Hclaim.
    specialize (Hclaim (le_n 2)). discriminate.
  - specialize (Hclaim Sample.failedAtMain true eq_refl).
    vm_compute in Hclaim. discriminate.
Qed.

Lemma C8_assertions_when_no_failure_recorded_witness :
  ErrorToReport (@newIncludeTreePPConsumer string) = None /\
  handleHasIncludeCheck false Sample.PP true newIncludeTreePPConsumer
  = AssertionFailed /\
  exitedInclude Sample.Store Sample.remove_dots false Sample.PP 2%Z 3%Z 2120%Z
    newIncludeTreePPConsumer = AssertionFailed /\
  getIncludeTree Sample.Store false newIncludeTreePPConsumer = AssertionFailed /\
  ErrorToReport Sample.failed = Some (ErrorCode 2) /\
  length (IncludeStack Sample.failed) = 2%nat /\
  handleEvent Sample.Store Sample.remove_dots false Sample.PP
    (ExitedInclude 2%Z 4%Z 2120%Z) Sample.failed
  = Returns (tt, Sample.failed) /\
  getIncludeTree Sample.Store false Sample.failed
  = Returns (Failure (ErrorCode 2), Sample.failed).
Proof.
  split; [reflexivity|].
  destruct (proj1 (C8_assertions_when_no_failure_recorded Sample.Store
                     Sample.remove_dots Sample.PP newIncludeTreePPConsumer)
              eq_refl)
    as (Hprobe & Hexit & Hroot & _).
  split; [apply Hprobe; reflexivity|].
  split; [apply Hexit; reflexivity|].
  split; [apply Hroot; discriminate|].
  split; [vm_compute; reflexivity|]. split; [vm_compute; reflexivity|].
  destruct (proj2 (C8_assertions_when_no_failure_recorded Sample.Store
                     Sample.remove_dots Sample.PP Sample.failed)
              (ErrorCode 2) false)
    as (Hevents & Htree); [vm_compute; reflexivity|].
  split; [apply Hevents|exact Htree].
Defined.

(** With the main file and [a.h] open, an exit event for [b.h]: an assertion
    fails in a build with assertions; in a build without, the frame of [a.h]
    is popped and appended to the main file's frame as if it were the one
    that was left. Once a failure is recorded the events are ignored. *)
Example sample_unexpected_exit :
  exitedInclude Sample.Store Sample.remove_dots false Sample.PP 2%Z 4%Z 2120%Z
    Sample.afterA = AssertionFailed /\
  (exists C', exitedInclude Sample.Store Sample.remove_dots true Sample.PP
                2%Z 4%Z 2120%Z Sample.afterA = Returns (tt, C') /\
              ErrorToReport C' = None /\
              length (IncludeStack C') = 1%nat) /\
  exitedInclude Sample.Store Sample.remove_dots false Sample.PP 2%Z 4%Z 2120%Z
    Sample.failed = Returns (tt, Sample.failed).
Proof.
  split; [vm_compute; reflexivity|]. split.
  - eexists. split; [vm_compute; reflexivity|]. split; reflexivity.
  - vm_compute. reflexivity.
Qed.

(** Two scans in a row: the second is told that [M] is already seen. [M] is
    imported by the main file, [T] is not. *)
Example sample_module_dedup :
  let evs : list (DependencyEvent unit) :=
    [ModuleDependencyEvent Sample.moduleT; ModuleDependencyEvent Sample.moduleM] in
  let Seen : gset string := {[ Sample.identityKey (ID Sample.moduleM) ]} in
  let C := FDC_run Sample.identityKey evs
             (newFullDependencyConsumer Seen Sample.lookupOutput) in
  exists R,
    getFullDependencies C ["clang"; "-c"; "a.c"] None = Returns R /\
    DiscoveredModules R = [Sample.moduleT] /\
    FD_ClangModuleDeps (FullDeps R) = [ID Sample.moduleM] /\
    FD_CommandLine (FullDeps R) =
      ["-c"; "a.c"; "-fno-implicit-modules"; "-fno-implicit-module-maps";
       "-fmodule-file=/out/M.pcm"].
Proof.
  eexists. split; [reflexivity|]. split; [|split]; vm_compute; reflexivity.
Qed.

(** The predefines buffer is the first file of the sample scan when the
    preprocessor enters it: it gets a frame, its node is memoized, and the
    manifest stays empty. *)
Example sample_predefines :
  exists C',
    Sample.consumerAfter false [EnteredInclude 1%Z; EnteredInclude 1%Z]
    = Returns (tt, C') /\
    PredefinesBufferRef C' = Some "file(<built-in>,blob[]<#define X 1>)" /\
    IncludedFiles C' = [] /\
    length (IncludeStack C') = 2%nat.
Proof.
  eexists. split; [vm_compute; reflexivity|]. split; [|split]; reflexivity.
Qed.


(** ** More on the command line and the aggregator *)

Lemma filter_filter_same {A} (f : A -> bool) (l : list A) :
  List.filter f (List.filter f l) = List.filter f l.
Proof.
  induction l as [|x l IH]; simpl; [reflexivity|].
  destruct (f x) eqn:Hx; simpl; [now rewrite Hx, IH|exact IH].
Qed.

(** X1: no argument of the rewritten command line is one of the removed
    flags; every other argument of the original is kept; and rewriting a
    rewritten command line removes nothing more, it only appends the two
    flags once more. *)
Theorem makeTUCommandLineWithoutPaths_again (Args : list string) :
  Forall (fun Arg => unusedInExplicitCompile Arg = false)
    (makeTUCommandLineWithoutPaths Args) /\
  (forall Arg, In Arg Args -> unusedInExplicitCompile Arg = false ->
               In Arg (makeTUCommandLineWithoutPaths Args)) /\
  makeTUCommandLineWithoutPaths (makeTUCommandLineWithoutPaths Args) =
  makeTUCommandLineWithoutPaths Args
  ++ ["-fno-implicit-modules"; "-fno-implicit-module-maps"].
Proof.
  unfold makeTUCommandLineWithoutPaths, erase_if.
  rewrite <- !app_assoc. cbn [app]. split; [|split].
  - apply Forall_forall. intros Arg HIn. apply list_elem_of_In in HIn.
    apply List.filter_In in HIn as [_ Hk].
    now destruct (unusedInExplicitCompile Arg).
  - intros Arg HIn Hk. apply List.filter_In. split.
    + apply in_or_app. now left.
    + now rewrite Hk.
  - rewrite (List.filter_app _ (List.filter _ _)), filter_filter_same.
    reflexivity.
Qed.

Lemma directImports_lookup_ext Lookup1 Lookup2 deps Mods Cmd :
  (forall I, Lookup1 I ModuleFile = Lookup2 I ModuleFile) ->
  directImports Lookup1 deps Mods Cmd = directImports Lookup2 deps Mods Cmd.
Proof.
  intros Hagree. revert Mods Cmd.
  induction deps as [|[Key MD] deps IH]; intros Mods Cmd; simpl; [reflexivity|].
  destruct (ImportedByMainFile MD); [|apply IH].
  rewrite Hagree. apply IH.
Qed.

(** X2: the module-output callback is consulted for module files only: two
    callbacks that agree on [ModuleFile] give the same full-dependency
    result, whatever they answer for the other kinds of output. *)
Theorem getFullDependencies_asks_for_module_files_only
    (Lookup1 Lookup2 : ModuleID -> ModuleOutputKind -> string)
    (C : FullDependencyConsumer) (CommandLine : list string)
    (RootID : option string) :
  (forall I, Lookup1 I ModuleFile = Lookup2 I ModuleFile) ->
  getFullDependencies (withLookupModuleOutput Lookup1 C) CommandLine RootID
  = getFullDependencies (withLookupModuleOutput Lookup2 C) CommandLine RootID.
Proof.
  intros Hagree. unfold getFullDependencies.
  destruct (slice1 CommandLine) as [Sliced| |]; [|reflexivity..].
  cbn [withLookupModuleOutput PrebuiltModuleDeps LookupModuleOutput
         ClangModuleDeps ContextHash Dependencies AlreadySeen].
  now rewrite (directImports_lookup_ext Lookup1 Lookup2 _ _ _ Hagree).
Qed.

Lemma getFullDependencies_asks_for_module_files_only_witness :
  (forall I, Sample.lookupOutput I ModuleFile = Sample.lookupOutput2 I ModuleFile)
  /\ Sample.lookupOutput (ID Sample.moduleM) DependencyFile
     <> Sample.lookupOutput2 (ID Sample.moduleM) DependencyFile
  /\ getFullDependencies
       (withLookupModuleOutput Sample.lookupOutput Sample.aggregated)
       ["clang"; "-c"; "a.c"] None
     = getFullDependencies
         (withLookupModuleOutput Sample.lookupOutput2 Sample.aggregated)
         ["clang"; "-c"; "a.c"] None.
Proof.
  split; [reflexivity|]. split; [discriminate|].
  apply (getFullDependencies_asks_for_module_files_only Sample.lookupOutput
           Sample.lookupOutput2 Sample.aggregated ["clang"; "-c"; "a.c"] None).
  reflexivity.
Defined.

(** X3: in the full-dependency result the command line ends with one
    module-file flag per prebuilt module of the result followed by one per
    directly imported module of the result, in the order of those lists; the
    file dependencies, the context hash and the file-system root are those
    the consumer was given. *)
Theorem getFullDependencies_flags_follow_module_lists
    (C : FullDependencyConsumer) (Program : string) (Args : list string)
    (RootID : option string) :
  exists R,
    getFullDependencies C (Program :: Args) RootID = Returns R /\
    FD_CommandLine (FullDeps R) =
      makeTUCommandLineWithoutPaths Args
      ++ map (fun PMD => moduleFileFlag (PCMFile PMD))
           (FD_PrebuiltModuleDeps (FullDeps R))
      ++ map (fun I => moduleFileFlag (LookupModuleOutput C I ModuleFile))
           (FD_ClangModuleDeps (FullDeps R)) /\
    FD_FileDeps (FullDeps R) = Dependencies C /\
    FD_ContextHash (FullDeps R) = ContextHash C /\
    FD_CASFileSystemRootID (FullDeps R) = RootID.
Proof.
  unfold getFullDependencies. cbn [slice1].
  rewrite prebuilt_flags, directImports_spec.
  eexists. split; [reflexivity|].
  cbn [FullDeps FD_CommandLine FD_PrebuiltModuleDeps FD_ClangModuleDeps
         FD_FileDeps FD_ContextHash FD_CASFileSystemRootID app].
  split; [|repeat split].
  now rewrite map_map, <- app_assoc.
Qed.

(** X4: the discovered modules are a partition of the stored records by
    their key: a record stored under a key that is not already seen is
    discovered, and every discovered record is stored under a key that is
    not already seen; nothing is discovered that is not stored, and the
    discovered modules are no more than the stored records. *)
Theorem getFullDependencies_discovers_unseen_keys
    (C : FullDependencyConsumer) (Program : string) (Args : list string)
    (RootID : option string) :
  exists R,
    getFullDependencies C (Program :: Args) RootID = Returns R /\
    (forall Key MD, In (Key, MD) (ClangModuleDeps C) ->
                    Key ∉ AlreadySeen C -> In MD (DiscoveredModules R)) /\
    (forall MD, In MD (DiscoveredModules R) ->
                exists Key, In (Key, MD) (ClangModuleDeps C) /\
                            Key ∉ AlreadySeen C) /\
    (length (DiscoveredModules R) <= length (ClangModuleDeps C))%nat.
Proof.
  unfold getFullDependencies. cbn [slice1].
  rewrite prebuilt_flags, directImports_spec, discoveredModules_spec.
  eexists. split; [reflexivity|]. cbn [DiscoveredModules app].
  split; [|split].
  - intros Key MD HIn Hns. apply in_map_iff. exists (Key, MD).
    split; [reflexivity|]. apply List.filter_In. split; [exact HIn|].
    cbn. now rewrite bool_decide_eq_false_2.
  - intros MD HIn. apply in_map_iff in HIn as ([Key MD'] & <- & HIn).
    apply List.filter_In in HIn as [HIn Hk]. exists Key. split; [exact HIn|].
    cbn in Hk. intros Hs. now rewrite bool_decide_eq_true_2 in Hk.
  - rewrite length_map. apply List.filter_length_le.
Qed.

(** X5: the facade returns the worker's error without asking the consumer;
    with the CAS file system a failure to make the tree of the accesses is
    returned, and a result carries the ID of that tree; without it the tree
    is never consulted and a result carries no file-system root. *)
Theorem DependencyScanningTool_getFullDependencies_cases
    (useCAS : bool) (Consumer : FullDependencyConsumer)
    (Tree : Expected string) (CommandLine : list string) :
  (forall E,
      DependencyScanningTool_getFullDependencies useCAS Consumer (Some E)
        Tree CommandLine = Returns (Failure E)) /\
  (forall e,
      Tree = Failure e ->
      DependencyScanningTool_getFullDependencies true Consumer None Tree
        CommandLine = Returns (Failure e)) /\
  (forall TreeID FDR,
      Tree = Success TreeID ->
      DependencyScanningTool_getFullDependencies true Consumer None Tree
        CommandLine = Returns (Success FDR) ->
      FD_CASFileSystemRootID (FullDeps FDR) = Some TreeID) /\
  (forall Tree',
      DependencyScanningTool_getFullDependencies false Consumer None Tree
        CommandLine
      = DependencyScanningTool_getFullDependencies false Consumer None Tree'
          CommandLine) /\
  (forall FDR,
      DependencyScanningTool_getFullDependencies false Consumer None Tree
        CommandLine = Returns (Success FDR) ->
      FD_CASFileSystemRootID (FullDeps FDR) = None).
Proof.
  assert (Hroot : forall RootID FDR,
             getFullDependencies Consumer CommandLine RootID = Returns FDR ->
             FD_CASFileSystemRootID (FullDeps FDR) = RootID).
  { intros RootID FDR. unfold getFullDependencies.
    destruct (slice1 CommandLine); try discriminate.
    destruct (directImports _ _ _ _). now intros [= <-]. }
  unfold DependencyScanningTool_getFullDependencies.
  split; [reflexivity|]. split; [now intros e ->|].
  split; [|split; [reflexivity|]].
  - intros TreeID FDR -> Hrun.
    destruct (getFullDependencies Consumer CommandLine (Some TreeID)) eqn:Hg;
      try discriminate.
    injection Hrun as <-. now apply Hroot.
  - intros FDR Hrun.
    destruct (getFullDependencies Consumer CommandLine None) eqn:Hg;
      try discriminate.
    injection Hrun as <-. now apply Hroot.
Qed.

(** X6: [getDependencyFile] returns the worker's error whatever the consumer
    has seen, even no output options; without an error and without output
    options the assertion of [printDependencies] fails (the behaviour is
    undefined with [NDEBUG]); otherwise the text is what the generator made
    from the last output options writes after [addDependency] for every
    file dependency, in the order of the events and duplicates included. *)
Theorem getDependencyFile_cases
    (DependencyOutputOptions DependencyFileGenerator : Type)
    (newDependencyFileGenerator :
       DependencyOutputOptions -> DependencyFileGenerator)
    (addDependency : string -> DependencyFileGenerator -> DependencyFileGenerator)
    (outputDependencyFile : DependencyFileGenerator -> string)
    (NDEBUG : bool) (evs : list (DependencyEvent DependencyOutputOptions)) :
  (forall E,
      getDependencyFile newDependencyFileGenerator addDependency
        outputDependencyFile NDEBUG evs (Some E) = Returns (Failure E)) /\
  (outputOptsEvents evs = [] ->
   getDependencyFile newDependencyFileGenerator addDependency
     outputDependencyFile NDEBUG evs None
   = if NDEBUG then Undefined else AssertionFailed) /\
  (forall DO,
      last (outputOptsEvents evs) = Some DO ->
      getDependencyFile newDependencyFileGenerator addDependency
        outputDependencyFile NDEBUG evs None
      = Returns (Success
                   (outputDependencyFile
                      (fold_left (fun G Dep => addDependency Dep G)
                         (fileDependencyEvents evs)
                         (newDependencyFileGenerator DO))))).
Proof.
  unfold getDependencyFile, printDependencies. rewrite MDP_run_state.
  cbn [MDP_Opts MDP_Dependencies newMakeDependencyPrinterConsumer app].
  split; [reflexivity|]. split.
  - intros ->. cbn. now destruct NDEBUG.
  - intros DO ->. reflexivity.
Qed.

(** ** More on the include-tree builder *)

Section IncludeTreeMore.

Context {ObjectRef : Type} `{EqDecision ObjectRef}.
Variable DB : ObjectStore ObjectRef.
Variable remove_dots : string -> string.
Variable NDEBUG : bool.
Variable PP : Preprocessor ObjectRef.

Local Abbreviation addToFileList' := (addToFileList DB remove_dots NDEBUG).
Local Abbreviation getObjectForFile' := (getObjectForFile DB remove_dots NDEBUG PP).
Local Abbreviation getObjectForFileNonCached' :=
  (getObjectForFileNonCached DB remove_dots NDEBUG).
Local Abbreviation exitedInclude' := (exitedInclude DB remove_dots NDEBUG PP).
Local Abbreviation handleEvent' := (handleEvent DB remove_dots NDEBUG PP).
Local Abbreviation handleEvents' := (handleEvents DB remove_dots NDEBUG PP).
Local Abbreviation resolved := (resolvedFile PP).

(** X7: how [addToFileList] fails. An unreadable content is returned as the
    error of its error code and nothing changes; so is a real-path node the
    store refuses. When the node of the real path is stored and the node of
    the name is refused, the failure is returned and the entry of the real
    path stays in the manifest. A content the file manager has no reference
    for fails the assertion (undefined behaviour with [NDEBUG]). *)
Theorem addToFileList_failures FM FE C :
  let Real := tryGetRealPathName FE in
  let Canonical := remove_dots (makeAbsolutePath FM (getName FE)) in
  let Size := FileSizeTy_cast DB (getSize FE) in
  (forall ec,
      getObjectRefForFileContent FM (getName FE) = ErrorCodeOf ec ->
      addToFileList' FM FE C = Returns (Failure (errorCodeToError ec), C)) /\
  (getObjectRefForFileContent FM (getName FE) = Value None ->
   addToFileList' FM FE C = if NDEBUG then Undefined else AssertionFailed) /\
  (forall Contents e,
      getObjectRefForFileContent FM (getName FE) = Value (Some Contents) ->
      Real <> EmptyString -> Real <> Canonical ->
      IncludeFile_create DB Real Contents = Failure e ->
      addToFileList' FM FE C = Returns (Failure e, C)) /\
  (forall Contents RealNode e,
      getObjectRefForFileContent FM (getName FE) = Value (Some Contents) ->
      negb (String.eqb (getName FE) EmptyString) = true ->
      Real <> EmptyString -> Real <> Canonical ->
      IncludeFile_create DB Real Contents = Success RealNode ->
      IncludeFile_create DB (getName FE) Contents = Failure e ->
      addToFileList' FM FE C =
      Returns (Failure e,
               set_IncludedFiles (IncludedFiles C ++ [(RealNode, Size)]) C)).
Proof.
  intros Real Canonical Size.
  assert (Hne : forall (a b : string), a <> b -> negb (String.eqb a b) = true).
  { intros a b Hab. destruct (String.eqb_spec a b); [contradiction|reflexivity]. }
  split; [|split; [|split]].
  - intros ec Hc. unfold addToFileList. now rewrite Hc.
  - intros Hc. unfold addToFileList, deref. rewrite Hc. run_monad.
    now destruct NDEBUG.
  - intros Contents e Hc Hr Hd Hnode. unfold addToFileList. rewrite Hc.
    unfold deref. run_monad. fold Real Canonical.
    rewrite (Hne _ _ Hr), (Hne _ _ Hd).
    unfold addToFileList_addFile, assert_.
    destruct NDEBUG; run_monad; rewrite ?(Hne _ _ Hr), Hnode; reflexivity.
  - intros Contents RealNode e Hc Hname Hr Hd Hreal Hnode.
    unfold addToFileList. rewrite Hc.
    unfold deref. run_monad. fold Real Canonical.
    rewrite (Hne _ _ Hr), (Hne _ _ Hd).
    unfold addToFileList_addFile, assert_.
    destruct NDEBUG; run_monad;
      rewrite ?(Hne _ _ Hr), Hreal; run_monad; rewrite ?Hname, Hnode;
      reflexivity.
Qed.

(** *** The seen bits *)

Lemma notSeenInclude_mark (Seen : list bool) (FE FE' : FileEntry) :
  let Marked :=
    bitvector_set (getUID FE)
      (if bool_decide (length Seen <= getUID FE)%nat
       then bitvector_resize (getUID FE + 1) Seen else Seen) in
  notSeenInclude Marked FE = false /\
  (getUID FE' <> getUID FE ->
   notSeenInclude Marked FE' = notSeenInclude Seen FE').
Proof.
  intros Marked. unfold notSeenInclude, bitvector_test.
  assert (Hgrown : exists Pad,
             (if bool_decide (length Seen <= getUID FE)%nat
              then bitvector_resize (getUID FE + 1) Seen else Seen)
             = Seen ++ replicate Pad false /\
             (getUID FE < length Seen + Pad)%nat).
  { case_bool_decide as Hlen.
    - exists (getUID FE + 1 - length Seen)%nat. split; [|lia].
      unfold bitvector_resize. apply take_ge.
      rewrite length_app, length_replicate. lia.
    - exists 0%nat. cbn. rewrite app_nil_r. split; [reflexivity|lia]. }
  destruct Hgrown as (Pad & Hgrown & Hlt).
  subst Marked. rewrite Hgrown. unfold bitvector_set.
  assert (Hlen : length (<[getUID FE:=true]> (Seen ++ replicate Pad false))
                 = (length Seen + Pad)%nat)
    by (now rewrite length_insert, length_app, length_replicate).
  split.
  - rewrite Hlen, bool_decide_eq_false_2 by lia.
    rewrite list_lookup_insert_eq
      by (rewrite length_app, length_replicate; lia).
    reflexivity.
  - intros Hother. rewrite Hlen, list_lookup_insert_ne by congruence.
    destruct (decide (getUID FE' < length Seen)%nat) as [Hin|Hout].
    + rewrite lookup_app_l by exact Hin.
      rewrite !bool_decide_eq_false_2 by lia. reflexivity.
    + rewrite (bool_decide_eq_true_2 (length Seen <= getUID FE')%nat) by lia.
      cbn [orb].
      destruct (decide (getUID FE' < length Seen + Pad)%nat) as [Hpad|Hfar].
      * rewrite bool_decide_eq_false_2 by lia.
        rewrite lookup_app_r by lia.
        rewrite lookup_replicate_2 by lia. reflexivity.
      * now rewrite bool_decide_eq_true_2 by lia.
Qed.

Lemma getObjectForFileNonCached_effect FM FI FE C E C' :
  OrigEntry (getContentCache FI) = Some FE ->
  getObjectForFileNonCached' FM FI C = Returns (E, C') ->
  ObjectForFile C' = ObjectForFile C /\
  notSeenInclude (SeenIncludeFiles C') FE = false /\
  (forall FE', getUID FE' <> getUID FE ->
               notSeenInclude (SeenIncludeFiles C') FE'
               = notSeenInclude (SeenIncludeFiles C) FE').
Proof.
  intros Ho. unfold getObjectForFileNonCached, deref. rewrite Ho. run_monad.
  match goal with
  | |- context [addToFileList ?D ?r ?N ?F ?X ?C0] =>
      destruct (addToFileList D r N F X C0) as [[E1 C1]| |] eqn:Ha;
      try discriminate
  end.
  apply addToFileList_effect in Ha as (Extra & -> & _).
  intros [= _ <-].
  cbn [SeenIncludeFiles ObjectForFile set_IncludedFiles set_SeenIncludeFiles].
  split; [reflexivity|].
  split; [exact (proj1 (notSeenInclude_mark _ FE FE))|].
  intros FE' Hother. exact (proj2 (notSeenInclude_mark _ FE FE') Hother).
Qed.

(** X8: [getObjectForFileNonCached] marks the file as seen before it adds
    it to the manifest, whether that succeeds or not, and changes the seen
    state of no file with another UID. *)
Theorem getObjectForFileNonCached_marks_seen FM FI FE C E C' :
  OrigEntry (getContentCache FI) = Some FE ->
  getObjectForFileNonCached' FM FI C = Returns (E, C') ->
  notSeenInclude (SeenIncludeFiles C') FE = false /\
  (forall FE', getUID FE' <> getUID FE ->
               notSeenInclude (SeenIncludeFiles C') FE'
               = notSeenInclude (SeenIncludeFiles C) FE').
Proof.
  intros Ho Hrun.
  now destruct (getObjectForFileNonCached_effect FM FI FE C E C' Ho Hrun)
    as (_ & Hmark & Hothers).
Qed.

(** *** Invariants under the events *)

Lemma notSeenInclude_same_UID Seen FE FE' :
  getUID FE' = getUID FE -> notSeenInclude Seen FE' = notSeenInclude Seen FE.
Proof. unfold notSeenInclude. now intros ->. Qed.

Lemma getObjectForFile_seenCoversMemo FID C E C' :
  seenCoversMemo C ->
  getObjectForFile' FID C = Returns (E, C') ->
  seenCoversMemo C'.
Proof.
  intros Hinv. unfold getObjectForFile.
  destruct (bool_decide (getPredefinesFileID PP = FID)).
  - run_monad. destruct (PredefinesBufferRef C) as [R|].
    + now intros [= _ <-].
    + destruct (getObjectForBuffer DB NDEBUG _ C) as [[E1 C1]| |] eqn:Hb;
        try discriminate.
      apply getObjectForBuffer_effect in Hb. subst C1.
      destruct E1; now intros [= _ <-].
  - unfold deref at 1. unfold bind at 1.
    destruct (OrigEntry _) as [Key|] eqn:Ho;
      [|unfold invalid; destruct NDEBUG; discriminate].
    unfold ret at 1. unfold ObjectForFile_subscript. run_monad.
    assert (Hstep : forall C0 E1 C1,
               (forall FE, FE <> Key -> is_Some (ObjectForFile C0 !! FE) ->
                           is_Some (ObjectForFile C !! FE)) ->
               SeenIncludeFiles C0 = SeenIncludeFiles C ->
               getObjectForFileNonCached' (getFileManager (getSourceManager PP))
                 (getSLocEntry_getFile (getSourceManager PP) FID) C0
               = Returns (E1, C1) ->
               forall M, (forall FE, FE <> Key -> M !! FE = ObjectForFile C0 !! FE) ->
                         seenCoversMemo (set_ObjectForFile M C1)).
    { intros C0 E1 C1 Hdom Hseen Hn M HM FE.
      apply (getObjectForFileNonCached_effect _ _ Key) in Hn as (_ & Hkey & Hother);
        [|exact Ho].
      cbn [ObjectForFile SeenIncludeFiles set_ObjectForFile].
      destruct (decide (getUID FE = getUID Key)) as [Heq|Hd].
      - intros _. now rewrite (notSeenInclude_same_UID _ Key FE Heq).
      - intros HFE. rewrite Hother, Hseen by exact Hd. apply Hinv, Hdom.
        + congruence.
        + rewrite <- HM; [exact HFE|congruence]. }
    assert (Hsame : forall C1 : IncludeTreePPConsumer ObjectRef,
               set_ObjectForFile (ObjectForFile C1) C1 = C1)
      by (now intros []).
    destruct (ObjectForFile C !! Key) as [[R|]|] eqn:Hl.
    + now intros [= _ <-].
    + match goal with
      | |- context [getObjectForFileNonCached ?D ?r ?N ?F ?I ?C0] =>
          destruct (getObjectForFileNonCached D r N F I C0)
            as [[E1 C1]| |] eqn:Hn; try discriminate
      end.
      pose proof Hn as Hmemo.
      apply (getObjectForFileNonCached_effect _ _ Key) in Hmemo as (Hmemo & _);
        [|exact Ho].
      destruct E1 as [R|e]; intros [= _ <-].
      * eapply Hstep; [| |exact Hn|]; auto.
        intros FE HFE. cbn. now rewrite lookup_insert_ne, Hmemo by congruence.
      * rewrite <- (Hsame C1). eapply Hstep; [| |exact Hn|]; auto.
        intros FE HFE. now rewrite Hmemo.
    + match goal with
      | |- context [getObjectForFileNonCached ?D ?r ?N ?F ?I ?C0] =>
          destruct (getObjectForFileNonCached D r N F I C0)
            as [[E1 C1]| |] eqn:Hn; try discriminate
      end.
      pose proof Hn as Hmemo.
      apply (getObjectForFileNonCached_effect _ _ Key) in Hmemo as (Hmemo & _);
        [|exact Ho].
      cbn [ObjectForFile set_ObjectForFile] in Hmemo.
      destruct E1 as [R|e]; intros [= _ <-].
      * eapply Hstep; [| |exact Hn|].
        -- intros FE HFE. cbn. now rewrite lookup_insert_ne by congruence.
        -- reflexivity.
        -- intros FE HFE. cbn. now rewrite lookup_insert_ne, Hmemo by congruence.
      * rewrite <- (Hsame C1). eapply Hstep; [| |exact Hn|].
        -- intros FE HFE. cbn. now rewrite lookup_insert_ne by congruence.
        -- reflexivity.
        -- intros FE HFE. now rewrite Hmemo.
Qed.

(** The condition of an assertion of [exitedInclude] changes the consumer as
    one resolution does, if it is evaluated at all. *)
Lemma assert_isFileOfBack_preserves (P : IncludeTreePPConsumer ObjectRef -> Prop)
    FID C C' :
  (forall F C0 E C1, P C0 -> getObjectForFile' F C0 = Returns (E, C1) -> P C1) ->
  P C ->
  assert_ NDEBUG (isFileOfBack DB remove_dots NDEBUG PP FID) C
    = Returns (tt, C') ->
  P C'.
Proof.
  intros Hres HP. unfold assert_. destruct NDEBUG eqn:HN.
  - now intros [= <-].
  - unfold bind. rewrite <- HN at 1.
    destruct (isFileOfBack _ _ _ _ _ C) as [[b C1]| |] eqn:Hi;
      try discriminate.
    apply isFileOfBack_effect in Hi as (_ & _ & _ & R & Back & Rest & Hg & _).
    destruct b; [|discriminate]. intros [= <-]. rewrite HN in Hg.
    eapply Hres; eassumption.
Qed.

(** A property of the consumer that does not depend on the include stack
    nor on the recorded error, and that a resolution keeps, is kept by
    every event. *)
Lemma handleEvent_preserves (P : IncludeTreePPConsumer ObjectRef -> Prop) :
  (forall C St, P C -> P (set_IncludeStack St C)) ->
  (forall C e, P C -> P (set_ErrorToReport e C)) ->
  (forall F C0 E C1, P C0 -> getObjectForFile' F C0 = Returns (E, C1) -> P C1) ->
  forall ev C C', P C -> handleEvent' ev C = Returns (tt, C') -> P C'.
Proof.
  intros Hstack Herr Hres ev C C' HP.
  destruct (ErrorToReport C) as [e|] eqn:He.
  { rewrite handleEvent_after_error by (rewrite He; eauto). now intros [= <-]. }
  destruct ev as [FID|IncludedBy Include ExitLoc|Result]; cbn [handleEvent].
  - unfold enteredInclude. run_monad. rewrite (no_error_occurred C He).
    destruct (getObjectForFile' FID C) as [[E C1]| |] eqn:Hg; try discriminate.
    apply (Hres _ _ _ _ HP) in Hg.
    destruct E; cbn [check]; run_monad; [|assign_step]; intros [= <-]; auto.
  - unfold exitedInclude, bind at 1, get.
    rewrite (no_error_occurred C He). unfold bind at 1.
    destruct (assert_ _ _ C) as [[[] C1]| |] eqn:H1; try discriminate.
    apply (assert_isFileOfBack_preserves P _ _ _ Hres HP) in H1.
    unfold IncludeStack_pop_back_val. run_monad.
    destruct (IncludeStack C1) as [|Top Rest]; [destruct NDEBUG; discriminate|].
    destruct (getCASTreeForFileIncludes DB Top) as [Tree|e]; cbn [check];
      run_monad.
    + match goal with
      | |- context [assert_ ?N ?c ?C0] =>
          destruct (assert_ N c C0) as [[[] C2]| |] eqn:H2; try discriminate
      end.
      apply (assert_isFileOfBack_preserves P _ _ _ Hres) in H2; [|auto].
      unfold IncludeStack_update_back. run_monad.
      destruct (IncludeStack C2); [destruct NDEBUG; discriminate|].
      intros [= <-]. auto.
    + assign_step. intros [= <-]. auto.
  - unfold handleHasIncludeCheck, IncludeStack_update_back. run_monad.
    rewrite (no_error_occurred C He).
    destruct (IncludeStack C); [destruct NDEBUG; discriminate|].
    intros [= <-]. auto.
Qed.

Lemma handleEvents_preserves (P : IncludeTreePPConsumer ObjectRef -> Prop) :
  (forall C St, P C -> P (set_IncludeStack St C)) ->
  (forall C e, P C -> P (set_ErrorToReport e C)) ->
  (forall F C0 E C1, P C0 -> getObjectForFile' F C0 = Returns (E, C1) -> P C1) ->
  forall evs C C', P C -> handleEvents' evs C = Returns (tt, C') -> P C'.
Proof.
  intros Hstack Herr Hres evs.
  induction evs as [|ev evs IH]; intros C C' HP.
  - now intros [= <-].
  - rewrite handleEvents_cons.
    destruct (handleEvent' ev C) as [[[] C1]| |] eqn:H1; try discriminate.
    apply IH. eapply handleEvent_preserves; eassumption.
Qed.

(** X9: whatever events the consumer handles, every file entry the per-file
    memo has a key for has its seen bit set, also when its resolution
    failed; so the files that pass the test by which [finalize] collects
    [NotSeenIncludes] are files the memo has no key for. This is about the
    sweep over the included files only: the sanitizer ignore-lists and the
    SDK settings are added with no look at the seen bits or the memo. *)
Theorem entered_files_are_seen evs C C' :
  seenCoversMemo C ->
  handleEvents' evs C = Returns (tt, C') ->
  seenCoversMemo C' /\
  forall Files FE,
    In FE (List.filter (notSeenInclude (SeenIncludeFiles C')) Files) ->
    ObjectForFile C' !! FE = None.
Proof.
  intros Hinv Hrun.
  assert (Hinv' : seenCoversMemo C').
  { revert Hinv Hrun. apply (handleEvents_preserves seenCoversMemo).
    - intros C0 St H0. exact H0.
    - intros C0 e H0. exact H0.
    - intros F C0 E C1 H0 Hg.
      eapply getObjectForFile_seenCoversMemo; eassumption. }
  split; [exact Hinv'|].
  intros Files FE HIn. apply List.filter_In in HIn as [_ Hns].
  destruct (ObjectForFile C' !! FE) as [o|] eqn:Hl; [|reflexivity].
  rewrite Hinv' in Hns by (rewrite Hl; eauto). discriminate.
Qed.

(** *** The depth of the include stack *)

Lemma handleEvent_depth ev C C' :
  handleEvent' ev C = Returns (tt, C') ->
  ErrorToReport C' = None ->
  Z.of_nat (length (IncludeStack C'))
  = (Z.of_nat (length (IncludeStack C)) + depthChange ev)%Z.
Proof.
  destruct (ErrorToReport C) as [e|] eqn:He.
  { rewrite handleEvent_after_error by (rewrite He; eauto).
    intros [= <-]. congruence. }
  destruct ev as [FID|IncludedBy Include ExitLoc|Result];
    cbn [handleEvent depthChange].
  - unfold enteredInclude. run_monad. rewrite (no_error_occurred C He).
    destruct (getObjectForFile' FID C) as [[E C1]| |] eqn:Hg; try discriminate.
    apply getObjectForFile_effect in Hg as (Hs & _).
    destruct E; cbn [check]; run_monad; [|assign_step]; intros [= <-]; cbn;
      [|discriminate].
    intros _. rewrite Hs. lia.
  - unfold exitedInclude, bind at 1, get.
    rewrite (no_error_occurred C He). unfold bind at 1.
    destruct (assert_ _ _ C) as [[[] C1]| |] eqn:H1; try discriminate.
    apply assert_isFileOfBack_effect in H1 as (Hs1 & _).
    unfold IncludeStack_pop_back_val. run_monad. rewrite Hs1.
    destruct (IncludeStack C) as [|Top Rest]; [destruct NDEBUG; discriminate|].
    destruct (getCASTreeForFileIncludes DB Top) as [Tree|e]; cbn [check];
      run_monad; [|assign_step; intros [= <-]; cbn; discriminate].
    match goal with
    | |- context [assert_ ?N ?c ?C0] =>
        destruct (assert_ N c C0) as [[[] C2]| |] eqn:H2; try discriminate
    end.
    apply assert_isFileOfBack_effect in H2 as (Hs2 & _).
    unfold IncludeStack_update_back. run_monad. rewrite Hs2. cbn.
    destruct Rest; [destruct NDEBUG; discriminate|].
    intros [= <-] _. cbn. lia.
  - unfold handleHasIncludeCheck, IncludeStack_update_back. run_monad.
    rewrite (no_error_occurred C He).
    destruct (IncludeStack C); [destruct NDEBUG; discriminate|].
    intros [= <-] _. cbn. lia.
Qed.

(** X10: after any events that return with no failure recorded, the depth
    of the include stack is its depth before, plus the number of enter
    events, minus the number of exit events; a probe does not change it. *)
Theorem include_stack_depth evs C C' :
  handleEvents' evs C = Returns (tt, C') ->
  ErrorToReport C' = None ->
  Z.of_nat (length (IncludeStack C'))
  = (Z.of_nat (length (IncludeStack C)) + depthChanges evs)%Z.
Proof.
  revert C. induction evs as [|ev evs IH]; intros C.
  - intros [= <-] _. cbn. lia.
  - rewrite handleEvents_cons.
    destruct (handleEvent' ev C) as [[[] C1]| |] eqn:H1; try discriminate.
    intros Hrun Hn.
    assert (Hn1 : ErrorToReport C1 = None).
    { destruct (ErrorToReport C1) as [e|] eqn:He; [|reflexivity].
      rewrite handleEvents_after_error in Hrun by (rewrite He; eauto).
      injection Hrun as <-. congruence. }
    rewrite (IH _ Hrun Hn), (handleEvent_depth _ _ _ H1 Hn1).
    cbn [depthChanges foldr]. fold (depthChanges evs). lia.
Qed.

(** X11: an exit event whose frame the store refuses to make a node of pops
    that frame all the same, records the failure, and adds nothing to the
    frame below. *)
Theorem exitedInclude_store_failure IncludedBy Include ExitLoc C Top Parent
    Rest e :
  ErrorToReport C = None ->
  IncludeStack C = Top :: Parent :: Rest ->
  resolved C Include = Some (File Top) ->
  resolved C IncludedBy = Some (File Parent) ->
  getCASTreeForFileIncludes DB Top = Failure e ->
  exitedInclude' IncludedBy Include ExitLoc C =
  Returns (tt, set_ErrorToReport (Some e) (set_IncludeStack (Parent :: Rest) C)).
Proof.
  intros Hn Hs Hc Hp Hfail.
  rewrite (exitedInclude_step DB remove_dots NDEBUG PP IncludedBy Include
             ExitLoc C Top Parent Rest Hn Hs Hc Hp).
  now rewrite Hfail.
Qed.

(** X12: a resolution that fails is not memoized: the file had no node
    before and has none after, so a later resolution tries again. *)
Theorem failed_resolution_not_memoized FID C e C' :
  getObjectForFile DB remove_dots NDEBUG PP FID C = Returns (Failure e, C') ->
  resolvedFile PP C FID = None /\ resolvedFile PP C' FID = None.
Proof.
  intros Hrun.
  assert (Hbefore : resolved C FID = None).
  { destruct (resolved C FID) as [R|] eqn:Hr; [|reflexivity].
    rewrite (getObjectForFile_resolved DB remove_dots NDEBUG PP FID C R Hr)
      in Hrun. discriminate. }
  split; [exact Hbefore|].
  revert Hrun Hbefore. unfold getObjectForFile, resolvedFile.
  destruct (bool_decide (getPredefinesFileID PP = FID)).
  - run_monad. intros Hrun Hp. rewrite Hp in Hrun.
    destruct (getObjectForBuffer DB NDEBUG _ C) as [[E1 C1]| |] eqn:Hb;
      try discriminate.
    apply getObjectForBuffer_effect in Hb. subst C1.
    destruct E1 as [R|e1]; [discriminate|]. injection Hrun as _ <-. exact Hp.
  - unfold deref at 1. unfold bind at 1.
    destruct (OrigEntry _) as [Key|] eqn:Ho; [|reflexivity].
    unfold ret at 1. unfold ObjectForFile_subscript. run_monad.
    destruct (ObjectForFile C !! Key) as [[R|]|] eqn:Hl; [discriminate| |];
      match goal with
      | |- context [getObjectForFileNonCached ?D ?r ?N ?F ?I ?C0] =>
          destruct (getObjectForFileNonCached D r N F I C0)
            as [[E1 C1]| |] eqn:Hn; try discriminate
      end;
      apply (getObjectForFileNonCached_effect _ _ Key) in Hn as (Hmemo & _);
      try exact Ho;
      (destruct E1; [discriminate|]); intros [= _ <-] _; rewrite Hmemo; cbn.
    + now rewrite Hl.
    + now rewrite lookup_insert_eq.
Qed.

End IncludeTreeMore.

(** ** More on finalization *)

Section FinalizeMore.

Context {ObjectRef : Type} `{EqDecision ObjectRef}.
Variable DB : ObjectStore ObjectRef.
Variable remove_dots : string -> string.
Variable path_append : string -> string -> string.
Variable NDEBUG : bool.

Local Abbreviation addToFileList' := (addToFileList DB remove_dots NDEBUG).
Local Abbreviation finalize_addFile' :=
  (finalize_addFile DB remove_dots NDEBUG).
Local Abbreviation finalize_NoSanitizeFiles' :=
  (finalize_NoSanitizeFiles DB remove_dots NDEBUG).
Local Abbreviation finalize_NotSeenIncludes' :=
  (finalize_NotSeenIncludes DB remove_dots NDEBUG).
Local Abbreviation finalize' := (finalize DB remove_dots path_append NDEBUG).
Local Abbreviation scanIncludeTree' :=
  (scanIncludeTree DB remove_dots path_append NDEBUG).

Lemma finalizeFrame_refl (C : IncludeTreePPConsumer ObjectRef) :
  finalizeFrame C C.
Proof. now repeat split. Qed.

Lemma finalizeFrame_trans (C1 C2 C3 : IncludeTreePPConsumer ObjectRef) :
  finalizeFrame C1 C2 -> finalizeFrame C2 C3 -> finalizeFrame C1 C3.
Proof.
  intros (Ha & Hb & Hc & Hd) (Ha' & Hb' & Hc' & Hd').
  repeat split; congruence.
Qed.

Lemma finalize_addFile_frame FM FilePath IgnoreFileError C b C' :
  finalize_addFile' FM FilePath IgnoreFileError C = Returns (b, C') ->
  finalizeFrame C C' /\ PCHRef C' = PCHRef C.
Proof.
  unfold finalize_addFile.
  destruct (getFile FM FilePath) as [FE|ec].
  - unfold bind.
    destruct (addToFileList' FM FE C) as [[E C1]| |] eqn:Ha; try discriminate.
    apply addToFileList_effect in Ha as (Extra & -> & _).
    destruct E as [R|e];
      [run_monad; intros [= <- <-]
      |intros Hr; apply ErrorToReport_assign_ret in Hr as [-> ->]];
      now repeat split.
  - destruct IgnoreFileError;
      [run_monad; intros [= <- <-]
      |intros Hr; apply ErrorToReport_assign_ret in Hr as [-> ->]];
      now repeat split.
Qed.

Lemma finalize_NoSanitizeFiles_frame FM Files C b C' :
  finalize_NoSanitizeFiles' FM Files C = Returns (b, C') ->
  finalizeFrame C C' /\ PCHRef C' = PCHRef C.
Proof.
  revert C. induction Files as [|FilePath Files IH]; intros C;
    cbn [finalize_NoSanitizeFiles].
  - intros [= <- <-]. now repeat split.
  - unfold bind.
    destruct (finalize_addFile' FM FilePath false C) as [[Ok C1]| |] eqn:H1;
      try discriminate.
    apply finalize_addFile_frame in H1 as (Hf1 & Hp1).
    destruct Ok.
    + intros H2. apply IH in H2 as (Hf2 & Hp2).
      split; [eapply finalizeFrame_trans; eassumption|congruence].
    + intros [= <- <-]. now split.
Qed.

Lemma finalize_NotSeenIncludes_frame FM Files C b C' :
  finalize_NotSeenIncludes' FM Files C = Returns (b, C') ->
  finalizeFrame C C' /\ PCHRef C' = PCHRef C /\
  exists Extra, IncludedFiles C' = IncludedFiles C ++ Extra.
Proof.
  revert C. induction Files as [|FE Files IH]; intros C;
    cbn [finalize_NotSeenIncludes].
  - intros [= <- <-]. split; [apply finalizeFrame_refl|].
    split; [reflexivity|]. exists []. now rewrite app_nil_r.
  - unfold bind.
    destruct (addToFileList' FM FE C) as [[E C1]| |] eqn:Ha; try discriminate.
    apply addToFileList_effect in Ha as (Extra & -> & _).
    destruct E as [R|e].
    + intros H2. apply IH in H2 as (Hf2 & Hp2 & (X2 & HX2)).
      split; [|split].
      * eapply finalizeFrame_trans; [|exact Hf2]. now repeat split.
      * exact Hp2.
      * exists (Extra ++ X2). rewrite HX2. cbn. now rewrite app_assoc.
    + intros Hr. apply ErrorToReport_assign_ret in Hr as [-> ->]. cbn.
      split; [now repeat split|]. split; [reflexivity|]. eauto.
Qed.

(** What [finalize] does, whatever it meets. *)
Lemma finalize_effect CI C C' :
  finalize' CI C = Returns (tt, C') ->
  finalizeFrame C C' /\
  (exists Extra, IncludedFiles C' = IncludedFiles C ++ Extra) /\
  (PCHRef C' = PCHRef C \/
   String.eqb (ImplicitPCHInclude CI) EmptyString = false /\
   getObjectRefForFileContent (CI_getFileManager CI) (ImplicitPCHInclude CI)
   = Value (PCHRef C') /\ is_Some (PCHRef C')) /\
  (ErrorToReport C' = None ->
   String.eqb (ImplicitPCHInclude CI) EmptyString = false ->
   getObjectRefForFileContent (CI_getFileManager CI) (ImplicitPCHInclude CI)
   = Value (PCHRef C') /\ is_Some (PCHRef C')).
Proof.
  unfold finalize, bind at 1.
  destruct (finalize_NoSanitizeFiles' _ _ C) as [[Ok C1]| |] eqn:H1;
    try discriminate.
  pose proof (finalize_NoSanitizeFiles_frame _ _ _ _ _ H1) as (Hf1 & Hp1).
  apply finalize_NoSanitizeFiles_effect in H1 as (Hx1 & _ & Hb1 & _).
  destruct Ok; cbn [negb].
  2:{ intros [= <-]. split; [exact Hf1|]. split; [exact Hx1|].
      split; [now left|]. intros Hn. destruct (Hb1 eq_refl) as [e He].
      congruence. }
  unfold bind at 1.
  match goal with
  | |- match ?m C1 with _ => _ end = _ -> _ =>
      assert (Hsys : forall u C2, m C1 = Returns (u, C2) ->
                 finalizeFrame C1 C2 /\ PCHRef C2 = PCHRef C1 /\
                 exists X2, IncludedFiles C2 = IncludedFiles C1 ++ X2);
      [|destruct (m C1) as [[[] C2]| |] eqn:H2; try discriminate;
        destruct (Hsys _ _ eq_refl) as (Hf2 & Hp2 & Hx2)]
  end.
  { intros u C2. destruct (negb _); run_monad.
    - destruct (finalize_addFile' _ _ true C1) as [[b Cx]| |] eqn:Hx;
        try discriminate.
      pose proof (finalize_addFile_frame _ _ _ _ _ _ Hx) as (Hfx & Hpx).
      apply finalize_addFile_effect in Hx as (Hxx & _).
      intros [= _ <-]. split; [exact Hfx|]. split; [exact Hpx|exact Hxx].
    - intros [= _ <-]. split; [apply finalizeFrame_refl|].
      split; [reflexivity|]. exists []. now rewrite app_nil_r. }
  assert (Hf12 : finalizeFrame C C2)
    by (eapply finalizeFrame_trans; eassumption).
  assert (Hx12 : exists X, IncludedFiles C2 = IncludedFiles C ++ X).
  { destruct Hx1 as [X1 HX1], Hx2 as [X2 HX2]. exists (X1 ++ X2).
    now rewrite HX2, HX1, app_assoc. }
  destruct (String.eqb (ImplicitPCHInclude CI) EmptyString) eqn:Hpch.
  { intros [= <-]. split; [exact Hf12|]. split; [exact Hx12|].
    split; [left; congruence|]. discriminate. }
  run_monad.
  match goal with
  | |- context [finalize_NotSeenIncludes' ?FM ?Fs C2] =>
      destruct (finalize_NotSeenIncludes' FM Fs C2) as [[Ok3 C3]| |] eqn:H3;
      try discriminate
  end.
  pose proof (finalize_NotSeenIncludes_frame _ _ _ _ _ H3)
    as (Hf3 & Hp3 & Hx3).
  apply finalize_NotSeenIncludes_effect in H3 as (_ & Hb3 & _).
  assert (Hf13 : finalizeFrame C C3)
    by (eapply finalizeFrame_trans; eassumption).
  assert (Hx13 : exists X, IncludedFiles C3 = IncludedFiles C ++ X).
  { destruct Hx12 as [X1 HX1], Hx3 as [X2 HX2]. exists (X1 ++ X2).
    now rewrite HX2, HX1, app_assoc. }
  destruct Ok3; cbn [negb].
  2:{ intros [= <-]. split; [exact Hf13|]. split; [exact Hx13|].
      split; [left; congruence|]. intros Hn. destruct (Hb3 eq_refl) as [e He].
      congruence. }
  destruct (getObjectRefForFileContent _ _) as [[Ref|]|ec] eqn:Hc;
    unfold deref; run_monad.
  - intros [= <-]. split; [exact Hf13|]. split; [exact Hx13|].
    cbn [PCHRef set_PCHRef]. split; [right|]; eauto.
  - destruct NDEBUG; discriminate.
  - intros Hr. apply ErrorToReport_assign_effect in Hr as [-> _].
    split; [exact Hf13|]. split; [exact Hx13|].
    split; [left; cbn; congruence|]. cbn. discriminate.
Qed.

(** X13: [finalize] leaves the include stack, the memo of file nodes, the
    memoized predefines node and the seen bits as they are; the manifest
    keeps its entries in place and only gains entries at its end; and an
    error recorded before is still recorded after. *)
Theorem finalize_frame CI C C' :
  finalize' CI C = Returns (tt, C') ->
  IncludeStack C' = IncludeStack C /\
  ObjectForFile C' = ObjectForFile C /\
  PredefinesBufferRef C' = PredefinesBufferRef C /\
  SeenIncludeFiles C' = SeenIncludeFiles C /\
  (exists Extra, IncludedFiles C' = IncludedFiles C ++ Extra) /\
  (is_Some (ErrorToReport C) -> is_Some (ErrorToReport C')).
Proof.
  intros Hrun.
  pose proof (finalize_effect CI C C' Hrun) as ((Hs & Hm & Hp & Hb) & Hx & _).
  repeat (split; [assumption|]).
  intros He. eapply finalize_keeps_error; eassumption.
Qed.

(** X14: the PCH reference after [finalize]. Without an implicit
    precompiled header it is what it was. With one, a [finalize] that ends
    with no failure recorded has set it to the content reference the file
    manager has for the precompiled header; and in no case is it set to
    anything else. *)
Theorem finalize_PCHRef CI C C' :
  finalize' CI C = Returns (tt, C') ->
  let Content :=
    getObjectRefForFileContent (CI_getFileManager CI) (ImplicitPCHInclude CI) in
  (String.eqb (ImplicitPCHInclude CI) EmptyString = true ->
   PCHRef C' = PCHRef C) /\
  (String.eqb (ImplicitPCHInclude CI) EmptyString = false ->
   ErrorToReport C' = None ->
   Content = Value (PCHRef C') /\ is_Some (PCHRef C')) /\
  (PCHRef C' = PCHRef C \/ Content = Value (PCHRef C')).
Proof.
  intros Hrun Content.
  pose proof (finalize_effect CI C C' Hrun) as (_ & _ & Hpchref & Hok).
  split; [|split].
  - intros Hempty. destruct Hpchref as [Hsame|(Hpch & _)]; [exact Hsame|].
    congruence.
  - intros Hpch Hn. now apply Hok.
  - destruct Hpchref as [Hsame|(_ & Hc & _)]; [now left|now right].
Qed.

(** X15: a sanitizer ignore-list the file manager does not find stops
    [finalize] at once. When no error was recorded before, the error of its
    error code is recorded and nothing else changes. When the events had
    already recorded an error, the assignment meets that error: a build
    with assertions aborts, a build with [NDEBUG] replaces the error. A
    missing [SDKSettings.json] under the sysroot is not an error. *)
Theorem finalize_missing_files CI C :
  (forall FilePath Files ec,
      NoSanitizeFiles CI = FilePath :: Files ->
      getFile (CI_getFileManager CI) FilePath = ErrorCodeOf ec ->
      (ErrorToReport C = None ->
       finalize' CI C
       = Returns (tt, set_ErrorToReport (Some (errorCodeToError ec)) C)) /\
      (is_Some (ErrorToReport C) ->
       finalize' CI C
       = if NDEBUG
         then Returns (tt, set_ErrorToReport (Some (errorCodeToError ec)) C)
         else AssertionFailed)) /\
  (forall ec,
      NoSanitizeFiles CI = [] ->
      Sysroot CI <> EmptyString ->
      getFile (CI_getFileManager CI)
        (path_append (Sysroot CI) "SDKSettings.json") = ErrorCodeOf ec ->
      ImplicitPCHInclude CI = EmptyString ->
      finalize' CI C = Returns (tt, C)).
Proof.
  split.
  - intros FilePath Files ec Hfiles Hmissing. unfold finalize.
    rewrite Hfiles. cbn [finalize_NoSanitizeFiles].
    unfold finalize_addFile. rewrite Hmissing. unfold bind. split.
    + intros Hn. now rewrite ErrorToReport_assign_new.
    + intros He. rewrite ErrorToReport_assign_over by exact He.
      now destruct NDEBUG.
  - intros ec Hfiles Hsys Hmissing Hpch. unfold finalize.
    rewrite Hfiles, Hpch. cbn [finalize_NoSanitizeFiles].
    unfold finalize_addFile. rewrite Hmissing. run_monad.
    destruct (String.eqb_spec (Sysroot CI) EmptyString); [contradiction|].
    reflexivity.
Qed.


(** X17: a whole scan of a main file and the balanced events of its body
    that returns a root returns the root made of the include-tree node of
    the main file (its characteristic, its file node, the children and the
    probe bits of its body), of the file list of the manifest, and of the
    PCH reference; no frame is left, and no failure is recorded. *)
Theorem scanIncludeTree_root CI Main B Root C' :
  let PP := CI_getPreprocessor CI in
  Forall (fun FID => fileWellFormed PP FID = true) (Main :: filesOf B) ->
  scanIncludeTree' CI (EnteredInclude Main :: eventsOf Main B)
  = Returns (Success Root, C') ->
  exists MainFile Incs Bits MainTree FileList,
    resolvedFile PP C' Main = Some MainFile /\
    contributionOf DB PP (resolvedFile PP C') B = Some (Incs, Bits) /\
    IncludeTree_create DB
      (getFileCharacteristic (getSLocEntry_getFile (getSourceManager PP) Main))
      MainFile Incs Bits = Success MainTree /\
    IncludeFileList_create DB (IncludedFiles C') = Success FileList /\
    IncludeTreeRoot_create DB MainTree FileList (PCHRef C') = Success Root /\
    IncludeStack C' = [] /\
    ErrorToReport C' = None.
Proof.
  intros PP Hwf. apply Forall_cons in Hwf as [HwfMain Hwf].
  unfold scanIncludeTree. fold PP. unfold bind at 1.
  rewrite handleEvents_cons. cbn [handleEvent].
  destruct (getObjectForFile_returns DB remove_dots NDEBUG PP Main
              newIncludeTreePPConsumer HwfMain) as (E & C1 & Hg).
  rewrite (enteredInclude_step DB remove_dots NDEBUG PP Main
             newIncludeTreePPConsumer E C1 eq_refl Hg).
  apply getObjectForFile_effect in Hg as Heff.
  destruct Heff as (Hs1 & He1 & _ & _ & _ & Hr1).
  cbn [IncludeStack ErrorToReport newIncludeTreePPConsumer] in Hs1, He1.
  destruct E as [MainFile|e].
  2:{ rewrite handleEvents_after_error by (cbn; eauto).
      unfold bind at 1.
      destruct (finalize' CI _) as [[[] C2]| |] eqn:Hfin; try discriminate.
      assert (He2 : is_Some (ErrorToReport C2)).
      { eapply finalize_keeps_error; [|exact Hfin]. cbn. eauto. }
      destruct He2 as [e2 He2].
      rewrite (getIncludeTree_after_error DB NDEBUG C2 e2 He2). discriminate. }
  rewrite Hs1.
  match goal with
  | |- context [handleEvents _ _ _ _ _ (set_IncludeStack [?T] C1)] =>
      set (Frame := T); set (C2 := set_IncludeStack [Frame] C1)
  end.
  destruct (handleEvents_body DB remove_dots NDEBUG PP B Main C2 Frame [] Hwf)
    as (C3 & Hrun3 & Hres3);
    [exact He1|reflexivity|apply Hr1; reflexivity|].
  rewrite Hrun3. unfold bind at 1.
  pose proof (handleEvents_growsTo DB remove_dots NDEBUG PP _ _ _ Hrun3) as Hg3.
  destruct (finalize' CI C3) as [[[] C4]| |] eqn:Hfin; try discriminate.
  pose proof (finalize_effect CI C3 C4 Hfin) as ((Hs4 & Hm4 & Hp4 & _) & _).
  destruct (ErrorToReport C4) as [e4|] eqn:He4.
  { rewrite (getIncludeTree_after_error DB NDEBUG C4 e4 He4). discriminate. }
  assert (He3 : ErrorToReport C3 = None).
  { destruct (ErrorToReport C3) as [e3|] eqn:He3; [|reflexivity].
    assert (Hsome : is_Some (ErrorToReport C3)) by (rewrite He3; eauto).
    destruct (finalize_keeps_error _ _ _ _ _ _ _ Hsome Hfin) as [e Hee].
    congruence. }
  destruct (Hres3 He3) as (Incs & Bits & Hc3 & Hst3).
  cbn [Frame File Includes HasIncludeChecks FileCharacteristic app] in Hst3.
  assert (Hres_eq : forall F, resolvedFile PP C4 F = resolvedFile PP C3 F).
  { intros F. unfold resolvedFile. now rewrite Hm4, Hp4. }
  rewrite (getIncludeTree_single DB NDEBUG C4 _ He4 (eq_trans Hs4 Hst3)).
  unfold getCASTreeForFileIncludes.
  cbn [File Includes HasIncludeChecks FileCharacteristic].
  destruct (IncludeTree_create DB _ MainFile Incs Bits) as [MainTree|]
    eqn:Htree; [|discriminate].
  destruct (IncludeFileList_create DB (IncludedFiles C4)) as [FileList|]
    eqn:Hlist; [|discriminate].
  intros [= Hroot <-].
  assert (Hsame : forall F, resolvedFile PP (set_IncludeStack [] C4) F
                            = resolvedFile PP C3 F)
    by (intros F; rewrite <- Hres_eq; reflexivity).
  exists MainFile, Incs, Bits, MainTree, FileList.
  split.
  { rewrite Hsame. eapply growsTo_resolved; [exact Hg3|].
    apply Hr1. reflexivity. }
  split.
  { apply (contributionOf_mono DB PP (resolvedFile PP C3) _ B (Incs, Bits));
      [|exact Hc3].
    intros F R HF. now rewrite Hsame. }
  cbn [IncludedFiles PCHRef IncludeStack ErrorToReport set_IncludeStack].
  now repeat split.
Qed.

End FinalizeMore.

(** ** The files a scan has seen *)

Section SeenFiles.

Context {ObjectRef : Type} `{EqDecision ObjectRef}.
Variable DB : ObjectStore ObjectRef.
Variable remove_dots : string -> string.
Variable NDEBUG : bool.
Variable PP : Preprocessor ObjectRef.

Local Abbreviation getObjectForFile' := (getObjectForFile DB remove_dots NDEBUG PP).
Local Abbreviation getObjectForFileNonCached' :=
  (getObjectForFileNonCached DB remove_dots NDEBUG).
Local Abbreviation handleEvent' := (handleEvent DB remove_dots NDEBUG PP).
Local Abbreviation handleEvents' := (handleEvents DB remove_dots NDEBUG PP).

(** *** Which files are seen *)

(** A resolution leaves the seen bits alone, or sets the bit of the file
    entry of the file and no other. *)
Lemma getObjectForFile_SeenIncludeFiles FID C E C' :
  getObjectForFile' FID C = Returns (E, C') ->
  SeenIncludeFiles C' = SeenIncludeFiles C \/
  exists Key,
    fileEntryOf PP FID = Some Key /\
    notSeenInclude (SeenIncludeFiles C') Key = false /\
    forall FE, getUID FE <> getUID Key ->
               notSeenInclude (SeenIncludeFiles C') FE
               = notSeenInclude (SeenIncludeFiles C) FE.
Proof.
  unfold getObjectForFile, fileEntryOf.
  destruct (bool_decide (getPredefinesFileID PP = FID)).
  - run_monad. destruct (PredefinesBufferRef C) as [R|].
    + intros [= _ <-]. now left.
    + destruct (getObjectForBuffer DB NDEBUG _ C) as [[E1 C1]| |] eqn:Hb;
        try discriminate.
      apply getObjectForBuffer_effect in Hb. subst C1.
      destruct E1; intros [= _ <-]; now left.
  - unfold deref at 1. unfold bind at 1.
    destruct (OrigEntry _) as [Key|] eqn:Ho;
      [|unfold invalid; destruct NDEBUG; discriminate].
    unfold ret at 1. unfold ObjectForFile_subscript. run_monad.
    destruct (ObjectForFile C !! Key) as [[R|]|] eqn:Hl.
    + intros [= _ <-]. now left.
    + match goal with
      | |- context [getObjectForFileNonCached ?D ?r ?N ?F ?I ?C0] =>
          destruct (getObjectForFileNonCached D r N F I C0)
            as [[E1 C1]| |] eqn:Hn; try discriminate
      end.
      apply (getObjectForFileNonCached_effect _ _ _ _ _ Key) in Hn
        as (_ & Hkey & Hother); [|exact Ho].
      destruct E1 as [R|e]; intros [= _ <-];
        (right; exists Key; split; [reflexivity|now split]).
    + match goal with
      | |- context [getObjectForFileNonCached ?D ?r ?N ?F ?I ?C0] =>
          destruct (getObjectForFileNonCached D r N F I C0)
            as [[E1 C1]| |] eqn:Hn; try discriminate
      end.
      apply (getObjectForFileNonCached_effect _ _ _ _ _ Key) in Hn
        as (_ & Hkey & Hother); [|exact Ho].
      destruct E1 as [R|e]; intros [= _ <-];
        (right; exists Key; split; [reflexivity|now split]).
Qed.

(** A seen bit is never cleared. *)
Lemma getObjectForFile_seen_mono FE FID C E C' :
  notSeenInclude (SeenIncludeFiles C) FE = false ->
  getObjectForFile' FID C = Returns (E, C') ->
  notSeenInclude (SeenIncludeFiles C') FE = false.
Proof.
  intros Hseen Hg.
  apply getObjectForFile_SeenIncludeFiles in Hg
    as [->|(Key & _ & Hkey & Hother)]; [exact Hseen|].
  destruct (decide (getUID FE = getUID Key)) as [Heq|Hne].
  - now rewrite (notSeenInclude_same_UID _ Key FE Heq).
  - now rewrite Hother.
Qed.

(** A bit that is set after a resolution was set before it, or is the bit
    of the file that was resolved. *)
Lemma getObjectForFile_seen FE FID C E C' :
  getObjectForFile' FID C = Returns (E, C') ->
  notSeenInclude (SeenIncludeFiles C') FE = false ->
  notSeenInclude (SeenIncludeFiles C) FE = false \/
  exists FE', fileEntryOf PP FID = Some FE' /\ getUID FE' = getUID FE.
Proof.
  intros Hg Hseen.
  apply getObjectForFile_SeenIncludeFiles in Hg
    as [Hsame|(Key & Hentry & Hkey & Hother)]; [left; congruence|].
  destruct (decide (getUID FE = getUID Key)) as [Heq|Hne].
  - right. exists Key. now split.
  - left. now rewrite <- Hother.
Qed.

(** The condition of an assertion of [exitedInclude] is not evaluated, or
    is one resolution of the file. *)
Lemma assert_isFileOfBack_resolution FID C C' :
  assert_ NDEBUG (isFileOfBack DB remove_dots NDEBUG PP FID) C
    = Returns (tt, C') ->
  C' = C \/ exists R, getObjectForFile' FID C = Returns (Success R, C').
Proof.
  unfold assert_. destruct NDEBUG eqn:HN.
  - intros [= <-]. now left.
  - unfold bind. rewrite <- HN at 1.
    destruct (isFileOfBack _ _ _ _ _ C) as [[b C1]| |] eqn:Hi;
      try discriminate.
    apply isFileOfBack_effect in Hi as (_ & _ & _ & R & Back & Rest & Hg & _).
    destruct b; [|discriminate]. intros [= <-]. rewrite HN in Hg.
    right. now exists R.
Qed.

Lemma assert_isFileOfBack_seen FE FID C C' :
  assert_ NDEBUG (isFileOfBack DB remove_dots NDEBUG PP FID) C
    = Returns (tt, C') ->
  notSeenInclude (SeenIncludeFiles C') FE = false ->
  notSeenInclude (SeenIncludeFiles C) FE = false \/
  exists FE', fileEntryOf PP FID = Some FE' /\ getUID FE' = getUID FE.
Proof.
  intros Ha Hseen.
  apply assert_isFileOfBack_resolution in Ha as [->|[R Hg]]; [now left|].
  eapply getObjectForFile_seen; eassumption.
Qed.

(** A bit that is set after an event was set before it, or is the bit of a
    file the event names. *)
Lemma handleEvent_seen FE ev C C' :
  handleEvent' ev C = Returns (tt, C') ->
  notSeenInclude (SeenIncludeFiles C') FE = false ->
  notSeenInclude (SeenIncludeFiles C) FE = false \/
  exists FID FE',
    In FID (resolvedBy ev) /\ fileEntryOf PP FID = Some FE' /\
    getUID FE' = getUID FE.
Proof.
  destruct (ErrorToReport C) as [e|] eqn:He.
  { rewrite handleEvent_after_error by (rewrite He; eauto).
    intros [= <-]. now left. }
  destruct ev as [FID|IncludedBy Include ExitLoc|Result];
    cbn [handleEvent resolvedBy].
  - unfold enteredInclude. run_monad. rewrite (no_error_occurred C He).
    destruct (getObjectForFile' FID C) as [[E C1]| |] eqn:Hg; try discriminate.
    destruct E; cbn [check]; run_monad; [|assign_step]; intros [= <-];
      cbn [SeenIncludeFiles set_IncludeStack set_ErrorToReport]; intros Hseen;
      (destruct (getObjectForFile_seen FE _ _ _ _ Hg Hseen)
        as [Hb|(FE' & Hentry & Huid)];
       [now left|right; exists FID, FE'; cbn; auto]).
  - unfold exitedInclude, bind at 1, get.
    rewrite (no_error_occurred C He). unfold bind at 1.
    destruct (assert_ _ _ C) as [[[] C1]| |] eqn:H1; try discriminate.
    assert (Hfirst :
              notSeenInclude (SeenIncludeFiles C1) FE = false ->
              notSeenInclude (SeenIncludeFiles C) FE = false \/
              exists FID FE',
                In FID [Include; IncludedBy] /\ fileEntryOf PP FID = Some FE' /\
                getUID FE' = getUID FE).
    { intros Hseen.
      destruct (assert_isFileOfBack_seen FE _ _ _ H1 Hseen)
        as [Hb|(FE' & Hentry & Huid)];
        [now left|right; exists Include, FE'; cbn; auto]. }
    unfold IncludeStack_pop_back_val. run_monad.
    destruct (IncludeStack C1) as [|Top Rest]; [destruct NDEBUG; discriminate|].
    destruct (getCASTreeForFileIncludes DB Top) as [Tree|e]; cbn [check];
      run_monad.
    + match goal with
      | |- context [assert_ ?N ?c ?C0] =>
          destruct (assert_ N c C0) as [[[] C2]| |] eqn:H2; try discriminate
      end.
      unfold IncludeStack_update_back. run_monad.
      destruct (IncludeStack C2); [destruct NDEBUG; discriminate|].
      intros [= <-]. cbn [SeenIncludeFiles set_IncludeStack]. intros Hseen.
      destruct (assert_isFileOfBack_seen FE _ _ _ H2 Hseen)
        as [Hb|(FE' & Hentry & Huid)];
        [now apply Hfirst|right; exists IncludedBy, FE'; cbn; auto].
    + assign_step. intros [= <-]. exact Hfirst.
  - unfold handleHasIncludeCheck, IncludeStack_update_back. run_monad.
    rewrite (no_error_occurred C He).
    destruct (IncludeStack C); [destruct NDEBUG; discriminate|].
    intros [= <-]. now left.
Qed.

Lemma handleEvents_seen FE evs C C' :
  handleEvents' evs C = Returns (tt, C') ->
  notSeenInclude (SeenIncludeFiles C') FE = false ->
  notSeenInclude (SeenIncludeFiles C) FE = false \/
  exists FID FE',
    In FID (flat_map resolvedBy evs) /\ fileEntryOf PP FID = Some FE' /\
    getUID FE' = getUID FE.
Proof.
  revert C. induction evs as [|ev evs IH]; intros C.
  - intros [= <-]. now left.
  - rewrite handleEvents_cons.
    destruct (handleEvent' ev C) as [[[] C1]| |] eqn:H1; try discriminate.
    intros H2 Hseen. cbn [flat_map].
    destruct (IH _ H2 Hseen) as [Hb|(FID & FE' & Hin & Hentry & Huid)].
    + destruct (handleEvent_seen FE _ _ _ H1 Hb)
        as [Hb0|(FID & FE' & Hin & Hentry & Huid)]; [now left|].
      right. exists FID, FE'. rewrite in_app_iff. auto.
    + right. exists FID, FE'. rewrite in_app_iff. auto.
Qed.

Lemma handleEvents_seen_mono FE evs C C' :
  notSeenInclude (SeenIncludeFiles C) FE = false ->
  handleEvents' evs C = Returns (tt, C') ->
  notSeenInclude (SeenIncludeFiles C') FE = false.
Proof.
  apply (handleEvents_preserves DB remove_dots NDEBUG PP
           (fun C => notSeenInclude (SeenIncludeFiles C) FE = false)).
  - intros C0 St H0. exact H0.
  - intros C0 e H0. exact H0.
  - intros F C0 E C1 H0 Hg. eapply getObjectForFile_seen_mono; eassumption.
Qed.

Lemma handleEvent_seenCoversMemo ev C C' :
  seenCoversMemo C ->
  handleEvent' ev C = Returns (tt, C') ->
  seenCoversMemo C'.
Proof.
  apply (handleEvent_preserves DB remove_dots NDEBUG PP seenCoversMemo).
  - intros C0 St H0. exact H0.
  - intros C0 e H0. exact H0.
  - intros F C0 E C1 H0 Hg.
    eapply getObjectForFile_seenCoversMemo; eassumption.
Qed.

(** The file of an enter event is seen at the end of events that end with
    no error recorded. *)
Lemma handleEvents_entered_seen FID FE evs C C' :
  seenCoversMemo C ->
  handleEvents' evs C = Returns (tt, C') ->
  ErrorToReport C' = None ->
  In (EnteredInclude FID) evs ->
  fileEntryOf PP FID = Some FE ->
  notSeenInclude (SeenIncludeFiles C') FE = false.
Proof.
  intros Hinv Hrun Hnone Hin Hentry. revert C Hinv Hrun.
  induction evs as [|ev evs IH]; intros C Hinv; [destruct Hin|].
  rewrite handleEvents_cons.
  destruct (handleEvent' ev C) as [[[] C1]| |] eqn:H1; try discriminate.
  intros H2.
  pose proof (handleEvent_seenCoversMemo _ _ _ Hinv H1) as Hinv1.
  destruct Hin as [->|Hin]; [|now apply (IH Hin C1)].
  apply (handleEvents_seen_mono FE evs C1 C'); [|exact H2].
  assert (Hn1 : ErrorToReport C1 = None).
  { destruct (ErrorToReport C1) as [e|] eqn:He1; [|reflexivity].
    rewrite handleEvents_after_error in H2 by (rewrite He1; eauto).
    injection H2 as <-. congruence. }
  assert (Hn : ErrorToReport C = None).
  { destruct (ErrorToReport C) as [e|] eqn:He; [|reflexivity].
    rewrite handleEvent_after_error in H1 by (rewrite He; eauto).
    injection H1 as <-. congruence. }
  cbn [handleEvent] in H1.
  destruct (getObjectForFile' FID C) as [[E C0]| |] eqn:Hg.
  2,3: unfold enteredInclude in H1; run_monad;
       rewrite (no_error_occurred C Hn), Hg in H1; discriminate.
  rewrite (enteredInclude_step DB remove_dots NDEBUG PP FID C E C0 Hn Hg) in H1.
  injection H1 as <-.
  destruct E as [R|e]; [|discriminate].
  pose proof (getObjectForFile_effect _ _ _ _ _ _ _ _ Hg)
    as (_ & _ & _ & _ & _ & Hres).
  specialize (Hres R eq_refl).
  apply Hinv1. cbn [ObjectForFile set_IncludeStack].
  unfold resolvedFile in Hres. unfold fileEntryOf in Hentry.
  destruct (bool_decide (getPredefinesFileID PP = FID)); [discriminate|].
  rewrite Hentry in Hres.
  destruct (ObjectForFile C0 !! FE) as [o|]; [eauto|discriminate].
Qed.

(** *** Balanced event sequences and the seen bits *)

Lemma resolvedBy_eventsOf Parent B FID :
  In FID (flat_map resolvedBy (eventsOf Parent B)) ->
  FID = Parent \/ In FID (filesOf B).
Proof.
  revert Parent.
  induction B as [|Result Rest IH|F Inner IHi ExitLoc Rest IHr];
    intros Parent; cbn [eventsOf filesOf flat_map resolvedBy app].
  - intros [].
  - apply IH.
  - rewrite flat_map_app. cbn [flat_map resolvedBy app].
    repeat (cbn [In] || rewrite in_app_iff).
    intros [<-|[Hi|[<-|[<-|Hr]]]]; auto.
    + destruct (IHi _ Hi) as [<-|Hi']; auto.
    + destruct (IHr _ Hr) as [<-|Hr']; auto.
Qed.

Lemma entered_eventsOf Parent B FID :
  In FID (filesOf B) -> In (EnteredInclude FID) (eventsOf Parent B).
Proof.
  revert Parent.
  induction B as [|Result Rest IH|F Inner IHi ExitLoc Rest IHr];
    intros Parent; cbn [eventsOf filesOf].
  - intros [].
  - intros Hin. right. now apply IH.
  - cbn [In]. rewrite in_app_iff. intros [<-|[Hi|Hr]]; [now left| |].
    + right. apply in_app_iff. left. now apply IHi.
    + right. apply in_app_iff. right. right. now apply IHr.
Qed.

Lemma enteredFiles_eventsOf Parent B :
  enteredFiles (eventsOf Parent B) = filesOf B.
Proof.
  revert Parent. unfold enteredFiles.
  induction B as [|Result Rest IH|F Inner IHi ExitLoc Rest IHr];
    intros Parent; cbn [eventsOf filesOf omap list_omap].
  - reflexivity.
  - apply IH.
  - rewrite omap_app. cbn [omap list_omap]. now rewrite IHi, IHr.
Qed.

Lemma enteredFiles_scan Main B :
  enteredFiles (EnteredInclude Main :: eventsOf Main B) = Main :: filesOf B.
Proof.
  unfold enteredFiles. cbn [omap list_omap]. f_equal.
  apply enteredFiles_eventsOf.
Qed.

(** After the events of a scan that end with no error recorded, the files
    whose seen bit is clear are the files that were never entered. *)
Lemma scan_seen_files Main B C1 FE :
  handleEvents' (EnteredInclude Main :: eventsOf Main B)
    newIncludeTreePPConsumer = Returns (tt, C1) ->
  ErrorToReport C1 = None ->
  notSeenInclude (SeenIncludeFiles C1) FE
  = neverEntered (enteredEntries PP (Main :: filesOf B)) FE.
Proof.
  intros Hrun Hnone. unfold neverEntered, enteredEntries.
  destruct (notSeenInclude (SeenIncludeFiles C1) FE) eqn:Hseen; symmetry.
  - apply bool_decide_eq_true_2.
    intros (FE' & Huid & Hin)%list_elem_of_In%in_map_iff.
    apply list_elem_of_In, list_elem_of_omap in Hin as (FID & Hin & Hentry).
    apply list_elem_of_In in Hin.
    assert (Hev : In (EnteredInclude FID)
                    (EnteredInclude Main :: eventsOf Main B)).
    { destruct Hin as [<-|Hin]; [now left|].
      right. now apply entered_eventsOf. }
    assert (Hs : notSeenInclude (SeenIncludeFiles C1) FE' = false).
    { apply (handleEvents_entered_seen FID FE'
               (EnteredInclude Main :: eventsOf Main B)
               newIncludeTreePPConsumer C1); auto.
      intros FE0 [o Ho]. cbn in Ho. rewrite lookup_empty in Ho. discriminate. }
    rewrite (notSeenInclude_same_UID _ FE' FE) in Hseen by congruence.
    congruence.
  - apply bool_decide_eq_false_2. intros Hnot. apply Hnot.
    destruct (handleEvents_seen FE _ _ _ Hrun Hseen)
      as [Hb|(FID & FE' & Hin & Hentry & Huid)].
    + cbn in Hb. discriminate.
    + apply list_elem_of_In, in_map_iff. exists FE'. split; [exact Huid|].
      apply list_elem_of_In, list_elem_of_omap. exists FID.
      split; [|exact Hentry]. apply list_elem_of_In.
      cbn [flat_map resolvedBy app] in Hin.
      destruct Hin as [<-|Hin]; [now left|].
      destruct (resolvedBy_eventsOf _ _ _ Hin) as [->|Hf];
        [now left|now right].
Qed.

End SeenFiles.

(** ** The sweep over the files of a precompiled header *)

Section PCHSweep.

Context {ObjectRef : Type} `{EqDecision ObjectRef}.
Variable DB : ObjectStore ObjectRef.
Variable remove_dots : string -> string.
Variable path_append : string -> string -> string.
Variable NDEBUG : bool.

Local Abbreviation finalize' := (finalize DB remove_dots path_append NDEBUG).
Local Abbreviation manifestChunkOf' := (manifestChunkOf DB remove_dots).

(** With an implicit precompiled header, a [finalize] that ends with no
    error recorded has appended the entries of the files whose seen bit is
    clear, in ascending UID order, at the end of the manifest; they are
    all it has appended when there is neither a sanitizer ignore-list nor
    a sysroot. *)
Lemma finalize_sweep CI C C' :
  String.eqb (ImplicitPCHInclude CI) EmptyString = false ->
  finalize' CI C = Returns (tt, C') ->
  ErrorToReport C' = None ->
  exists Before Chunks,
    Forall2 (manifestChunkOf' (CI_getFileManager CI))
      (llvm_sort uid_less
         (List.filter (notSeenInclude (SeenIncludeFiles C))
            (getIncludedFiles (CI_getPreprocessor CI)))) Chunks /\
    IncludedFiles C' = IncludedFiles C ++ Before ++ concat Chunks /\
    (NoSanitizeFiles CI = [] -> Sysroot CI = EmptyString -> Before = []).
Proof.
  intros Hpch Hfin Hnone.
  revert Hfin. unfold finalize, bind at 1.
  destruct (finalize_NoSanitizeFiles _ _ _ _ _ C) as [[Ok C1]| |] eqn:H1;
    try discriminate.
  pose proof (finalize_NoSanitizeFiles_effect _ _ _ _ _ _ _ _ H1)
    as ([X1 Hf1] & Hs1 & Hb1 & _).
  destruct Ok; cbn [negb].
  2:{ intros [= <-]. destruct (Hb1 eq_refl) as [e He]. congruence. }
  unfold bind at 1.
  match goal with
  | |- match ?m C1 with _ => _ end = _ -> _ =>
      assert (Hsys : forall u C2, m C1 = Returns (u, C2) ->
                 (exists X2, IncludedFiles C2 = IncludedFiles C1 ++ X2) /\
                 SeenIncludeFiles C2 = SeenIncludeFiles C1);
      [|destruct (m C1) as [[[] C2]| |] eqn:H2; try discriminate;
        destruct (Hsys _ _ eq_refl) as ([X2 Hf2] & Hs2)]
  end.
  { intros u C2. destruct (negb _); run_monad.
    - destruct (finalize_addFile _ _ _ _ _ true C1) as [[b Cx]| |] eqn:Hx;
        try discriminate.
      apply finalize_addFile_effect in Hx as (Hfx & Hsx & _).
      intros [= _ <-]. now split.
    - intros [= _ <-]. split; [exists []; now rewrite app_nil_r|reflexivity]. }
  rewrite Hpch. run_monad. rewrite Hs2, Hs1.
  match goal with
  | |- context [finalize_NotSeenIncludes ?D ?r ?N ?FM ?Fs C2] =>
      destruct (finalize_NotSeenIncludes D r N FM Fs C2)
        as [[Ok3 C3]| |] eqn:H3; try discriminate
  end.
  apply finalize_NotSeenIncludes_effect in H3 as (_ & Hb3 & Ht3).
  destruct Ok3; cbn [negb].
  2:{ intros [= <-]. destruct (Hb3 eq_refl) as [e He]. congruence. }
  destruct (Ht3 eq_refl) as (Chunks & HF & ->).
  destruct (getObjectRefForFileContent _ _) as [[Ref|]|ec]; unfold deref;
    run_monad.
  - intros [= <-]. exists (X1 ++ X2), Chunks. split; [exact HF|].
    split; [cbn; now rewrite Hf2, Hf1, <- !app_assoc|].
    intros Hnone_listed Hno_sysroot.
    rewrite Hnone_listed in H1. injection H1 as <-.
    rewrite Hno_sysroot in H2. injection H2 as <-.
    rewrite <- (app_nil_r (IncludedFiles C)) in Hf1 at 1.
    apply app_inv_head in Hf1 as <-.
    rewrite <- (app_nil_r (IncludedFiles C)) in Hf2 at 1.
    now apply app_inv_head in Hf2 as <-.
  - destruct NDEBUG; discriminate.
  - intros Hr. apply ErrorToReport_assign_effect in Hr as [-> _].
    cbn in Hnone. discriminate.
Qed.

Lemma Forall2_In_left {A B} (P : A -> B -> Prop) l k x :
  Forall2 P l k -> In x l -> exists y, In y k /\ P x y.
Proof.
  induction 1 as [|a b l k Hab HF IH]; cbn [In]; [intros []|].
  intros [<-|Hin]; [eauto|]. destruct (IH Hin) as (y & Hy & HP). eauto.
Qed.

(** C5: in a scan with an implicit precompiled header, neither [finalize]
    nor the whole scan depends on the order in which the included files
    are enumerated (their UIDs being pairwise distinct), so two scans that
    differ only in that order end with the same consumer and return the
    same include-tree root. A [finalize] that ends with no failure
    recorded has appended to the manifest, after the entries of the
    sanitizer ignore-lists and of the SDK settings (there are none when
    there is neither an ignore-list nor a sysroot), the entries of every
    included file whose seen bit is not set, file by file in ascending UID
    order. And after the events of a scan (the main file is entered, then
    the balanced events of its body), the files whose seen bit is not set
    are the included files that were never entered: every included file
    whose UID is the UID of no file of an enter event has its entries
    appended, in ascending UID order, and no other file has. *)
Theorem C5_unseen_pch_files_in_uid_order CI Files :
  Files ≡ₚ getIncludedFiles (CI_getPreprocessor CI) ->
  NoDup (map getUID Files) ->
  (forall C, finalize' (withIncludedFiles Files CI) C = finalize' CI C) /\
  (forall evs,
      scanIncludeTree DB remove_dots path_append NDEBUG
        (withIncludedFiles Files CI) evs
      = scanIncludeTree DB remove_dots path_append NDEBUG CI evs) /\
  (forall C C',
      String.eqb (ImplicitPCHInclude CI) EmptyString = false ->
      finalize' CI C = Returns (tt, C') ->
      ErrorToReport C' = None ->
      let NotSeen :=
        List.filter (notSeenInclude (SeenIncludeFiles C))
          (getIncludedFiles (CI_getPreprocessor CI)) in
      let Visited := llvm_sort uid_less NotSeen in
      Visited ≡ₚ NotSeen /\
      Sorted uid_lt Visited /\
      exists Before Chunks,
        Forall2 (manifestChunkOf' (CI_getFileManager CI)) Visited Chunks /\
        IncludedFiles C' = IncludedFiles C ++ Before ++ concat Chunks /\
        (NoSanitizeFiles CI = [] -> Sysroot CI = EmptyString ->
         Before = [])) /\
  (forall Main B C1 C',
      String.eqb (ImplicitPCHInclude CI) EmptyString = false ->
      handleEvents DB remove_dots NDEBUG (CI_getPreprocessor CI)
        (EnteredInclude Main :: eventsOf Main B) newIncludeTreePPConsumer
      = Returns (tt, C1) ->
      finalize' CI C1 = Returns (tt, C') ->
      ErrorToReport C' = None ->
      let Entered :=
        enteredEntries (CI_getPreprocessor CI)
          (enteredFiles (EnteredInclude Main :: eventsOf Main B)) in
      let NeverEntered :=
        List.filter (neverEntered Entered)
          (getIncludedFiles (CI_getPreprocessor CI)) in
      let Visited := llvm_sort uid_less NeverEntered in
      Visited ≡ₚ NeverEntered /\
      Sorted uid_lt Visited /\
      exists Before Chunks,
        Forall2 (manifestChunkOf' (CI_getFileManager CI)) Visited Chunks /\
        IncludedFiles C' = IncludedFiles C1 ++ Before ++ concat Chunks /\
        (NoSanitizeFiles CI = [] -> Sysroot CI = EmptyString ->
         Before = []) /\
        forall FE,
          In FE (getIncludedFiles (CI_getPreprocessor CI)) ->
          getUID FE ∉ map getUID Entered ->
          exists Chunk,
            In Chunk Chunks /\
            manifestChunkOf' (CI_getFileManager CI) FE Chunk).
Proof.
  intros Hperm Hnd.
  assert (Hsorted : forall f,
             Sorted uid_lt
               (llvm_sort uid_less
                  (List.filter f (getIncludedFiles (CI_getPreprocessor CI))))).
  { intros f. apply llvm_sort_Sorted, filter_NoDup_uid. now rewrite <- Hperm. }
  split; [|split; [|split]].
  - intros C. now apply finalize_withIncludedFiles.
  - intros evs. unfold scanIncludeTree, bind.
    rewrite handleEvents_withIncludedFiles.
    destruct (handleEvents _ _ _ _ evs _) as [[[] C1]| |]; [|reflexivity..].
    now rewrite finalize_withIncludedFiles.
  - intros C C' Hpch Hfin Hnone NotSeen Visited.
    split; [apply llvm_sort_Permutation|].
    split; [apply Hsorted|].
    now apply finalize_sweep.
  - intros Main B C1 C' Hpch Hevs Hfin Hnone.
    rewrite enteredFiles_scan.
    intros Entered NeverEntered Visited.
    split; [apply llvm_sort_Permutation|].
    split; [apply Hsorted|].
    assert (Hn1 : ErrorToReport C1 = None).
    { destruct (ErrorToReport C1) as [e|] eqn:He1; [|reflexivity].
      destruct (finalize_keeps_error DB remove_dots path_append NDEBUG CI C1 C')
        as [e' He']; [rewrite He1; eauto|exact Hfin|congruence]. }
    assert (Hsame : List.filter (notSeenInclude (SeenIncludeFiles C1))
                      (getIncludedFiles (CI_getPreprocessor CI))
                    = NeverEntered).
    { apply List.filter_ext. intros FE.
      now apply (scan_seen_files DB remove_dots NDEBUG
                   (CI_getPreprocessor CI) Main B C1 FE). }
    destruct (finalize_sweep CI C1 C' Hpch Hfin Hnone)
      as (Before & Chunks & HF & Hmanifest & Hbefore).
    rewrite Hsame in HF. fold Visited in HF.
    exists Before, Chunks. split; [exact HF|]. split; [exact Hmanifest|].
    split; [exact Hbefore|].
    intros FE HFE Hnever.
    apply (Forall2_In_left _ _ _ FE HF).
    apply (Permutation_in FE (Permutation_sym (llvm_sort_Permutation _ _))).
    apply List.filter_In. split; [exact HFE|].
    now apply bool_decide_eq_true_2.
Qed.

End PCHSweep.

Lemma C5_unseen_pch_files_in_uid_order_witness :
  let Files := [Sample.entry "main.c"; Sample.entry "pch1.h";
                Sample.entry "pch2.h"] in
  Files ≡ₚ getIncludedFiles (CI_getPreprocessor Sample.CI) /\
  NoDup (map getUID Files) /\
  (forall C,
      finalize Sample.Store Sample.remove_dots Sample.path_append false
        (withIncludedFiles Files Sample.CI) C
      = finalize Sample.Store Sample.remove_dots Sample.path_append false
          Sample.CI C) /\
  (forall evs,
      scanIncludeTree Sample.Store Sample.remove_dots Sample.path_append false
        (withIncludedFiles Files Sample.CI) evs
      = scanIncludeTree Sample.Store Sample.remove_dots Sample.path_append
          false Sample.CI evs) /\
  (let NotSeen :=
     List.filter (notSeenInclude (SeenIncludeFiles Sample.afterScan))
       (getIncludedFiles (CI_getPreprocessor Sample.CI)) in
   let Visited := llvm_sort uid_less NotSeen in
   Visited ≡ₚ NotSeen /\
   Sorted uid_lt Visited /\
   exists Before Chunks,
     Forall2 (manifestChunkOf Sample.Store Sample.remove_dots
                (CI_getFileManager Sample.CI)) Visited Chunks /\
     IncludedFiles Sample.afterFinalize
     = IncludedFiles Sample.afterScan ++ Before ++ concat Chunks /\
     (NoSanitizeFiles Sample.CI = [] -> Sysroot Sample.CI = EmptyString ->
      Before = [])) /\
  (let Entered := enteredEntries Sample.PP (enteredFiles Sample.scan) in
   let NeverEntered :=
     List.filter (neverEntered Entered)
       (getIncludedFiles (CI_getPreprocessor Sample.CI)) in
   let Visited := llvm_sort uid_less NeverEntered in
   Entered = [Sample.entry "main.c"; Sample.entry "a.h"; Sample.entry "b.h"] /\
   Visited = [Sample.entry "pch2.h"; Sample.entry "pch1.h"] /\
   exists Before Chunks,
     Forall2 (manifestChunkOf Sample.Store Sample.remove_dots
                (CI_getFileManager Sample.CI)) Visited Chunks /\
     IncludedFiles Sample.afterFinalize
     = IncludedFiles Sample.afterScan ++ Before ++ concat Chunks /\
     (NoSanitizeFiles Sample.CI = [] -> Sysroot Sample.CI = EmptyString ->
      Before = []) /\
     forall FE,
       In FE (getIncludedFiles (CI_getPreprocessor Sample.CI)) ->
       getUID FE ∉ map getUID Entered ->
       exists Chunk,
         In Chunk Chunks /\
         manifestChunkOf Sample.Store Sample.remove_dots
           (CI_getFileManager Sample.CI) FE Chunk).
Proof.
  intros Files.
  assert (Hperm : Files ≡ₚ getIncludedFiles (CI_getPreprocessor Sample.CI))
    by apply perm_swap.
  assert (Hnd : NoDup (map getUID Files))
    by (apply (bool_decide_unpack _); vm_compute; exact I).
  split; [exact Hperm|]. split; [exact Hnd|].
  destruct (C5_unseen_pch_files_in_uid_order Sample.Store Sample.remove_dots
              Sample.path_append false Sample.CI Files Hperm Hnd)
    as (Hfin & Hscan & Hmanifest & Hnever).
  split; [exact Hfin|]. split; [exact Hscan|]. split.
  - apply (Hmanifest Sample.afterScan Sample.afterFinalize).
    + vm_compute. reflexivity.
    + vm_compute. reflexivity.
    + vm_compute. reflexivity.
  - intros Entered NeverEntered Visited.
    split; [vm_compute; reflexivity|]. split; [vm_compute; reflexivity|].
    apply (Hnever 2%Z Sample.body Sample.afterScan Sample.afterFinalize).
    + vm_compute. reflexivity.
    + vm_compute. reflexivity.
    + vm_compute. reflexivity.
    + vm_compute. reflexivity.
Defined.

(** ** The sample translation unit, again *)

Lemma getObjectForFileNonCached_marks_seen_witness :
  notSeenInclude (SeenIncludeFiles Sample.afterMain) (Sample.entry "a.h") = true /\
  notSeenInclude (SeenIncludeFiles Sample.afterNonCachedA) (Sample.entry "a.h")
  = false /\
  (forall FE', getUID FE' <> getUID (Sample.entry "a.h") ->
               notSeenInclude (SeenIncludeFiles Sample.afterNonCachedA) FE'
               = notSeenInclude (SeenIncludeFiles Sample.afterMain) FE').
Proof.
  split; [vm_compute; reflexivity|].
  apply (getObjectForFileNonCached_marks_seen Sample.Store Sample.remove_dots
           false Sample.FM (Sample.onDisk C_User "a.h") (Sample.entry "a.h")
           Sample.afterMain (Success "file(a.h,blob[]<#include b>)")
           Sample.afterNonCachedA).
  - vm_compute. reflexivity.
  - vm_compute. reflexivity.
Defined.

Lemma entered_files_are_seen_witness :
  seenCoversMemo Sample.afterScan /\
  forall Files FE,
    In FE (List.filter (notSeenInclude (SeenIncludeFiles Sample.afterScan))
             Files) ->
    ObjectForFile Sample.afterScan !! FE = None.
Proof.
  apply (entered_files_are_seen Sample.Store Sample.remove_dots false
           Sample.PP Sample.scan newIncludeTreePPConsumer Sample.afterScan).
  - intros FE [o Ho]. vm_compute in Ho. discriminate.
  - vm_compute. reflexivity.
Defined.

Lemma include_stack_depth_witness :
  Z.of_nat (length (IncludeStack Sample.afterReinclusion))
  = (Z.of_nat (length (IncludeStack (@newIncludeTreePPConsumer string)))
     + depthChanges [EnteredInclude 2%Z; EnteredInclude 3%Z;
                     EnteredInclude 4%Z; HasIncludeCheck true])%Z.
Proof.
  apply (include_stack_depth Sample.Store Sample.remove_dots false Sample.PP
           [EnteredInclude 2%Z; EnteredInclude 3%Z; EnteredInclude 4%Z;
            HasIncludeCheck true]
           newIncludeTreePPConsumer Sample.afterReinclusion).
  - vm_compute. reflexivity.
  - vm_compute. reflexivity.
Defined.

Lemma exitedInclude_store_failure_witness :
  exitedInclude Sample.StoreNoTrees Sample.remove_dots false Sample.PP
    2%Z 3%Z 2120%Z Sample.afterA
  = Returns (tt, set_ErrorToReport (Some (StringError "store is full"))
                   (set_IncludeStack [Sample.mainFrame] Sample.afterA)).
Proof.
  apply (exitedInclude_store_failure Sample.StoreNoTrees Sample.remove_dots
           false Sample.PP 2%Z 3%Z 2120%Z Sample.afterA
           (mkFilePPState C_User "file(a.h,blob[]<#include b>)" [] [])
           Sample.mainFrame [] (StringError "store is full")).
  - vm_compute. reflexivity.
  - vm_compute. reflexivity.
  - vm_compute. reflexivity.
  - vm_compute. reflexivity.
  - vm_compute. reflexivity.
Defined.

Lemma failed_resolution_not_memoized_witness :
  resolvedFile Sample.PP Sample.afterA 5%Z = None /\
  resolvedFile Sample.PP Sample.afterGone 5%Z = None.
Proof.
  apply (failed_resolution_not_memoized Sample.Store Sample.remove_dots false
           Sample.PP 5%Z Sample.afterA (ErrorCode 2) Sample.afterGone).
  vm_compute. reflexivity.
Defined.

Lemma finalize_frame_witness :
  IncludeStack Sample.afterFinalize = IncludeStack Sample.afterScan /\
  ObjectForFile Sample.afterFinalize = ObjectForFile Sample.afterScan /\
  PredefinesBufferRef Sample.afterFinalize
  = PredefinesBufferRef Sample.afterScan /\
  SeenIncludeFiles Sample.afterFinalize = SeenIncludeFiles Sample.afterScan /\
  (exists Extra, IncludedFiles Sample.afterFinalize
                 = IncludedFiles Sample.afterScan ++ Extra) /\
  (is_Some (ErrorToReport Sample.afterScan) ->
   is_Some (ErrorToReport Sample.afterFinalize)).
Proof.
  apply (finalize_frame Sample.Store Sample.remove_dots Sample.path_append
           false Sample.CI Sample.afterScan Sample.afterFinalize).
  vm_compute. reflexivity.
Defined.

Lemma finalize_PCHRef_witness :
  let Content :=
    getObjectRefForFileContent (CI_getFileManager Sample.CI)
      (ImplicitPCHInclude Sample.CI) in
  (String.eqb (ImplicitPCHInclude Sample.CI) EmptyString = true ->
   PCHRef Sample.afterFinalize = PCHRef Sample.afterScan) /\
  (String.eqb (ImplicitPCHInclude Sample.CI) EmptyString = false ->
   ErrorToReport Sample.afterFinalize = None ->
   Content = Value (PCHRef Sample.afterFinalize) /\
   is_Some (PCHRef Sample.afterFinalize)) /\
  (PCHRef Sample.afterFinalize = PCHRef Sample.afterScan \/
   Content = Value (PCHRef Sample.afterFinalize)).
Proof.
  apply (finalize_PCHRef Sample.Store Sample.remove_dots Sample.path_append
           false Sample.CI Sample.afterScan Sample.afterFinalize).
  vm_compute. reflexivity.
Defined.


Lemma scanIncludeTree_root_witness :
  exists MainFile Incs Bits MainTree FileList,
    resolvedFile Sample.PP Sample.afterScanRoot 2%Z = Some MainFile /\
    contributionOf Sample.Store Sample.PP
      (resolvedFile Sample.PP Sample.afterScanRoot) Sample.body
    = Some (Incs, Bits) /\
    IncludeTree_create Sample.Store C_User MainFile Incs Bits
    = Success MainTree /\
    IncludeFileList_create Sample.Store (IncludedFiles Sample.afterScanRoot)
    = Success FileList /\
    IncludeTreeRoot_create Sample.Store MainTree FileList
      (PCHRef Sample.afterScanRoot) = Success Sample.scanRoot /\
    IncludeStack Sample.afterScanRoot = [] /\
    ErrorToReport Sample.afterScanRoot = None.
Proof.
  apply (scanIncludeTree_root Sample.Store Sample.remove_dots
           Sample.path_append false Sample.CI 2%Z Sample.body Sample.scanRoot
           Sample.afterScanRoot).
  - repeat (constructor; [vm_compute; reflexivity|]). constructor.
  - vm_compute. reflexivity.
Defined.

Lemma addToFileList_failures_witness :
  addToFileList Sample.Store Sample.remove_dots false Sample.FM
    (Sample.entry "gone.h") Sample.afterMain
  = Returns (Failure (ErrorCode 2), Sample.afterMain) /\
  addToFileList Sample.StoreNoLink Sample.remove_dots false Sample.FM
    (Sample.entry "link.h") Sample.afterMain
  = Returns (Failure (StringError "store is full"),
             set_IncludedFiles
               (IncludedFiles Sample.afterMain
                ++ [("file(/src/real.h,blob[]<int real;>)", 30%Z)])
               Sample.afterMain).
Proof.
  split.
  - apply (proj1 (addToFileList_failures Sample.Store Sample.remove_dots
                    false Sample.FM (Sample.entry "gone.h") Sample.afterMain)
             2%nat).
    vm_compute. reflexivity.
  - apply (proj2 (proj2 (proj2
             (addToFileList_failures Sample.StoreNoLink Sample.remove_dots
                false Sample.FM (Sample.entry "link.h") Sample.afterMain)))
             "blob[]<int real;>" "file(/src/real.h,blob[]<int real;>)"
             (StringError "store is full")).
    + vm_compute. reflexivity.
    + vm_compute. reflexivity.
    + vm_compute. discriminate.
    + vm_compute. discriminate.
    + vm_compute. reflexivity.
    + vm_compute. reflexivity.
Defined.

Lemma finalize_missing_files_witness :
  finalize Sample.Store Sample.remove_dots Sample.path_append false
    Sample.CI_missing_ignorelist Sample.afterScan
  = Returns (tt, set_ErrorToReport (Some (ErrorCode 2)) Sample.afterScan) /\
  finalize Sample.Store Sample.remove_dots Sample.path_append false
    Sample.CI_missing_ignorelist Sample.failed
  = AssertionFailed /\
  finalize Sample.Store Sample.remove_dots Sample.path_append false
    Sample.CI_sdk Sample.afterScan
  = Returns (tt, Sample.afterScan).
Proof.
  split; [|split].
  - apply (proj1 (finalize_missing_files Sample.Store Sample.remove_dots
                    Sample.path_append false Sample.CI_missing_ignorelist
                    Sample.afterScan)
             "nowhere.txt" [] 2%nat).
    + vm_compute. reflexivity.
    + vm_compute. reflexivity.
    + vm_compute. reflexivity.
  - apply (proj1 (finalize_missing_files Sample.Store Sample.remove_dots
                    Sample.path_append false Sample.CI_missing_ignorelist
                    Sample.failed)
             "nowhere.txt" [] 2%nat).
    + vm_compute. reflexivity.
    + vm_compute. reflexivity.
    + vm_compute. eauto.
  - apply (proj2 (finalize_missing_files Sample.Store Sample.remove_dots
                    Sample.path_append false Sample.CI_sdk Sample.afterScan)
             2%nat).
    + vm_compute. reflexivity.
    + vm_compute. discriminate.
    + vm_compute. reflexivity.
    + vm_compute. reflexivity.
Defined.

(** The sanitizer ignore-lists are added whatever was scanned: an
    ignore-list that is a header of the scan is in the manifest twice. *)
Example sample_ignorelist_listed_again :
  exists C',
    finalize Sample.Store Sample.remove_dots Sample.path_append false
      Sample.CI_ignorelist_a Sample.afterScan = Returns (tt, C') /\
    In ("file(a.h,blob[]<#include b>)", 100%Z)
      (IncludedFiles Sample.afterScan) /\
    IncludedFiles C' =
      IncludedFiles Sample.afterScan
      ++ [("file(a.h,blob[]<#include b>)", 100%Z)].
Proof.
  eexists. split; [vm_compute; reflexivity|].
  split; [vm_compute; tauto|vm_compute; reflexivity].
Qed.
